(** * CARL security core: a verification model

    Shallow embedding of the security-relevant code of the CARL system:

    - [carl_zkp_prototype.py]  : class [SimpleZKP]
    - [carl_security_zkp.py]   : classes [ZeroKnowledgeProof],
      [AES256Encryption], [BiometricProtection], [GDPRCompliance],
      [CarlSecurityManager]
    - [carl_ai_core.py]        : class [CARLCognitiveEngine]

    Conventions.
    - A Python [str] is a list of Unicode code points, [bytes] a list of
      [Byte.byte].
    - [datetime] values are microseconds on the proleptic Gregorian time
      line; [datetime.now()] and the [secrets] module read two oracles kept
      in a [World]. Arithmetic on datetimes is unbounded (the OverflowError
      of year 9999 is outside the model).
    - A call either returns or raises; the object it was called on and the
      world keep whatever was changed before the exception.
    - [print] calls are not modelled. The world also keeps a journal of
      the operations of the hasher, the vault and the ledger, in program
      order, so that statements about ordering can be made.
    - The library routines the code calls (SHA-256, UTF-8, base64,
      AES-GCM, [isoformat]) are written out so that every definition
      computes. *)

From Stdlib Require Import NArith ZArith List Lia Bool String Ascii.
From Stdlib Require Import Strings.Byte.
From Stdlib Require Floats.PrimFloat.

From stdpp Require Import base option list strings gmap fin_maps.
Import ListNotations.

Local Open Scope N_scope.

(** ** Python values *)

Module Py.

#[global] Instance byte_eq_dec : EqDecision byte := Byte.byte_eq_dec.

Definition bytes := list byte.

(** A [str]: Unicode code points. *)
Definition str := list N.

(** Code points of an ASCII literal. *)
Definition lit (s : string) : str :=
  List.map (fun c => N_of_ascii c) (list_ascii_of_string s).

Definition byte_of_N (n : N) : byte :=
  match Byte.of_N (n mod 256) with Some b => b | None => x00 end.

Definition blit (s : string) : bytes :=
  List.map (fun c => byte_of_N (N_of_ascii c)) (list_ascii_of_string s).

Inductive exn : Type :=
  | ValueError
  | TypeError
  | UnicodeEncodeError
  | BinasciiError
  | InternalError
  | InvalidTag.

Inductive outcome (A : Type) : Type :=
  | Return (a : A)
  | Raise (e : exn).
Arguments Return {A} a.
Arguments Raise {A} e.

(** [s.encode()]: UTF-8; lone surrogates are refused. *)
Definition encode_char (c : N) : option bytes :=
  if c <? 0x80 then Some [byte_of_N c]
  else if c <? 0x800 then
    Some [byte_of_N (0xC0 + N.shiftr c 6); byte_of_N (0x80 + N.land c 0x3F)]
  else if (0xD800 <=? c) && (c <? 0xE000) then None
  else if c <? 0x10000 then
    Some [byte_of_N (0xE0 + N.shiftr c 12);
          byte_of_N (0x80 + N.land (N.shiftr c 6) 0x3F);
          byte_of_N (0x80 + N.land c 0x3F)]
  else if c <? 0x110000 then
    Some [byte_of_N (0xF0 + N.shiftr c 18);
          byte_of_N (0x80 + N.land (N.shiftr c 12) 0x3F);
          byte_of_N (0x80 + N.land (N.shiftr c 6) 0x3F);
          byte_of_N (0x80 + N.land c 0x3F)]
  else None.

Fixpoint encode_opt (s : str) : option bytes :=
  match s with
  | [] => Some []
  | c :: r =>
      match encode_char c, encode_opt r with
      | Some b, Some br => Some (b ++ br)
      | _, _ => None
      end
  end.

Definition encode (s : str) : outcome bytes :=
  match encode_opt s with
  | Some b => Return b
  | None => Raise UnicodeEncodeError
  end.

Definition is_ascii (s : str) : bool := forallb (fun c => c <? 0x80) s.

Definition str_eqb (a b : str) : bool := bool_decide (a = b).

(** [hmac.compare_digest] on two [str]: both must be ASCII. *)
Definition compare_digest (a b : str) : outcome bool :=
  if is_ascii a && is_ascii b then Return (str_eqb a b) else Raise TypeError.

(** [s.startswith(p)] *)
Fixpoint startswith (s p : str) : bool :=
  match p, s with
  | [], _ => true
  | _ :: _, [] => false
  | c :: p', d :: s' => (c =? d) && startswith s' p'
  end.

Definition hexdigit (n : N) : N :=
  if n <? 10 then 48 + n else 87 + n.

(** [b.hex()] *)
Definition hex (b : bytes) : str :=
  flat_map (fun x => [hexdigit (Byte.to_N x / 16); hexdigit (Byte.to_N x mod 16)]) b.

(** Truth value of an optional [bytes] or [str]: [None] and the empty
    value are false. *)
Definition truthy {A} (x : option (list A)) : bool :=
  match x with
  | Some (_ :: _) => true
  | _ => false
  end.

(** The value behind a truthy optional argument. *)
Definition value_of {A} (x : option (list A)) : list A :=
  match x with
  | Some a => a
  | None => []
  end.

(** What a call returned, if it returned. *)
Definition returned {A} (o : outcome A) : option A :=
  match o with
  | Return a => Some a
  | Raise _ => None
  end.

End Py.

(** ** hashlib.sha256 *)

Module SHA256.
Import Py.

Definition w32 (x : N) : N := x mod 0x100000000.
Definition add32 (x y : N) : N := w32 (x + y).
Definition rotr (n x : N) : N :=
  N.lor (N.shiftr x n) (w32 (N.shiftl x (32 - n))).
Definition Ch (x y z : N) : N :=
  N.lxor (N.land x y) (N.land (N.lxor x 0xFFFFFFFF) z).
Definition Maj (x y z : N) : N :=
  N.lxor (N.lxor (N.land x y) (N.land x z)) (N.land y z).
Definition Sigma0 (x : N) := N.lxor (N.lxor (rotr 2 x) (rotr 13 x)) (rotr 22 x).
Definition Sigma1 (x : N) := N.lxor (N.lxor (rotr 6 x) (rotr 11 x)) (rotr 25 x).
Definition sigma0 (x : N) := N.lxor (N.lxor (rotr 7 x) (rotr 18 x)) (N.shiftr x 3).
Definition sigma1 (x : N) := N.lxor (N.lxor (rotr 17 x) (rotr 19 x)) (N.shiftr x 10).

(** The first [n] primes, by trial division. *)
Definition is_prime (n : N) : bool :=
  (2 <=? n)
  && forallb (fun d => negb (n mod N.of_nat d =? 0)) (seq 2 (N.to_nat n - 2)).

Definition primes (n : nat) : list N :=
  firstn n (List.filter is_prime (List.map N.of_nat (seq 0 320))).

(** Integer cube root, bit by bit from bit [n - 1] down. *)
Fixpoint cube_root (n : nat) (x r : N) : N :=
  match n with
  | O => r
  | S k =>
      let c := r + N.shiftl 1 (N.of_nat k) in
      cube_root k x (if c * c * c <=? x then c else r)
  end.

(** Round constants: the first 32 bits of the fractional parts of the cube
    roots of the first 64 primes. *)
Definition K : list N :=
  Eval vm_compute in
    List.map (fun p => w32 (cube_root 36 (N.shiftl p 96) 0)) (primes 64).

(** Initial hash value: the same for the square roots of the first 8 primes. *)
Definition H0 : list N :=
  Eval vm_compute in List.map (fun p => w32 (N.sqrt (N.shiftl p 64))) (primes 8).

(** Big-endian bytes of a number, [n] bytes wide. *)
Fixpoint be_bytes (n : nat) (x : N) : bytes :=
  match n with
  | O => []
  | S k => byte_of_N (N.shiftr x (8 * N.of_nat k)) :: be_bytes k x
  end.

Definition be_word (b : bytes) : N :=
  fold_left (fun acc x => acc * 256 + Byte.to_N x) b 0.

(** Padding: 0x80, zeros up to 56 mod 64, then the bit length on 8 bytes. *)
Definition pad (m : bytes) : bytes :=
  let len := N.of_nat (length m) in
  let z := (55 + 64 - len mod 64) mod 64 in
  m ++ [x80] ++ repeat x00 (N.to_nat z) ++ be_bytes 8 (8 * len).

Fixpoint words (n : nat) (b : bytes) : list N :=
  match n with
  | O => []
  | S k => be_word (firstn 4 b) :: words k (skipn 4 b)
  end.

(** Message schedule: [w] holds W[0..t-1]; extend by [n] further words. *)
Fixpoint schedule (n : nat) (w : list N) : list N :=
  match n with
  | O => w
  | S k =>
      let t := length w in
      let g i := nth (t - i) w 0 in
      schedule k (w ++ [add32 (add32 (sigma1 (g 2%nat)) (g 7%nat))
                              (add32 (sigma0 (g 15%nat)) (g 16%nat))])
  end.

Definition round (s : list N) (kw : N * N) : list N :=
  match s with
  | [a; b; c; d; e; f; g; h] =>
      let t1 := add32 (add32 (add32 h (Sigma1 e)) (add32 (Ch e f g) (fst kw))) (snd kw) in
      let t2 := add32 (Sigma0 a) (Maj a b c) in
      [add32 t1 t2; a; b; c; add32 d t1; e; f; g]
  | _ => s
  end.

Definition compress (h : list N) (block : bytes) : list N :=
  let w := schedule 48 (words 16 block) in
  let s := fold_left round (combine K w) h in
  List.map (fun p => add32 (fst p) (snd p)) (combine h s).

Fixpoint blocks (n : nat) (h : list N) (b : bytes) : list N :=
  match n with
  | O => h
  | S k => blocks k (compress h (firstn 64 b)) (skipn 64 b)
  end.

Definition digest (m : bytes) : bytes :=
  let p := pad m in
  flat_map (be_bytes 4) (blocks (length p / 64) H0 p).

(** [hashlib.sha256(m).hexdigest()] *)
Definition hexdigest (m : bytes) : str := hex (digest m).

End SHA256.


(** ** base64 *)

Module Base64.
Import Py.

Definition b64char (v : N) : N :=
  if v <? 26 then 65 + v
  else if v <? 52 then 71 + v
  else if v <? 62 then v - 4
  else if v =? 62 then 43 else 47.

(** [table_a2b_base64]: the value of an alphabet character. *)
Definition b64val (c : N) : option N :=
  if (65 <=? c) && (c <=? 90) then Some (c - 65)
  else if (97 <=? c) && (c <=? 122) then Some (c - 71)
  else if (48 <=? c) && (c <=? 57) then Some (c + 4)
  else if c =? 43 then Some 62
  else if c =? 47 then Some 63
  else None.

Definition pad_char : N := 61.

(** [base64.b64encode(b).decode()] *)
Fixpoint b64encode (b : bytes) : str :=
  match b with
  | [] => []
  | [x] =>
      let a := Byte.to_N x in
      [b64char (N.shiftr a 2); b64char (N.shiftl (N.land a 3) 4); pad_char; pad_char]
  | [x; y] =>
      let a := Byte.to_N x in
      let b := Byte.to_N y in
      [b64char (N.shiftr a 2);
       b64char (N.lor (N.shiftl (N.land a 3) 4) (N.shiftr b 4));
       b64char (N.shiftl (N.land b 15) 2); pad_char]
  | x :: y :: z :: r =>
      let a := Byte.to_N x in
      let b := Byte.to_N y in
      let c := Byte.to_N z in
      b64char (N.shiftr a 2)
      :: b64char (N.lor (N.shiftl (N.land a 3) 4) (N.shiftr b 4))
      :: b64char (N.lor (N.shiftl (N.land b 15) 2) (N.shiftr c 6))
      :: b64char (N.land c 63) :: b64encode r
  end.

Definition emit (x : byte) (r : outcome bytes) : outcome bytes :=
  match r with
  | Return l => Return (x :: l)
  | Raise e => Raise e
  end.

(** [binascii.a2b_base64] with [strict_mode] off: characters outside the
    alphabet are skipped, a complete pad sequence ends the parse, the bits
    left over in [leftchar] are dropped. *)
Fixpoint a2b_base64 (s : str) (quad_pos : nat) (leftchar : N) (pads : nat)
  : outcome bytes :=
  match s with
  | [] =>
      match quad_pos with
      | O => Return []
      | _ => Raise BinasciiError
      end
  | this_ch :: r =>
      if this_ch =? pad_char then
        if (2 <=? quad_pos)%nat then
          if (4 <=? quad_pos + S pads)%nat then Return []
          else a2b_base64 r quad_pos leftchar (S pads)
        else a2b_base64 r quad_pos leftchar pads
      else
        match b64val this_ch with
        | None => a2b_base64 r quad_pos leftchar pads
        | Some v =>
            match quad_pos with
            | 0%nat => a2b_base64 r 1 v 0
            | 1%nat =>
                emit (byte_of_N (N.lor (N.shiftl leftchar 2) (N.shiftr v 4)))
                     (a2b_base64 r 2 (N.land v 15) 0)
            | 2%nat =>
                emit (byte_of_N (N.lor (N.shiftl leftchar 4) (N.shiftr v 2)))
                     (a2b_base64 r 3 (N.land v 3) 0)
            | _ =>
                emit (byte_of_N (N.lor (N.shiftl leftchar 6) v))
                     (a2b_base64 r 0 0 0)
            end
        end
  end.

(** [base64.b64decode(s)] for a [str] argument: the text must be ASCII. *)
Definition b64decode (s : str) : outcome bytes :=
  if is_ascii s then a2b_base64 s 0 0 0 else Raise ValueError.

End Base64.

(** ** AES block cipher (FIPS 197), forward direction *)

Module AES.
Import Py.

Definition xtime (a : N) : N :=
  let b := N.shiftl a 1 in
  if 0x100 <=? b then N.lxor b 0x11B else b.

Fixpoint gmul_aux (n : nat) (a b : N) : N :=
  match n with
  | O => 0
  | S k => N.lxor (if N.odd b then a else 0) (gmul_aux k (xtime a) (N.shiftr b 1))
  end.

(** Product in GF(2^8). *)
Definition gmul (a b : N) : N := gmul_aux 8 a b.

Fixpoint gpow (n : nat) (a : N) : N :=
  match n with
  | O => 1
  | S k => gmul a (gpow k a)
  end.

Definition rotl8 (x k : N) : N :=
  N.lor (N.shiftl x k mod 256) (N.shiftr x (8 - k)).

Definition sbox_calc (x : N) : N :=
  let s := gpow 254 x in
  N.lxor (N.lxor (N.lxor (N.lxor (N.lxor s (rotl8 s 1)) (rotl8 s 2)) (rotl8 s 3)) (rotl8 s 4)) 0x63.

Definition sbox_table : list N :=
  Eval vm_compute in List.map (fun i => sbox_calc (N.of_nat i)) (seq 0 256).

Definition sbox (x : N) : N := nth (N.to_nat x) sbox_table 0.

Definition sub_word (w : N) : N :=
  N.lor (N.lor (N.shiftl (sbox (N.shiftr w 24)) 24)
               (N.shiftl (sbox (N.land (N.shiftr w 16) 255)) 16))
        (N.lor (N.shiftl (sbox (N.land (N.shiftr w 8) 255)) 8)
               (sbox (N.land w 255))).

Definition rot_word (w : N) : N :=
  N.lor (N.shiftl w 8 mod 0x100000000) (N.shiftr w 24).

Fixpoint rcon (j : nat) : N :=
  match j with
  | O => 0
  | 1%nat => 1
  | S k => xtime (rcon k)
  end.

(** Key expansion: [w] holds the words so far, [n] more are appended. *)
Fixpoint expand (Nk : nat) (n : nat) (w : list N) : list N :=
  match n with
  | O => w
  | S k =>
      let i := length w in
      let temp := nth (i - 1) w 0 in
      let temp' :=
        if (i mod Nk =? 0)%nat then
          N.lxor (sub_word (rot_word temp)) (N.shiftl (rcon (i / Nk)) 24)
        else if (6 <? Nk)%nat && (i mod Nk =? 4)%nat then sub_word temp
        else temp in
      expand Nk k (w ++ [N.lxor (nth (i - Nk) w 0) temp'])
  end.

Fixpoint key_words (n : nat) (k : bytes) : list N :=
  match n with
  | O => []
  | S m =>
      fold_left (fun acc x => acc * 256 + Byte.to_N x) (firstn 4 k) 0
      :: key_words m (skipn 4 k)
  end.

Definition word_bytes (w : N) : list N :=
  [N.shiftr w 24; N.land (N.shiftr w 16) 255; N.land (N.shiftr w 8) 255; N.land w 255].

(** Round keys as lists of 16 byte values. *)
Fixpoint round_keys (n : nat) (w : list N) : list (list N) :=
  match n with
  | O => []
  | S k => flat_map word_bytes (firstn 4 w) :: round_keys k (skipn 4 w)
  end.

Definition key_schedule (key : bytes) : list (list N) :=
  let Nk := (length key / 4)%nat in
  let Nr := (Nk + 6)%nat in
  round_keys (S Nr) (expand Nk (4 * S Nr - Nk) (key_words Nk key)).

Definition add_round_key (s k : list N) : list N :=
  List.map (fun p => N.lxor (fst p) (snd p)) (combine s k).

Definition sub_bytes (s : list N) : list N := List.map sbox s.

(** The state is column-major: byte [r + 4c] is row [r], column [c]. *)
Definition shift_rows (s : list N) : list N :=
  List.map (fun i => nth (i mod 4 + 4 * ((i / 4 + i mod 4) mod 4)) s 0) (seq 0 16).

Definition mix_column (c : list N) : list N :=
  match c with
  | [a0; a1; a2; a3] =>
      [N.lxor (N.lxor (gmul 2 a0) (gmul 3 a1)) (N.lxor a2 a3);
       N.lxor (N.lxor a0 (gmul 2 a1)) (N.lxor (gmul 3 a2) a3);
       N.lxor (N.lxor a0 a1) (N.lxor (gmul 2 a2) (gmul 3 a3));
       N.lxor (N.lxor (gmul 3 a0) a1) (N.lxor a2 (gmul 2 a3))]
  | _ => c
  end.

Definition mix_columns (s : list N) : list N :=
  mix_column (firstn 4 s) ++ mix_column (firstn 4 (skipn 4 s))
  ++ mix_column (firstn 4 (skipn 8 s)) ++ mix_column (firstn 4 (skipn 12 s)).

Fixpoint rounds (s : list N) (ks : list (list N)) : list N :=
  match ks with
  | [] => s
  | [k] => add_round_key (shift_rows (sub_bytes s)) k
  | k :: r => rounds (add_round_key (mix_columns (shift_rows (sub_bytes s))) k) r
  end.

Definition block_bytes (x : N) : list N :=
  List.map (fun i => N.land (N.shiftr x (8 * N.of_nat (15 - i))) 255) (seq 0 16).

Definition block_of (l : list N) : N := fold_left (fun acc x => acc * 256 + x) l 0.

(** [encrypt_block key x]: one 128-bit block, as a big-endian number. *)
Definition encrypt_block (key : bytes) (x : N) : N :=
  match key_schedule key with
  | [] => x
  | k0 :: ks => block_of (rounds (add_round_key (block_bytes x) k0) ks)
  end.

Definition valid_key (key : bytes) : bool :=
  let n := length key in
  ((n =? 16) || (n =? 24) || (n =? 32))%nat.

End AES.

(** ** Galois/Counter mode (NIST SP 800-38D) with a 16-byte tag *)

Module GCM.
Import Py.

Definition block := N.

Definition bits128 : N := 0xFFFFFFFFFFFFFFFFFFFFFFFFFFFFFFFF.
Definition R : N := 0xE1000000000000000000000000000000.

(** [mul_loop n x v]: the last [n] steps of the product; bit [n-1] of [x]
    is the next bit read (the leftmost bit of a block is bit 127). *)
Fixpoint mul_loop (n : nat) (x v : N) : N :=
  match n with
  | O => 0
  | S k =>
      N.lxor (if N.testbit x (N.of_nat k) then v else 0)
             (mul_loop k x (if N.odd v then N.lxor (N.shiftr v 1) R else N.shiftr v 1))
  end.

(** Product in GF(2^128). *)
Definition gf_mul (x y : N) : N := mul_loop 128 x y.

(** The unit of the field: the block whose leftmost bit is set. *)
Definition gf_one : N := N.shiftl 1 127.

(** [gf_inv_loop n sq acc]: [n] times, square [sq] and multiply it into
    [acc]; from [h] and the unit, 127 rounds give h^(2^128 - 2). *)
Fixpoint gf_inv_loop (n : nat) (sq acc : N) : N :=
  match n with
  | O => acc
  | S k => let sq' := gf_mul sq sq in gf_inv_loop k sq' (gf_mul acc sq')
  end.

Definition gf_inv (h : N) : N := gf_inv_loop 127 h gf_one.

(** [h] is a block and multiplying by [h], then by [gf_inv h], fixes each
    of the 128 one-bit blocks: [h] is invertible. *)
Definition invertible (h : N) : bool :=
  let hinv := gf_inv h in
  (h <? N.shiftl 1 128)
  && forallb (fun i => gf_mul (gf_mul (N.shiftl 1 (N.of_nat i)) h) hinv
                       =? N.shiftl 1 (N.of_nat i))
             (seq 0 128).

Definition ghash_step (h : N) (y x : N) : N := gf_mul (N.lxor y x) h.

Definition ghash (h : N) (xs : list N) : N := fold_left (ghash_step h) xs 0.

Definition be_block (b : bytes) : N :=
  fold_left (fun acc x => acc * 256 + Byte.to_N x) b 0.

(** The blocks of a byte string, the last one padded with zeros. *)
Fixpoint to_blocks (n : nat) (b : bytes) : list N :=
  match n with
  | O => []
  | S k =>
      match b with
      | [] => []
      | _ => be_block (firstn 16 (firstn 16 b ++ repeat x00 16)) :: to_blocks k (skipn 16 b)
      end
  end.

Definition blocks_of (b : bytes) : list N := to_blocks (length b) b.

Definition bitlen (b : bytes) : N := 8 * N.of_nat (length b).

Definition inc32 (cb : N) : N :=
  N.lor (N.shiftl (N.shiftr cb 32) 32) ((N.land cb 0xFFFFFFFF + 1) mod 0x100000000).

Fixpoint xor_bytes (a b : bytes) : bytes :=
  match a, b with
  | x :: a', y :: b' => byte_of_N (N.lxor (Byte.to_N x) (Byte.to_N y)) :: xor_bytes a' b'
  | _, _ => []
  end.

Section Mode.
(** The block cipher under a fixed key. *)
Variable E : N -> N.

Fixpoint keystream (n : nat) (cb : N) : bytes :=
  match n with
  | O => []
  | S k => SHA256.be_bytes 16 (E cb) ++ keystream k (inc32 cb)
  end.

Definition gctr (icb : N) (x : bytes) : bytes :=
  xor_bytes x (keystream (length x / 16 + 1) icb).

Definition hash_key : N := E 0.

Definition j0 (iv : bytes) : N :=
  if (length iv =? 12)%nat then be_block iv * 0x100000000 + 1
  else ghash hash_key (blocks_of iv ++ [bitlen iv]).

Definition tag (iv aad ct : bytes) : bytes :=
  let s := ghash hash_key
             (blocks_of aad ++ blocks_of ct ++ [bitlen aad * 0x10000000000000000 + bitlen ct]) in
  SHA256.be_bytes 16 (N.lxor (E (j0 iv)) s).

Definition seal (iv aad pt : bytes) : bytes * bytes :=
  let ct := gctr (inc32 (j0 iv)) pt in
  (ct, tag iv aad ct).

Definition open (iv aad ct t : bytes) : option bytes :=
  if bool_decide (tag iv aad ct = t) then Some (gctr (inc32 (j0 iv)) ct) else None.
End Mode.

End GCM.

(** ** datetime and json *)

Module Lib.
Import Py.

(** A naive [datetime]: microseconds since 0001-01-01T00:00:00. *)
Definition datetime := Z.

(** [timedelta(seconds=n)] and [timedelta(minutes=n)], in microseconds. *)
Definition timedelta_seconds (n : Z) : Z := (n * 1000000)%Z.
Definition timedelta_minutes (n : Z) : Z := (n * 60000000)%Z.

(** Year, month and day of the day number [d] (0 is 0001-01-01). *)
Definition civil (d : Z) : Z * Z * Z :=
  (let z := d + 306 in
   let era := z / 146097 in
   let doe := z - era * 146097 in
   let yoe := (doe - doe / 1460 + doe / 36524 - doe / 146096) / 365 in
   let doy := doe - (365 * yoe + yoe / 4 - yoe / 100) in
   let mp := (5 * doy + 2) / 153 in
   let m := if mp <? 10 then mp + 3 else mp - 9 in
   (if m <=? 2 then yoe + era * 400 + 1 else yoe + era * 400,
    m, doy - (153 * mp + 2) / 5 + 1))%Z.

(** Decimal digits, zero-padded to [w] places. *)
Fixpoint digits (w : nat) (n : N) : str :=
  match w with
  | O => []
  | S k => digits k (n / 10) ++ [48 + n mod 10]
  end.

(** [t.isoformat()] *)
Definition isoformat (t : datetime) : str :=
  let '(y, m, d) := civil (t / 86400000000)%Z in
  let r := (t mod 86400000000)%Z in
  let s := (r / 1000000)%Z in
  let us := (r mod 1000000)%Z in
  digits 4 (Z.to_N y) ++ lit "-" ++ digits 2 (Z.to_N m) ++ lit "-" ++ digits 2 (Z.to_N d)
  ++ lit "T" ++ digits 2 (Z.to_N (s / 3600)) ++ lit ":"
  ++ digits 2 (Z.to_N ((s / 60) mod 60)) ++ lit ":" ++ digits 2 (Z.to_N (s mod 60))
  ++ (if (us =? 0)%Z then [] else lit "." ++ digits 6 (Z.to_N us)).

Definition hex4 (n : N) : str :=
  [hexdigit (n / 4096 mod 16); hexdigit (n / 256 mod 16); hexdigit (n / 16 mod 16); hexdigit (n mod 16)].





End Lib.

(** ** MD5 (RFC 1321) *)

Module MD5.
Import Py.

Definition w32 (x : N) : N := x mod 0x100000000.
Definition add32 (x y : N) : N := w32 (x + y).
Definition not32 (x : N) : N := N.lxor x 0xFFFFFFFF.
Definition rotl (n x : N) : N :=
  w32 (N.lor (N.shiftl x n) (N.shiftr x (32 - n))).

(** The sine table: [floor (2^32 * |sin i|)] for i = 1 .. 64. The sine is
    summed by Horner's rule, sin x = x (1 - x^2/(2*3) (1 - x^2/(4*5) (...))),
    in fixed point with 400 fractional bits. *)
Definition scale : Z := (2 ^ 400)%Z.

Fixpoint horner (k : nat) (x2 h : Z) : Z :=
  match k with
  | O => h
  | S k' =>
      let n := Z.of_nat k in
      horner k' x2 (scale - (x2 * h) / (2 * n * (2 * n + 1)))%Z
  end.

Definition sine_const (i : Z) : N :=
  Z.to_N ((Z.abs (i * horner 150 (i * i) scale) * 0x100000000) / scale)%Z.

Definition T : list N :=
  Eval vm_compute in List.map (fun i => sine_const (Z.of_nat i)) (seq 1 64).

(** The rotation of step [i]. *)
Definition shift (i : nat) : N :=
  nth (i mod 4 + 4 * (i / 16))
      [7; 12; 17; 22;  5; 9; 14; 20;  4; 11; 16; 23;  6; 10; 15; 21] 0.

(** Little-endian words and bytes. *)
Fixpoint le_bytes (n : nat) (x : N) : bytes :=
  match n with
  | O => []
  | S k => byte_of_N (x mod 256) :: le_bytes k (x / 256)
  end.

Definition le_word (b : bytes) : N :=
  fold_right (fun x acc => Byte.to_N x + 256 * acc) 0 b.

Fixpoint words (n : nat) (b : bytes) : list N :=
  match n with
  | O => []
  | S k => le_word (firstn 4 b) :: words k (skipn 4 b)
  end.

Definition pad (m : bytes) : bytes :=
  let l := length m in
  let z := ((64 - (l + 9) mod 64) mod 64)%nat in
  m ++ [x80] ++ repeat x00 z ++ le_bytes 8 (8 * N.of_nat l).

(** One step on the state (a, b, c, d). *)
Definition step (m : list N) (s : N * N * N * N) (i : nat) : N * N * N * N :=
  let '(a, b, c, d) := s in
  let f :=
    if (i <? 16)%nat then N.lor (N.land b c) (N.land (not32 b) d)
    else if (i <? 32)%nat then N.lor (N.land d b) (N.land (not32 d) c)
    else if (i <? 48)%nat then N.lxor (N.lxor b c) d
    else N.lxor c (N.lor b (not32 d)) in
  let g :=
    if (i <? 16)%nat then i
    else if (i <? 32)%nat then ((5 * i + 1) mod 16)%nat
    else if (i <? 48)%nat then ((3 * i + 5) mod 16)%nat
    else ((7 * i) mod 16)%nat in
  let f' := add32 (add32 (add32 f a) (nth i T 0)) (nth g m 0) in
  (d, add32 b (rotl (shift i) f'), b, c).

Definition compress (h : N * N * N * N) (block : bytes) : N * N * N * N :=
  let m := words 16 block in
  let '(a, b, c, d) := fold_left (step m) (seq 0 64) h in
  let '(a0, b0, c0, d0) := h in
  (add32 a0 a, add32 b0 b, add32 c0 c, add32 d0 d).

Fixpoint blocks (n : nat) (h : N * N * N * N) (b : bytes) : N * N * N * N :=
  match n with
  | O => h
  | S k => blocks k (compress h (firstn 64 b)) (skipn 64 b)
  end.

Definition digest (m : bytes) : bytes :=
  let p := pad m in
  let '(a, b, c, d) :=
    blocks (length p / 64) (0x67452301, 0xefcdab89, 0x98badcfe, 0x10325476) p in
  le_bytes 4 a ++ le_bytes 4 b ++ le_bytes 4 c ++ le_bytes 4 d.

Definition hexdigest (m : bytes) : str := hex (digest m).

End MD5.

(** ** [str.lower()] (Unicode 14.0, as CPython 3.11 carries it) *)

Module Unicode.
Import Py.

(** The simple lower-case mapping, in runs: the characters [first],
    [first + step], ..., [last] go to [image], [image + step], ... *)
Definition lower_runs : list (N * N * N * N) :=
  [
   (0x41, 0x5A, 1, 0x61); (0xC0, 0xD6, 1, 0xE0); (0xD8, 0xDE, 1, 0xF8);
   (0x100, 0x12E, 2, 0x101); (0x132, 0x136, 2, 0x133); (0x139, 0x147, 2, 0x13A);
   (0x14A, 0x176, 2, 0x14B); (0x178, 0x178, 1, 0xFF); (0x179, 0x17D, 2, 0x17A);
   (0x181, 0x181, 1, 0x253); (0x182, 0x184, 2, 0x183); (0x186, 0x186, 1, 0x254);
   (0x187, 0x187, 1, 0x188); (0x189, 0x18A, 1, 0x256); (0x18B, 0x18B, 1, 0x18C);
   (0x18E, 0x18E, 1, 0x1DD); (0x18F, 0x18F, 1, 0x259); (0x190, 0x190, 1, 0x25B);
   (0x191, 0x191, 1, 0x192); (0x193, 0x193, 1, 0x260); (0x194, 0x194, 1, 0x263);
   (0x196, 0x196, 1, 0x269); (0x197, 0x197, 1, 0x268); (0x198, 0x198, 1, 0x199);
   (0x19C, 0x19C, 1, 0x26F); (0x19D, 0x19D, 1, 0x272); (0x19F, 0x19F, 1, 0x275);
   (0x1A0, 0x1A4, 2, 0x1A1); (0x1A6, 0x1A6, 1, 0x280); (0x1A7, 0x1A7, 1, 0x1A8);
   (0x1A9, 0x1A9, 1, 0x283); (0x1AC, 0x1AC, 1, 0x1AD); (0x1AE, 0x1AE, 1, 0x288);
   (0x1AF, 0x1AF, 1, 0x1B0); (0x1B1, 0x1B2, 1, 0x28A); (0x1B3, 0x1B5, 2, 0x1B4);
   (0x1B7, 0x1B7, 1, 0x292); (0x1B8, 0x1B8, 1, 0x1B9); (0x1BC, 0x1BC, 1, 0x1BD);
   (0x1C4, 0x1C4, 1, 0x1C6); (0x1C5, 0x1C5, 1, 0x1C6); (0x1C7, 0x1C7, 1, 0x1C9);
   (0x1C8, 0x1C8, 1, 0x1C9); (0x1CA, 0x1CA, 1, 0x1CC); (0x1CB, 0x1DB, 2, 0x1CC);
   (0x1DE, 0x1EE, 2, 0x1DF); (0x1F1, 0x1F1, 1, 0x1F3); (0x1F2, 0x1F4, 2, 0x1F3);
   (0x1F6, 0x1F6, 1, 0x195); (0x1F7, 0x1F7, 1, 0x1BF); (0x1F8, 0x21E, 2, 0x1F9);
   (0x220, 0x220, 1, 0x19E); (0x222, 0x232, 2, 0x223); (0x23A, 0x23A, 1, 0x2C65);
   (0x23B, 0x23B, 1, 0x23C); (0x23D, 0x23D, 1, 0x19A); (0x23E, 0x23E, 1, 0x2C66);
   (0x241, 0x241, 1, 0x242); (0x243, 0x243, 1, 0x180); (0x244, 0x244, 1, 0x289);
   (0x245, 0x245, 1, 0x28C); (0x246, 0x24E, 2, 0x247); (0x370, 0x372, 2, 0x371);
   (0x376, 0x376, 1, 0x377); (0x37F, 0x37F, 1, 0x3F3); (0x386, 0x386, 1, 0x3AC);
   (0x388, 0x38A, 1, 0x3AD); (0x38C, 0x38C, 1, 0x3CC); (0x38E, 0x38F, 1, 0x3CD);
   (0x391, 0x3A1, 1, 0x3B1); (0x3A3, 0x3AB, 1, 0x3C3); (0x3CF, 0x3CF, 1, 0x3D7);
   (0x3D8, 0x3EE, 2, 0x3D9); (0x3F4, 0x3F4, 1, 0x3B8); (0x3F7, 0x3F7, 1, 0x3F8);
   (0x3F9, 0x3F9, 1, 0x3F2); (0x3FA, 0x3FA, 1, 0x3FB); (0x3FD, 0x3FF, 1, 0x37B);
   (0x400, 0x40F, 1, 0x450); (0x410, 0x42F, 1, 0x430); (0x460, 0x480, 2, 0x461);
   (0x48A, 0x4BE, 2, 0x48B); (0x4C0, 0x4C0, 1, 0x4CF); (0x4C1, 0x4CD, 2, 0x4C2);
   (0x4D0, 0x52E, 2, 0x4D1); (0x531, 0x556, 1, 0x561); (0x10A0, 0x10C5, 1, 0x2D00);
   (0x10C7, 0x10C7, 1, 0x2D27); (0x10CD, 0x10CD, 1, 0x2D2D); (0x13A0, 0x13EF, 1, 0xAB70);
   (0x13F0, 0x13F5, 1, 0x13F8); (0x1C90, 0x1CBA, 1, 0x10D0); (0x1CBD, 0x1CBF, 1, 0x10FD);
   (0x1E00, 0x1E94, 2, 0x1E01); (0x1E9E, 0x1E9E, 1, 0xDF); (0x1EA0, 0x1EFE, 2, 0x1EA1);
   (0x1F08, 0x1F0F, 1, 0x1F00); (0x1F18, 0x1F1D, 1, 0x1F10); (0x1F28, 0x1F2F, 1, 0x1F20);
   (0x1F38, 0x1F3F, 1, 0x1F30); (0x1F48, 0x1F4D, 1, 0x1F40); (0x1F59, 0x1F5F, 2, 0x1F51);
   (0x1F68, 0x1F6F, 1, 0x1F60); (0x1F88, 0x1F8F, 1, 0x1F80); (0x1F98, 0x1F9F, 1, 0x1F90);
   (0x1FA8, 0x1FAF, 1, 0x1FA0); (0x1FB8, 0x1FB9, 1, 0x1FB0); (0x1FBA, 0x1FBB, 1, 0x1F70);
   (0x1FBC, 0x1FBC, 1, 0x1FB3); (0x1FC8, 0x1FCB, 1, 0x1F72); (0x1FCC, 0x1FCC, 1, 0x1FC3);
   (0x1FD8, 0x1FD9, 1, 0x1FD0); (0x1FDA, 0x1FDB, 1, 0x1F76); (0x1FE8, 0x1FE9, 1, 0x1FE0);
   (0x1FEA, 0x1FEB, 1, 0x1F7A); (0x1FEC, 0x1FEC, 1, 0x1FE5); (0x1FF8, 0x1FF9, 1, 0x1F78);
   (0x1FFA, 0x1FFB, 1, 0x1F7C); (0x1FFC, 0x1FFC, 1, 0x1FF3); (0x2126, 0x2126, 1, 0x3C9);
   (0x212A, 0x212A, 1, 0x6B); (0x212B, 0x212B, 1, 0xE5); (0x2132, 0x2132, 1, 0x214E);
   (0x2160, 0x216F, 1, 0x2170); (0x2183, 0x2183, 1, 0x2184); (0x24B6, 0x24CF, 1, 0x24D0);
   (0x2C00, 0x2C2F, 1, 0x2C30); (0x2C60, 0x2C60, 1, 0x2C61); (0x2C62, 0x2C62, 1, 0x26B);
   (0x2C63, 0x2C63, 1, 0x1D7D); (0x2C64, 0x2C64, 1, 0x27D); (0x2C67, 0x2C6B, 2, 0x2C68);
   (0x2C6D, 0x2C6D, 1, 0x251); (0x2C6E, 0x2C6E, 1, 0x271); (0x2C6F, 0x2C6F, 1, 0x250);
   (0x2C70, 0x2C70, 1, 0x252); (0x2C72, 0x2C72, 1, 0x2C73); (0x2C75, 0x2C75, 1, 0x2C76);
   (0x2C7E, 0x2C7F, 1, 0x23F); (0x2C80, 0x2CE2, 2, 0x2C81); (0x2CEB, 0x2CED, 2, 0x2CEC);
   (0x2CF2, 0x2CF2, 1, 0x2CF3); (0xA640, 0xA66C, 2, 0xA641); (0xA680, 0xA69A, 2, 0xA681);
   (0xA722, 0xA72E, 2, 0xA723); (0xA732, 0xA76E, 2, 0xA733); (0xA779, 0xA77B, 2, 0xA77A);
   (0xA77D, 0xA77D, 1, 0x1D79); (0xA77E, 0xA786, 2, 0xA77F); (0xA78B, 0xA78B, 1, 0xA78C);
   (0xA78D, 0xA78D, 1, 0x265); (0xA790, 0xA792, 2, 0xA791); (0xA796, 0xA7A8, 2, 0xA797);
   (0xA7AA, 0xA7AA, 1, 0x266); (0xA7AB, 0xA7AB, 1, 0x25C); (0xA7AC, 0xA7AC, 1, 0x261);
   (0xA7AD, 0xA7AD, 1, 0x26C); (0xA7AE, 0xA7AE, 1, 0x26A); (0xA7B0, 0xA7B0, 1, 0x29E);
   (0xA7B1, 0xA7B1, 1, 0x287); (0xA7B2, 0xA7B2, 1, 0x29D); (0xA7B3, 0xA7B3, 1, 0xAB53);
   (0xA7B4, 0xA7C2, 2, 0xA7B5); (0xA7C4, 0xA7C4, 1, 0xA794); (0xA7C5, 0xA7C5, 1, 0x282);
   (0xA7C6, 0xA7C6, 1, 0x1D8E); (0xA7C7, 0xA7C9, 2, 0xA7C8); (0xA7D0, 0xA7D0, 1, 0xA7D1);
   (0xA7D6, 0xA7D8, 2, 0xA7D7); (0xA7F5, 0xA7F5, 1, 0xA7F6); (0xFF21, 0xFF3A, 1, 0xFF41);
   (0x10400, 0x10427, 1, 0x10428); (0x104B0, 0x104D3, 1, 0x104D8); (0x10570, 0x1057A, 1, 0x10597);
   (0x1057C, 0x1058A, 1, 0x105A3); (0x1058C, 0x10592, 1, 0x105B3); (0x10594, 0x10595, 1, 0x105BB);
   (0x10C80, 0x10CB2, 1, 0x10CC0); (0x118A0, 0x118BF, 1, 0x118C0); (0x16E40, 0x16E5F, 1, 0x16E60);
   (0x1E900, 0x1E921, 1, 0x1E922)
  ].

(** The case-ignorable characters, in ranges. *)
Definition case_ignorable_ranges : list (N * N) :=
  [
   (0x27, 0x27); (0x2E, 0x2E); (0x3A, 0x3A); (0x5E, 0x5E); (0x60, 0x60);
   (0xA8, 0xA8); (0xAD, 0xAD); (0xAF, 0xAF); (0xB4, 0xB4); (0xB7, 0xB8);
   (0x2B0, 0x36F); (0x374, 0x375); (0x37A, 0x37A); (0x384, 0x385); (0x387, 0x387);
   (0x483, 0x489); (0x559, 0x559); (0x55F, 0x55F); (0x591, 0x5BD); (0x5BF, 0x5BF);
   (0x5C1, 0x5C2); (0x5C4, 0x5C5); (0x5C7, 0x5C7); (0x5F4, 0x5F4); (0x600, 0x605);
   (0x610, 0x61A); (0x61C, 0x61C); (0x640, 0x640); (0x64B, 0x65F); (0x670, 0x670);
   (0x6D6, 0x6DD); (0x6DF, 0x6E8); (0x6EA, 0x6ED); (0x70F, 0x70F); (0x711, 0x711);
   (0x730, 0x74A); (0x7A6, 0x7B0); (0x7EB, 0x7F5); (0x7FA, 0x7FA); (0x7FD, 0x7FD);
   (0x816, 0x82D); (0x859, 0x85B); (0x888, 0x888); (0x890, 0x891); (0x898, 0x89F);
   (0x8C9, 0x902); (0x93A, 0x93A); (0x93C, 0x93C); (0x941, 0x948); (0x94D, 0x94D);
   (0x951, 0x957); (0x962, 0x963); (0x971, 0x971); (0x981, 0x981); (0x9BC, 0x9BC);
   (0x9C1, 0x9C4); (0x9CD, 0x9CD); (0x9E2, 0x9E3); (0x9FE, 0x9FE); (0xA01, 0xA02);
   (0xA3C, 0xA3C); (0xA41, 0xA42); (0xA47, 0xA48); (0xA4B, 0xA4D); (0xA51, 0xA51);
   (0xA70, 0xA71); (0xA75, 0xA75); (0xA81, 0xA82); (0xABC, 0xABC); (0xAC1, 0xAC5);
   (0xAC7, 0xAC8); (0xACD, 0xACD); (0xAE2, 0xAE3); (0xAFA, 0xAFF); (0xB01, 0xB01);
   (0xB3C, 0xB3C); (0xB3F, 0xB3F); (0xB41, 0xB44); (0xB4D, 0xB4D); (0xB55, 0xB56);
   (0xB62, 0xB63); (0xB82, 0xB82); (0xBC0, 0xBC0); (0xBCD, 0xBCD); (0xC00, 0xC00);
   (0xC04, 0xC04); (0xC3C, 0xC3C); (0xC3E, 0xC40); (0xC46, 0xC48); (0xC4A, 0xC4D);
   (0xC55, 0xC56); (0xC62, 0xC63); (0xC81, 0xC81); (0xCBC, 0xCBC); (0xCBF, 0xCBF);
   (0xCC6, 0xCC6); (0xCCC, 0xCCD); (0xCE2, 0xCE3); (0xD00, 0xD01); (0xD3B, 0xD3C);
   (0xD41, 0xD44); (0xD4D, 0xD4D); (0xD62, 0xD63); (0xD81, 0xD81); (0xDCA, 0xDCA);
   (0xDD2, 0xDD4); (0xDD6, 0xDD6); (0xE31, 0xE31); (0xE34, 0xE3A); (0xE46, 0xE4E);
   (0xEB1, 0xEB1); (0xEB4, 0xEBC); (0xEC6, 0xEC6); (0xEC8, 0xECD); (0xF18, 0xF19);
   (0xF35, 0xF35); (0xF37, 0xF37); (0xF39, 0xF39); (0xF71, 0xF7E); (0xF80, 0xF84);
   (0xF86, 0xF87); (0xF8D, 0xF97); (0xF99, 0xFBC); (0xFC6, 0xFC6); (0x102D, 0x1030);
   (0x1032, 0x1037); (0x1039, 0x103A); (0x103D, 0x103E); (0x1058, 0x1059); (0x105E, 0x1060);
   (0x1071, 0x1074); (0x1082, 0x1082); (0x1085, 0x1086); (0x108D, 0x108D); (0x109D, 0x109D);
   (0x10FC, 0x10FC); (0x135D, 0x135F); (0x1712, 0x1714); (0x1732, 0x1733); (0x1752, 0x1753);
   (0x1772, 0x1773); (0x17B4, 0x17B5); (0x17B7, 0x17BD); (0x17C6, 0x17C6); (0x17C9, 0x17D3);
   (0x17D7, 0x17D7); (0x17DD, 0x17DD); (0x180B, 0x180F); (0x1843, 0x1843); (0x1885, 0x1886);
   (0x18A9, 0x18A9); (0x1920, 0x1922); (0x1927, 0x1928); (0x1932, 0x1932); (0x1939, 0x193B);
   (0x1A17, 0x1A18); (0x1A1B, 0x1A1B); (0x1A56, 0x1A56); (0x1A58, 0x1A5E); (0x1A60, 0x1A60);
   (0x1A62, 0x1A62); (0x1A65, 0x1A6C); (0x1A73, 0x1A7C); (0x1A7F, 0x1A7F); (0x1AA7, 0x1AA7);
   (0x1AB0, 0x1ACE); (0x1B00, 0x1B03); (0x1B34, 0x1B34); (0x1B36, 0x1B3A); (0x1B3C, 0x1B3C);
   (0x1B42, 0x1B42); (0x1B6B, 0x1B73); (0x1B80, 0x1B81); (0x1BA2, 0x1BA5); (0x1BA8, 0x1BA9);
   (0x1BAB, 0x1BAD); (0x1BE6, 0x1BE6); (0x1BE8, 0x1BE9); (0x1BED, 0x1BED); (0x1BEF, 0x1BF1);
   (0x1C2C, 0x1C33); (0x1C36, 0x1C37); (0x1C78, 0x1C7D); (0x1CD0, 0x1CD2); (0x1CD4, 0x1CE0);
   (0x1CE2, 0x1CE8); (0x1CED, 0x1CED); (0x1CF4, 0x1CF4); (0x1CF8, 0x1CF9); (0x1D2C, 0x1D6A);
   (0x1D78, 0x1D78); (0x1D9B, 0x1DFF); (0x1FBD, 0x1FBD); (0x1FBF, 0x1FC1); (0x1FCD, 0x1FCF);
   (0x1FDD, 0x1FDF); (0x1FED, 0x1FEF); (0x1FFD, 0x1FFE); (0x200B, 0x200F); (0x2018, 0x2019);
   (0x2024, 0x2024); (0x2027, 0x2027); (0x202A, 0x202E); (0x2060, 0x2064); (0x2066, 0x206F);
   (0x2071, 0x2071); (0x207F, 0x207F); (0x2090, 0x209C); (0x20D0, 0x20F0); (0x2C7C, 0x2C7D);
   (0x2CEF, 0x2CF1); (0x2D6F, 0x2D6F); (0x2D7F, 0x2D7F); (0x2DE0, 0x2DFF); (0x2E2F, 0x2E2F);
   (0x3005, 0x3005); (0x302A, 0x302D); (0x3031, 0x3035); (0x303B, 0x303B); (0x3099, 0x309E);
   (0x30FC, 0x30FE); (0xA015, 0xA015); (0xA4F8, 0xA4FD); (0xA60C, 0xA60C); (0xA66F, 0xA672);
   (0xA674, 0xA67D); (0xA67F, 0xA67F); (0xA69C, 0xA69F); (0xA6F0, 0xA6F1); (0xA700, 0xA721);
   (0xA770, 0xA770); (0xA788, 0xA78A); (0xA7F2, 0xA7F4); (0xA7F8, 0xA7F9); (0xA802, 0xA802);
   (0xA806, 0xA806); (0xA80B, 0xA80B); (0xA825, 0xA826); (0xA82C, 0xA82C); (0xA8C4, 0xA8C5);
   (0xA8E0, 0xA8F1); (0xA8FF, 0xA8FF); (0xA926, 0xA92D); (0xA947, 0xA951); (0xA980, 0xA982);
   (0xA9B3, 0xA9B3); (0xA9B6, 0xA9B9); (0xA9BC, 0xA9BD); (0xA9CF, 0xA9CF); (0xA9E5, 0xA9E6);
   (0xAA29, 0xAA2E); (0xAA31, 0xAA32); (0xAA35, 0xAA36); (0xAA43, 0xAA43); (0xAA4C, 0xAA4C);
   (0xAA70, 0xAA70); (0xAA7C, 0xAA7C); (0xAAB0, 0xAAB0); (0xAAB2, 0xAAB4); (0xAAB7, 0xAAB8);
   (0xAABE, 0xAABF); (0xAAC1, 0xAAC1); (0xAADD, 0xAADD); (0xAAEC, 0xAAED); (0xAAF3, 0xAAF4);
   (0xAAF6, 0xAAF6); (0xAB5B, 0xAB5F); (0xAB69, 0xAB6B); (0xABE5, 0xABE5); (0xABE8, 0xABE8);
   (0xABED, 0xABED); (0xFB1E, 0xFB1E); (0xFBB2, 0xFBC2); (0xFE00, 0xFE0F); (0xFE13, 0xFE13);
   (0xFE20, 0xFE2F); (0xFE52, 0xFE52); (0xFE55, 0xFE55); (0xFEFF, 0xFEFF); (0xFF07, 0xFF07);
   (0xFF0E, 0xFF0E); (0xFF1A, 0xFF1A); (0xFF3E, 0xFF3E); (0xFF40, 0xFF40); (0xFF70, 0xFF70);
   (0xFF9E, 0xFF9F); (0xFFE3, 0xFFE3); (0xFFF9, 0xFFFB); (0x101FD, 0x101FD); (0x102E0, 0x102E0);
   (0x10376, 0x1037A); (0x10780, 0x10785); (0x10787, 0x107B0); (0x107B2, 0x107BA); (0x10A01, 0x10A03);
   (0x10A05, 0x10A06); (0x10A0C, 0x10A0F); (0x10A38, 0x10A3A); (0x10A3F, 0x10A3F); (0x10AE5, 0x10AE6);
   (0x10D24, 0x10D27); (0x10EAB, 0x10EAC); (0x10F46, 0x10F50); (0x10F82, 0x10F85); (0x11001, 0x11001);
   (0x11038, 0x11046); (0x11070, 0x11070); (0x11073, 0x11074); (0x1107F, 0x11081); (0x110B3, 0x110B6);
   (0x110B9, 0x110BA); (0x110BD, 0x110BD); (0x110C2, 0x110C2); (0x110CD, 0x110CD); (0x11100, 0x11102);
   (0x11127, 0x1112B); (0x1112D, 0x11134); (0x11173, 0x11173); (0x11180, 0x11181); (0x111B6, 0x111BE);
   (0x111C9, 0x111CC); (0x111CF, 0x111CF); (0x1122F, 0x11231); (0x11234, 0x11234); (0x11236, 0x11237);
   (0x1123E, 0x1123E); (0x112DF, 0x112DF); (0x112E3, 0x112EA); (0x11300, 0x11301); (0x1133B, 0x1133C);
   (0x11340, 0x11340); (0x11366, 0x1136C); (0x11370, 0x11374); (0x11438, 0x1143F); (0x11442, 0x11444);
   (0x11446, 0x11446); (0x1145E, 0x1145E); (0x114B3, 0x114B8); (0x114BA, 0x114BA); (0x114BF, 0x114C0);
   (0x114C2, 0x114C3); (0x115B2, 0x115B5); (0x115BC, 0x115BD); (0x115BF, 0x115C0); (0x115DC, 0x115DD);
   (0x11633, 0x1163A); (0x1163D, 0x1163D); (0x1163F, 0x11640); (0x116AB, 0x116AB); (0x116AD, 0x116AD);
   (0x116B0, 0x116B5); (0x116B7, 0x116B7); (0x1171D, 0x1171F); (0x11722, 0x11725); (0x11727, 0x1172B);
   (0x1182F, 0x11837); (0x11839, 0x1183A); (0x1193B, 0x1193C); (0x1193E, 0x1193E); (0x11943, 0x11943);
   (0x119D4, 0x119D7); (0x119DA, 0x119DB); (0x119E0, 0x119E0); (0x11A01, 0x11A0A); (0x11A33, 0x11A38);
   (0x11A3B, 0x11A3E); (0x11A47, 0x11A47); (0x11A51, 0x11A56); (0x11A59, 0x11A5B); (0x11A8A, 0x11A96);
   (0x11A98, 0x11A99); (0x11C30, 0x11C36); (0x11C38, 0x11C3D); (0x11C3F, 0x11C3F); (0x11C92, 0x11CA7);
   (0x11CAA, 0x11CB0); (0x11CB2, 0x11CB3); (0x11CB5, 0x11CB6); (0x11D31, 0x11D36); (0x11D3A, 0x11D3A);
   (0x11D3C, 0x11D3D); (0x11D3F, 0x11D45); (0x11D47, 0x11D47); (0x11D90, 0x11D91); (0x11D95, 0x11D95);
   (0x11D97, 0x11D97); (0x11EF3, 0x11EF4); (0x13430, 0x13438); (0x16AF0, 0x16AF4); (0x16B30, 0x16B36);
   (0x16B40, 0x16B43); (0x16F4F, 0x16F4F); (0x16F8F, 0x16F9F); (0x16FE0, 0x16FE1); (0x16FE3, 0x16FE4);
   (0x1AFF0, 0x1AFF3); (0x1AFF5, 0x1AFFB); (0x1AFFD, 0x1AFFE); (0x1BC9D, 0x1BC9E); (0x1BCA0, 0x1BCA3);
   (0x1CF00, 0x1CF2D); (0x1CF30, 0x1CF46); (0x1D167, 0x1D169); (0x1D173, 0x1D182); (0x1D185, 0x1D18B);
   (0x1D1AA, 0x1D1AD); (0x1D242, 0x1D244); (0x1DA00, 0x1DA36); (0x1DA3B, 0x1DA6C); (0x1DA75, 0x1DA75);
   (0x1DA84, 0x1DA84); (0x1DA9B, 0x1DA9F); (0x1DAA1, 0x1DAAF); (0x1E000, 0x1E006); (0x1E008, 0x1E018);
   (0x1E01B, 0x1E021); (0x1E023, 0x1E024); (0x1E026, 0x1E02A); (0x1E130, 0x1E13D); (0x1E2AE, 0x1E2AE);
   (0x1E2EC, 0x1E2EF); (0x1E8D0, 0x1E8D6); (0x1E944, 0x1E94B); (0x1F3FB, 0x1F3FF); (0xE0001, 0xE0001);
   (0xE0020, 0xE007F); (0xE0100, 0xE01EF)
  ].

(** The cased characters that are not case-ignorable, in ranges: the scan
    for the final sigma asks for the cased property only after the
    case-ignorable characters were skipped. *)
Definition cased_ranges : list (N * N) :=
  [
   (0x41, 0x5A); (0x61, 0x7A); (0xAA, 0xAA); (0xB5, 0xB5); (0xBA, 0xBA);
   (0xC0, 0xD6); (0xD8, 0xF6); (0xF8, 0x1BA); (0x1BC, 0x1BF); (0x1C4, 0x293);
   (0x295, 0x2AF); (0x370, 0x373); (0x376, 0x377); (0x37B, 0x37D); (0x37F, 0x37F);
   (0x386, 0x386); (0x388, 0x38A); (0x38C, 0x38C); (0x38E, 0x3A1); (0x3A3, 0x3F5);
   (0x3F7, 0x481); (0x48A, 0x52F); (0x531, 0x556); (0x560, 0x588); (0x10A0, 0x10C5);
   (0x10C7, 0x10C7); (0x10CD, 0x10CD); (0x10D0, 0x10FA); (0x10FD, 0x10FF); (0x13A0, 0x13F5);
   (0x13F8, 0x13FD); (0x1C80, 0x1C88); (0x1C90, 0x1CBA); (0x1CBD, 0x1CBF); (0x1D00, 0x1D2B);
   (0x1D6B, 0x1D77); (0x1D79, 0x1D9A); (0x1E00, 0x1F15); (0x1F18, 0x1F1D); (0x1F20, 0x1F45);
   (0x1F48, 0x1F4D); (0x1F50, 0x1F57); (0x1F59, 0x1F59); (0x1F5B, 0x1F5B); (0x1F5D, 0x1F5D);
   (0x1F5F, 0x1F7D); (0x1F80, 0x1FB4); (0x1FB6, 0x1FBC); (0x1FBE, 0x1FBE); (0x1FC2, 0x1FC4);
   (0x1FC6, 0x1FCC); (0x1FD0, 0x1FD3); (0x1FD6, 0x1FDB); (0x1FE0, 0x1FEC); (0x1FF2, 0x1FF4);
   (0x1FF6, 0x1FFC); (0x2102, 0x2102); (0x2107, 0x2107); (0x210A, 0x2113); (0x2115, 0x2115);
   (0x2119, 0x211D); (0x2124, 0x2124); (0x2126, 0x2126); (0x2128, 0x2128); (0x212A, 0x212D);
   (0x212F, 0x2134); (0x2139, 0x2139); (0x213C, 0x213F); (0x2145, 0x2149); (0x214E, 0x214E);
   (0x2160, 0x217F); (0x2183, 0x2184); (0x24B6, 0x24E9); (0x2C00, 0x2C7B); (0x2C7E, 0x2CE4);
   (0x2CEB, 0x2CEE); (0x2CF2, 0x2CF3); (0x2D00, 0x2D25); (0x2D27, 0x2D27); (0x2D2D, 0x2D2D);
   (0xA640, 0xA66D); (0xA680, 0xA69B); (0xA722, 0xA76F); (0xA771, 0xA787); (0xA78B, 0xA78E);
   (0xA790, 0xA7CA); (0xA7D0, 0xA7D1); (0xA7D3, 0xA7D3); (0xA7D5, 0xA7D9); (0xA7F5, 0xA7F6);
   (0xA7FA, 0xA7FA); (0xAB30, 0xAB5A); (0xAB60, 0xAB68); (0xAB70, 0xABBF); (0xFB00, 0xFB06);
   (0xFB13, 0xFB17); (0xFF21, 0xFF3A); (0xFF41, 0xFF5A); (0x10400, 0x1044F); (0x104B0, 0x104D3);
   (0x104D8, 0x104FB); (0x10570, 0x1057A); (0x1057C, 0x1058A); (0x1058C, 0x10592); (0x10594, 0x10595);
   (0x10597, 0x105A1); (0x105A3, 0x105B1); (0x105B3, 0x105B9); (0x105BB, 0x105BC); (0x10C80, 0x10CB2);
   (0x10CC0, 0x10CF2); (0x118A0, 0x118DF); (0x16E40, 0x16E7F); (0x1D400, 0x1D454); (0x1D456, 0x1D49C);
   (0x1D49E, 0x1D49F); (0x1D4A2, 0x1D4A2); (0x1D4A5, 0x1D4A6); (0x1D4A9, 0x1D4AC); (0x1D4AE, 0x1D4B9);
   (0x1D4BB, 0x1D4BB); (0x1D4BD, 0x1D4C3); (0x1D4C5, 0x1D505); (0x1D507, 0x1D50A); (0x1D50D, 0x1D514);
   (0x1D516, 0x1D51C); (0x1D51E, 0x1D539); (0x1D53B, 0x1D53E); (0x1D540, 0x1D544); (0x1D546, 0x1D546);
   (0x1D54A, 0x1D550); (0x1D552, 0x1D6A5); (0x1D6A8, 0x1D6C0); (0x1D6C2, 0x1D6DA); (0x1D6DC, 0x1D6FA);
   (0x1D6FC, 0x1D714); (0x1D716, 0x1D734); (0x1D736, 0x1D74E); (0x1D750, 0x1D76E); (0x1D770, 0x1D788);
   (0x1D78A, 0x1D7A8); (0x1D7AA, 0x1D7C2); (0x1D7C4, 0x1D7CB); (0x1DF00, 0x1DF09); (0x1DF0B, 0x1DF1E);
   (0x1E900, 0x1E943); (0x1F130, 0x1F149); (0x1F150, 0x1F169); (0x1F170, 0x1F189)
  ].

Definition in_ranges (r : list (N * N)) (c : N) : bool :=
  existsb (fun ab => (fst ab <=? c) && (c <=? snd ab)) r.

Definition is_case_ignorable (c : N) : bool := in_ranges case_ignorable_ranges c.
Definition is_cased (c : N) : bool := in_ranges cased_ranges c.

Definition in_run (c : N) (r : N * N * N * N) : bool :=
  let '(first, last, step, _) := r in
  (first <=? c) && (c <=? last) && ((c - first) mod step =? 0).

(** The full lower-case mapping of one character; U+0130 is the only one
    with two characters. *)
Definition to_lower_full (c : N) : str :=
  if c =? 0x130 then [0x69; 0x307]
  else match find (in_run c) lower_runs with
       | Some (first, _, _, image) => [image + (c - first)]
       | None => [c]
       end.

Fixpoint skip_ignorable (s : str) : str :=
  match s with
  | c :: r => if is_case_ignorable c then skip_ignorable r else s
  | [] => []
  end.

(** Whether a capital sigma stands at the end of a word: [before] is the
    text before it, nearest character first, [after] the text after it. *)
Definition final_sigma (before after : str) : bool :=
  match skip_ignorable before with
  | c :: _ =>
      is_cased c
      && match skip_ignorable after with
         | c' :: _ => negb (is_cased c')
         | [] => true
         end
  | [] => false
  end.

Fixpoint lower_from (before s : str) : str :=
  match s with
  | [] => []
  | c :: r =>
      (if c =? 0x3A3 then [if final_sigma before r then 0x3C2 else 0x3C3]
       else to_lower_full c)
      ++ lower_from (c :: before) r
  end.

(** [s.lower()] *)
Definition lower (s : str) : str := lower_from [] s.

(** [p in s] for two [str]. *)
Fixpoint contains (s p : str) : bool :=
  startswith s p
  || match s with
     | [] => false
     | _ :: r => contains r p
     end.

End Unicode.

(** ** Values of any type, and the exceptions of [bytes.decode], [json.loads]
    and subscripting *)

Module Dyn.
Import Py.

(** The exceptions of the code that handles stored templates: those of
    [Py.exn] and three more. *)
Inductive exn : Type :=
  | Builtin (e : Py.exn)
  | KeyError (key : str)
  | UnicodeDecodeError
  | JSONDecodeError.

Inductive outcome (A : Type) : Type :=
  | Return (a : A)
  | Raise (e : exn).
Arguments Return {A} a.
Arguments Raise {A} e.

Definition up {A} (o : Py.outcome A) : outcome A :=
  match o with
  | Py.Return a => Return a
  | Py.Raise e => Raise (Builtin e)
  end.

(** What [json.loads] builds: [None], [bool], [int], [float], [str],
    [list] and [dict]. A float is kept as the text [float()] is applied
    to; a dict keeps its keys in insertion order, each once. *)
#[warnings="-register-all"]
Inductive value : Type :=
  | VNone
  | VBool (b : bool)
  | VInt (z : Z)
  | VFloat (text : str)
  | VStr (s : str)
  | VList (l : list value)
  | VDict (d : list (str * value)).

(** [d[k] = v] *)
Fixpoint dict_set (d : list (str * value)) (k : str) (v : value) : list (str * value) :=
  match d with
  | [] => [(k, v)]
  | (k', v') :: r => if str_eqb k' k then (k', v) :: r else (k', v') :: dict_set r k v
  end.

Fixpoint dict_get (d : list (str * value)) (k : str) : option value :=
  match d with
  | [] => None
  | (k', v') :: r => if str_eqb k' k then Some v' else dict_get r k
  end.

(** [x[k]] for a [str] key [k]: only a dict can be subscripted by it. *)
Definition getitem (x : value) (k : str) : outcome value :=
  match x with
  | VDict d =>
      match dict_get d k with
      | Some v => Return v
      | None => Raise (KeyError k)
      end
  | _ => Raise (Builtin TypeError)
  end.

(** [b.decode()]: UTF-8, strict. *)
Definition continuation (x : byte) : option N :=
  let n := Byte.to_N x in
  if (0x80 <=? n) && (n <=? 0xBF) then Some (n - 0x80) else None.

Definition within (lo hi : N) (x : byte) : option N :=
  let n := Byte.to_N x in
  if (lo <=? n) && (n <=? hi) then Some (n - 0x80) else None.

Fixpoint decode_opt (b : bytes) : option str :=
  match b with
  | [] => Some []
  | x :: r =>
      let n := Byte.to_N x in
      if n <? 0x80 then cons n <$> decode_opt r
      else if (0xC2 <=? n) && (n <=? 0xDF) then
        match r with
        | y :: r1 =>
            match continuation y with
            | Some a => cons ((n - 0xC0) * 64 + a) <$> decode_opt r1
            | None => None
            end
        | _ => None
        end
      else if (0xE0 <=? n) && (n <=? 0xEF) then
        match r with
        | y :: z :: r2 =>
            match within (if n =? 0xE0 then 0xA0 else 0x80)
                         (if n =? 0xED then 0x9F else 0xBF) y, continuation z with
            | Some a, Some b' => cons ((n - 0xE0) * 4096 + a * 64 + b') <$> decode_opt r2
            | _, _ => None
            end
        | _ => None
        end
      else if (0xF0 <=? n) && (n <=? 0xF4) then
        match r with
        | y :: z :: t :: r3 =>
            match within (if n =? 0xF0 then 0x90 else 0x80)
                         (if n =? 0xF4 then 0x8F else 0xBF) y,
                  continuation z, continuation t with
            | Some a, Some b', Some c =>
                cons ((n - 0xF0) * 262144 + a * 4096 + b' * 64 + c) <$> decode_opt r3
            | _, _, _ => None
            end
        | _ => None
        end
      else None
  end.

Definition decode (b : bytes) : outcome str :=
  match decode_opt b with
  | Some s => Return s
  | None => Raise UnicodeDecodeError
  end.

(** [base64.b64decode(x)] and [hmac.compare_digest(a, x)] when [x] may be
    any value: anything but a [str] is a TypeError. *)
Definition b64decode (x : value) : outcome bytes :=
  match x with
  | VStr s => up (Base64.b64decode s)
  | _ => Raise (Builtin TypeError)
  end.

Definition compare_digest (a : str) (x : value) : outcome bool :=
  match x with
  | VStr s => up (Py.compare_digest a s)
  | _ => Raise (Builtin TypeError)
  end.

End Dyn.

(** ** json.loads *)

Module Json.
Import Py Dyn.

(** The result of a scan: a value and the text left, a JSONDecodeError, or
    the ValueError of an integer literal of more than 4300 digits. *)
Inductive scan (A : Type) : Type :=
  | Found (a : A) (rest : str)
  | Malformed
  | TooLong.
Arguments Found {A} a rest.
Arguments Malformed {A}.
Arguments TooLong {A}.

Definition is_ws (c : N) : bool := (c =? 32) || (c =? 9) || (c =? 10) || (c =? 13).

Fixpoint skip_ws (s : str) : str :=
  match s with
  | c :: r => if is_ws c then skip_ws r else s
  | [] => []
  end.

Definition is_digit (c : N) : bool := (48 <=? c) && (c <=? 57).

Definition hexval (c : N) : option N :=
  if is_digit c then Some (c - 48)
  else if (97 <=? c) && (c <=? 102) then Some (c - 87)
  else if (65 <=? c) && (c <=? 70) then Some (c - 55)
  else None.

Definition hex4 (a b c d : N) : option N :=
  match hexval a, hexval b, hexval c, hexval d with
  | Some x, Some y, Some z, Some t => Some (x * 4096 + y * 256 + z * 16 + t)
  | _, _, _, _ => None
  end.

(** The character a backslash escape other than [\u] stands for. *)
Definition escape (c : N) : option N :=
  if c =? 34 then Some 34 else if c =? 92 then Some 92 else if c =? 47 then Some 47
  else if c =? 98 then Some 8 else if c =? 102 then Some 12 else if c =? 110 then Some 10
  else if c =? 114 then Some 13 else if c =? 116 then Some 9 else None.

Definition emit (c : N) (r : option (str * str)) : option (str * str) :=
  match r with
  | Some (s, rest) => Some (c :: s, rest)
  | None => None
  end.

(** [scanstring], strict, from the character after the opening quote: the
    string and the text after the closing quote. *)
Fixpoint scanstring (s : str) : option (str * str) :=
  match s with
  | [] => None
  | c :: r =>
      if c =? 34 then Some ([], r)
      else if c =? 92 then
        match r with
        | [] => None
        | e :: r1 =>
            if e =? 117 then
              match r1 with
              | a :: b :: c' :: d :: r2 =>
                  match hex4 a b c' d with
                  | None => None
                  | Some u =>
                      if (0xD800 <=? u) && (u <=? 0xDBFF) then
                        match r2 with
                        | bs :: lu :: a2 :: b2 :: c2 :: d2 :: ((_ :: _) as r3) =>
                            if (bs =? 92) && (lu =? 117) then
                              match hex4 a2 b2 c2 d2 with
                              | None => None
                              | Some u2 =>
                                  if (0xDC00 <=? u2) && (u2 <=? 0xDFFF)
                                  then emit (0x10000 + (u - 0xD800) * 1024 + (u2 - 0xDC00))
                                            (scanstring r3)
                                  else emit u (scanstring r2)
                              end
                            else emit u (scanstring r2)
                        | _ => emit u (scanstring r2)
                        end
                      else emit u (scanstring r2)
                  end
              | _ => None
              end
            else
              match escape e with
              | Some ch => emit ch (scanstring r1)
              | None => None
              end
        end
      else if c <=? 0x1F then None
      else emit c (scanstring r)
  end.

(** The digits a text starts with, and what follows them. *)
Fixpoint span_digits (s : str) : str * str :=
  match s with
  | c :: r => if is_digit c then let '(d, rest) := span_digits r in (c :: d, rest) else ([], s)
  | [] => ([], [])
  end.

Definition decimal (d : str) : Z :=
  fold_left (fun acc c => (10 * acc + Z.of_N (c - 48))%Z) d 0%Z.

(** The optional fraction and exponent after the integer digits: the text
    they cover (empty when there is neither) and the rest. *)
Definition fraction (s : str) : str * str :=
  match s with
  | dot :: r =>
      if dot =? 46 then
        match span_digits r with
        | ([], _) => ([], s)
        | (d, rest) => (dot :: d, rest)
        end
      else ([], s)
  | [] => ([], s)
  end.

Definition exponent (s : str) : str * str :=
  match s with
  | e :: r =>
      if (e =? 101) || (e =? 69) then
        let '(sign, r1) :=
          match r with
          | g :: r' => if (g =? 45) || (g =? 43) then ([g], r') else ([], r)
          | [] => ([], r)
          end in
        match span_digits r1 with
        | ([], _) => ([], s)
        | (d, rest) => (e :: sign ++ d, rest)
        end
      else ([], s)
  | [] => ([], s)
  end.

(** A number: an [int] when there is neither fraction nor exponent. *)
Definition match_number (s : str) : scan value :=
  let '(sign, r) :=
    match s with
    | c :: r' => if c =? 45 then ([c], r') else ([], s)
    | [] => ([], s)
    end in
  match r with
  | c :: r' =>
      let int_part :=
        if (49 <=? c) && (c <=? 57) then let '(d, rest) := span_digits r' in Some (c :: d, rest)
        else if c =? 48 then Some ([c], r')
        else None in
      match int_part with
      | None => Malformed
      | Some (digits, r1) =>
          let '(frac, r2) := fraction r1 in
          let '(ex, r3) := exponent r2 in
          match frac ++ ex with
          | [] =>
              if (4300 <? length digits)%nat then TooLong
              else Found (VInt (match sign with [] => decimal digits | _ => (- decimal digits)%Z end)) r3
          | _ => Found (VFloat (sign ++ digits ++ frac ++ ex)) r3
          end
      end
  | [] => Malformed
  end.

(** [scan_once], [JSONObject] and [JSONArray]; the first argument bounds
    the number of calls and is never used up when it exceeds the length of
    the text. *)
Fixpoint scan_once (n : nat) (s : str) : option (scan value) :=
  match n with
  | O => None
  | S n' =>
      match s with
      | [] => Some Malformed
      | c :: r =>
          if c =? 34 then
            Some match scanstring r with
                 | Some (x, rest) => Found (VStr x) rest
                 | None => Malformed
                 end
          else if c =? 123 then
            match skip_ws r with
            | c1 :: r1 => if c1 =? 125 then Some (Found (VDict []) r1)
                          else members n' (skip_ws r) []
            | [] => Some Malformed
            end
          else if c =? 91 then
            match skip_ws r with
            | c1 :: r1 => if c1 =? 93 then Some (Found (VList []) r1)
                          else elements n' (skip_ws r) []
            | [] => Some Malformed
            end
          else if startswith s (lit "null") then Some (Found VNone (skipn 4 s))
          else if startswith s (lit "true") then Some (Found (VBool true) (skipn 4 s))
          else if startswith s (lit "false") then Some (Found (VBool false) (skipn 5 s))
          else if startswith s (lit "NaN") then Some (Found (VFloat (lit "NaN")) (skipn 3 s))
          else if startswith s (lit "Infinity")
          then Some (Found (VFloat (lit "Infinity")) (skipn 8 s))
          else if startswith s (lit "-Infinity")
          then Some (Found (VFloat (lit "-Infinity")) (skipn 9 s))
          else Some (match_number s)
      end
  end
with members (n : nat) (s : str) (acc : list (str * value)) : option (scan value) :=
  match n with
  | O => None
  | S n' =>
      match s with
      | q :: r =>
          if q =? 34 then
            match scanstring r with
            | None => Some Malformed
            | Some (key, r1) =>
                match skip_ws r1 with
                | colon :: r2 =>
                    if colon =? 58 then
                      match scan_once n' (skip_ws r2) with
                      | Some (Found v r3) =>
                          let acc' := dict_set acc key v in
                          match skip_ws r3 with
                          | c :: r4 =>
                              if c =? 125 then Some (Found (VDict acc') r4)
                              else if c =? 44 then members n' (skip_ws r4) acc'
                              else Some Malformed
                          | [] => Some Malformed
                          end
                      | other => other
                      end
                    else Some Malformed
                | [] => Some Malformed
                end
            end
          else Some Malformed
      | [] => Some Malformed
      end
  end
with elements (n : nat) (s : str) (acc : list value) : option (scan value) :=
  match n with
  | O => None
  | S n' =>
      match scan_once n' s with
      | Some (Found v r1) =>
          let acc' := acc ++ [v] in
          match skip_ws r1 with
          | c :: r2 =>
              if c =? 93 then Some (Found (VList acc') r2)
              else if c =? 44 then elements n' (skip_ws r2) acc'
              else Some Malformed
          | [] => Some Malformed
          end
      | other => other
      end
  end.

(** [json.loads(s)] for a [str]. *)
Definition loads (s : str) : outcome value :=
  if startswith s [0xFEFF] then Raise JSONDecodeError
  else
    match scan_once (2 * length s + 2) (skip_ws s) with
    | Some (Found v rest) =>
        match skip_ws rest with
        | [] => Return v
        | _ => Raise JSONDecodeError
        end
    | Some TooLong => Raise (Builtin ValueError)
    | Some Malformed | None => Raise JSONDecodeError
    end.

End Json.


(** ** The world: clock, entropy source and a journal of the operations of
    the hasher, the vault and the ledger, in program order *)

Module Eff.
Import Py.

Inductive Event : Type :=
  | ConsentAppended (user purpose : str) (granted : bool)
  | AccessLogged (user accessor : str)
  | Hashed (input : bytes)
  | Encrypted (plaintext : bytes).

Record World : Type := mkWorld {
  entropy : nat -> byte;     (* the bytes [secrets] will deliver *)
  drawn : nat;               (* how many were taken *)
  clock : nat -> Z;          (* the readings [datetime.now()] will give *)
  reads : nat;               (* how many were taken *)
  journal : list Event
}.

(** A method of an object with state [St]. *)
Definition M (St A : Type) : Type := St -> World -> outcome A * St * World.

Definition ret {St A} (a : A) : M St A := fun s w => (Return a, s, w).

Definition bind {St A B} (m : M St A) (k : A -> M St B) : M St B :=
  fun s w =>
    match m s w with
    | (Return a, s', w') => k a s' w'
    | (Raise e, s', w') => (Raise e, s', w')
    end.

Definition raise {St A} (e : exn) : M St A := fun s w => (Raise e, s, w).

Definition lift {St A} (o : outcome A) : M St A := fun s w => (o, s, w).

Definition get {St} : M St St := fun s w => (Return s, s, w).
Definition put {St} (s : St) : M St unit := fun _ w => (Return tt, s, w).
Definition modify {St} (f : St -> St) : M St unit := fun s w => (Return tt, f s, w).

(** Run a method of a component that the object holds in a field. *)
Definition zoom {St T A} (proj : St -> T) (upd : T -> St -> St) (m : M T A) : M St A :=
  fun s w =>
    match m (proj s) w with
    | (r, t, w') => (r, upd t s, w')
    end.

(** The reading the clock gives next, and the world after it. *)
Definition current (w : World) : Z := clock w (reads w).

Definition tick (w : World) : World :=
  mkWorld (entropy w) (drawn w) (clock w) (S (reads w)) (journal w).

(** The next [n] bytes of entropy, and the world after they are taken. *)
Definition fresh (n : nat) (w : World) : bytes :=
  List.map (fun i => entropy w (drawn w + i)%nat) (seq 0 n).

Definition draw (n : nat) (w : World) : World :=
  mkWorld (entropy w) (drawn w + n) (clock w) (reads w) (journal w).

Definition logged (e : Event) (w : World) : World :=
  mkWorld (entropy w) (drawn w) (clock w) (reads w) (journal w ++ [e]).

(** [datetime.now()] *)
Definition now {St} : M St Z := fun s w => (Return (current w), s, tick w).

(** [secrets.token_bytes(n)] *)
Definition token_bytes {St} (n : nat) : M St bytes :=
  fun s w => (Return (fresh n w), s, draw n w).

(** [secrets.token_hex(n)] *)
Definition token_hex {St} (n : nat) : M St str :=
  bind (token_bytes n) (fun b => ret (hex b)).

Definition log {St} (e : Event) : M St unit :=
  fun s w => (Return tt, s, logged e w).

Definition result {St A} (r : outcome A * St * World) : outcome A := fst (fst r).
Definition self {St A} (r : outcome A * St * World) : St := snd (fst r).
Definition world {St A} (r : outcome A * St * World) : World := snd r.

End Eff.

#[global] Instance M_ret {St} : MRet (Eff.M St) := fun A a => Eff.ret a.
#[global] Instance M_bind {St} : MBind (Eff.M St) := fun A B k m => Eff.bind m k.

(** ** Methods that may raise the exceptions of [Dyn] *)

Module DynM.
Import Py Eff.

Definition M (St A : Type) : Type := St -> World -> Dyn.outcome A * St * World.

Definition ret {St A} (a : A) : M St A := fun s w => (Dyn.Return a, s, w).

Definition bind {St A B} (m : M St A) (k : A -> M St B) : M St B :=
  fun s w =>
    match m s w with
    | (Dyn.Return a, s', w') => k a s' w'
    | (Dyn.Raise e, s', w') => (Dyn.Raise e, s', w')
    end.

Definition lift {St A} (o : Dyn.outcome A) : M St A := fun s w => (o, s, w).

(** A method of [Eff.M] run as one of these. *)
Definition up {St A} (m : Eff.M St A) : M St A :=
  fun s w =>
    match m s w with
    | (r, s', w') => (Dyn.up r, s', w')
    end.

Definition zoom {St T A} (proj : St -> T) (upd : T -> St -> St) (m : M T A) : M St A :=
  fun s w =>
    match m (proj s) w with
    | (r, t, w') => (r, upd t s, w')
    end.

Definition result {St A} (r : Dyn.outcome A * St * World) : Dyn.outcome A := fst (fst r).
Definition self {St A} (r : Dyn.outcome A * St * World) : St := snd (fst r).
Definition world {St A} (r : Dyn.outcome A * St * World) : World := snd r.

End DynM.

#[global] Instance DynM_ret {St} : MRet (DynM.M St) := fun A a => DynM.ret a.
#[global] Instance DynM_bind {St} : MBind (DynM.M St) := fun A B k m => DynM.bind m k.


(** ** carl_zkp_prototype.py: class SimpleZKP *)

Module SimpleZKP.
Import Py Eff.

(** The dict stored per session id. *)
Record Session : Type := mkSession {
  user_id : str;
  commitment : str;
  challenge : str;
  created_at : Z;
  expires_at : Z
}.

Record ZKPChallenge : Type := mkChallenge {
  ch_session_id : str;
  ch_commitment : str;
  ch_challenge : str;
  ch_created_at : Z;
  ch_expires_at : Z
}.

Record t : Type := mk { active_sessions : gmap str Session }.

Definition init : t := mk ∅.

Definition create_commitment {St} (secret : str) : M St (str * bytes) :=
  randomness ← token_bytes 32;
  s ← lift (encode secret);
  let commitment_input := s ++ randomness in
  ret (SHA256.hexdigest commitment_input, randomness).

Definition generate_proof (secret challenge : str) (randomness : bytes) : outcome str :=
  match encode secret with
  | Raise e => Raise e
  | Return s =>
      match encode challenge with
      | Raise e => Raise e
      | Return c => Return (SHA256.hexdigest (s ++ c ++ randomness))
      end
  end.

Definition create_challenge (user_id commitment : str) (ttl_seconds : Z)
  : M t ZKPChallenge :=
  session_id ← token_hex 16;
  challenge ← token_hex 32;
  now_ ← now;
  let expires_at := (now_ + Lib.timedelta_seconds ttl_seconds)%Z in
  modify (fun self =>
    mk (<[session_id := mkSession user_id commitment challenge now_ expires_at]>
          (active_sessions self)));;
  ret (mkChallenge session_id commitment challenge now_ expires_at).

Definition del_session (session_id : str) (self : t) : t :=
  mk (delete session_id (active_sessions self)).

Definition verify_proof (session_id proof secret : str) : M t bool :=
  self ← get;
  match active_sessions self !! session_id with
  | None => ret false
  | Some session =>
      now_ ← now;
      if (expires_at session <? now_)%Z then
        modify (del_session session_id);;
        ret false
      else
        s ← lift (encode secret);
        let expected_commitment_input := s ++ blit "randomness_placeholder" in
        c ← lift (encode (challenge session));
        let verification_input := s ++ c in
        let expected_proof_prefix := firstn 16 (SHA256.hexdigest verification_input) in
        let is_valid := startswith proof expected_proof_prefix in
        (if is_valid then modify (del_session session_id) else ret tt);;
        ret is_valid
  end.

Definition cleanup_expired_sessions : M t unit :=
  now_ ← now;
  modify (fun self =>
    mk (filter (fun kv => ¬ (expires_at (snd kv) < now_)%Z) (active_sessions self))).

Definition get_active_sessions_count (self : t) : nat := size (active_sessions self).

End SimpleZKP.

(** ** carl_security_zkp.py: class ZeroKnowledgeProof *)

Module ZeroKnowledgeProof.
Import Py Eff.

Record Session : Type := mkSession {
  user_id : str;
  commitment : str;
  salt : bytes;
  challenge : str;
  created_at : Z;
  expires_at : Z
}.

Record Proof : Type := mkProof {
  proof : str;
  proof_challenge : str;
  timestamp : str
}.

Record SessionInfo : Type := mkInfo {
  session_id : str;
  info_commitment : str;
  info_challenge : str;
  expires_in : Z
}.

Record t : Type := mk { proofs_cache : gmap str Session }.

Definition init : t := mk ∅.

Definition generate_commitment {St} (secret : str) (salt : option bytes)
  : M St (str * bytes) :=
  salt ← match salt with
          | None => token_bytes 32
          | Some s => ret s
          end;
  s ← lift (encode secret);
  let commitment_data := s ++ salt in
  ret (SHA256.hexdigest commitment_data, salt).

Definition verify_commitment {St} (secret : str) (salt : bytes) (commitment : str)
  : M St bool :=
  '(expected_commitment, _) ← generate_commitment secret (Some salt);
  lift (compare_digest expected_commitment commitment).

Definition create_challenge {St} : M St str := token_hex 32.

Definition generate_proof {St} (secret challenge : str) (salt : bytes) : M St Proof :=
  s ← lift (encode secret);
  c ← lift (encode challenge);
  let proof_data := s ++ c ++ salt in
  now_ ← now;
  ret (mkProof (SHA256.hexdigest proof_data) challenge (Lib.isoformat now_)).

Definition verify_proof {St} (commitment challenge proof_ secret : str) (salt : bytes)
  : M St bool :=
  ok ← verify_commitment secret salt commitment;
  if negb ok then ret false
  else
    expected_proof ← generate_proof secret challenge salt;
    lift (compare_digest (proof expected_proof) proof_).

Definition create_biometric_zkp_session (user_id biometric_hash : str)
  : M t SessionInfo :=
  '(commitment, salt) ← generate_commitment biometric_hash None;
  challenge ← create_challenge;
  session_id ← token_hex 16;
  created ← now;
  now_ ← now;
  modify (fun self =>
    mk (<[session_id := mkSession user_id commitment salt challenge created
                          (now_ + Lib.timedelta_minutes 5)%Z]> (proofs_cache self)));;
  ret (mkInfo session_id commitment challenge 300).

Definition del_session (session_id : str) (self : t) : t :=
  mk (delete session_id (proofs_cache self)).

Definition verify_biometric_zkp (session_id proof_ biometric_hash : str) : M t bool :=
  self ← get;
  match proofs_cache self !! session_id with
  | None => ret false
  | Some session =>
      now_ ← now;
      if (expires_at session <? now_)%Z then
        modify (del_session session_id);;
        ret false
      else
        is_valid ← verify_proof (commitment session) (challenge session) proof_
                                 biometric_hash (salt session);
        (if is_valid : bool then modify (del_session session_id) else ret tt);;
        ret is_valid
  end.

End ZeroKnowledgeProof.

(** ** carl_security_zkp.py: class AES256Encryption *)

Module AES256Encryption.
Import Py Eff.

Record t : Type := mk { master_key : bytes }.

(** [AES256Encryption(master_key)] *)
Definition init {St} (master_key : option bytes) : M St t :=
  match master_key with
  | None => k ← token_bytes 32; ret (mk k)
  | Some k => ret (mk k)
  end.

(** The dict returned by [encrypt]. *)
Record EncryptedBlob : Type := mkBlob {
  ciphertext : str;
  iv : str;
  tag : str;
  associated_data : option str
}.

Definition encrypt (plaintext : bytes) (associated_data : option bytes)
  : M t EncryptedBlob :=
  iv ← token_bytes 12;
  self ← get;
  if negb (AES.valid_key (master_key self)) then raise ValueError
  else
    let aad := if truthy associated_data then value_of associated_data else [] in
    let '(ciphertext, tag) :=
      GCM.seal (AES.encrypt_block (master_key self)) iv aad plaintext in
    log (Encrypted plaintext);;
    ret (mkBlob (Base64.b64encode ciphertext) (Base64.b64encode iv)
                (Base64.b64encode tag)
                (if truthy associated_data
                 then Some (Base64.b64encode (value_of associated_data))
                 else None)).

(** [modes.GCM(iv, tag)] and the set-up of the decryption context. *)
Definition check_gcm (iv tag : bytes) : outcome unit :=
  if ((length iv <? 8) || (128 <? length iv))%nat then Raise ValueError
  else if (length tag <? 16)%nat then Raise ValueError
  else if (16 <? length tag)%nat then Raise InternalError
  else Return tt.

Definition decrypt (encrypted_data : EncryptedBlob) : M t bytes :=
  ciphertext ← lift (Base64.b64decode (ciphertext encrypted_data));
  iv ← lift (Base64.b64decode (iv encrypted_data));
  tag ← lift (Base64.b64decode (tag encrypted_data));
  associated_data ←
    (if truthy (associated_data encrypted_data)
     then a ← lift (Base64.b64decode (value_of (associated_data encrypted_data)));
          ret (Some a)
     else ret None);
  self ← get;
  if negb (AES.valid_key (master_key self)) then raise ValueError
  else
    lift (check_gcm iv tag);;
    let aad := if truthy associated_data then value_of associated_data else [] in
    match GCM.open (AES.encrypt_block (master_key self)) iv aad ciphertext tag with
    | Some plaintext => ret plaintext
    | None => raise InvalidTag
    end.

End AES256Encryption.

(** ** carl_security_zkp.py: class BiometricProtection *)

Module BiometricProtection.
Import Py Eff.

Record t : Type := mk { encryptor : AES256Encryption.t }.

Definition init {St} : M St t :=
  e ← AES256Encryption.init None; ret (mk e).

Record Template : Type := mkTemplate {
  hash : str;
  salt : str;
  algorithm : str;
  created_at : str;
  version : str
}.

(** The template as the dict it is, in insertion order. *)
Definition items (tpl : Template) : list (str * str) :=
  [(lit "hash", hash tpl); (lit "salt", salt tpl); (lit "algorithm", algorithm tpl);
   (lit "created_at", created_at tpl); (lit "version", version tpl)].

Definition hash_biometric {St} (biometric_data : bytes) (salt : option bytes)
  : M St (str * bytes) :=
  salt ← match salt with
          | None => token_bytes 32
          | Some s => ret s
          end;
  log (Hashed (salt ++ biometric_data));;
  ret (SHA256.hexdigest (salt ++ biometric_data), salt).

Definition create_template {St} (biometric_data : bytes) : M St Template :=
  '(bio_hash, salt) ← hash_biometric biometric_data None;
  now_ ← now;
  ret (mkTemplate bio_hash (Base64.b64encode salt) (lit "SHA256")
                  (Lib.isoformat now_) (lit "1.0")).

Definition verify_biometric {St} (input_data : bytes) (stored_template : Template)
  : M St bool :=
  salt ← lift (Base64.b64decode (salt stored_template));
  '(input_hash, _) ← hash_biometric input_data (Some salt);
  lift (compare_digest input_hash (hash stored_template)).



(** [decrypt_biometric_template]: the vault's plaintext, decoded and
    parsed. *)
Definition decrypt_biometric_template (encrypted_template : AES256Encryption.EncryptedBlob)
  : DynM.M t Dyn.value :=
  decrypted ← DynM.up (zoom encryptor (fun e _ => mk e)
                         (AES256Encryption.decrypt encrypted_template));
  text ← DynM.lift (Dyn.decode decrypted);
  DynM.lift (Json.loads text).

(** [verify_biometric] on a stored template of any type, as
    [decrypt_biometric_template] returns it. *)
Definition verify_biometric_value {St} (input_data : bytes) (stored_template : Dyn.value)
  : DynM.M St bool :=
  salt_ ← DynM.lift (Dyn.getitem stored_template (lit "salt"));
  salt ← DynM.lift (Dyn.b64decode salt_);
  '(input_hash, _) ← DynM.up (hash_biometric input_data (Some salt));
  hash_ ← DynM.lift (Dyn.getitem stored_template (lit "hash"));
  DynM.lift (Dyn.compare_digest input_hash hash_).

End BiometricProtection.

(** ** carl_security_zkp.py: class GDPRCompliance *)

Module GDPRCompliance.
Import Py Eff.

Record GDPRConsent : Type := mkConsent {
  user_id : str;
  consent_given : bool;
  purpose : str;
  timestamp : Z;
  ip_address : option str;
  consent_text : option str
}.

Record DataAccessLog : Type := mkLog {
  log_user_id : str;
  accessed_by : str;
  access_type : str;
  data_category : str;
  log_timestamp : Z;
  log_purpose : str;
  legal_basis : str
}.

Record t : Type := mk {
  consents : gmap str (list GDPRConsent);
  access_logs : list DataAccessLog
}.

Definition init : t := mk ∅ [].

(** "Hozzájárulok adataim kezeléséhez a következő célból: " *)
Definition consent_prefix : str :=
  lit "Hozz" ++ [0xE1] ++ lit "j" ++ [0xE1] ++ lit "rulok adataim kezel" ++ [0xE9]
  ++ lit "s" ++ [0xE9] ++ lit "hez a k" ++ [0xF6] ++ lit "vetkez" ++ [0x151]
  ++ lit " c" ++ [0xE9] ++ lit "lb" ++ [0xF3] ++ lit "l: ".

Definition record_consent (user_id purpose : str) (consent_given : bool)
  (ip_address : option str) : M t GDPRConsent :=
  now_ ← now;
  let consent := mkConsent user_id consent_given purpose now_ ip_address
                           (Some (consent_prefix ++ purpose)) in
  modify (fun self =>
    match consents self !! user_id with
    | None => mk (<[user_id := []]> (consents self)) (access_logs self)
    | Some _ => self
    end);;
  modify (fun self =>
    mk (alter (fun l => l ++ [consent]) user_id (consents self)) (access_logs self));;
  log (ConsentAppended user_id purpose consent_given);;
  ret consent.

(** The loop over [reversed(user_consents)]. *)
Fixpoint first_for (purpose_ : str) (l : list GDPRConsent) : bool :=
  match l with
  | [] => false
  | consent :: r =>
      if str_eqb (purpose consent) purpose_ then consent_given consent
      else first_for purpose_ r
  end.

Definition check_consent (self : t) (user_id purpose : str) : bool :=
  match consents self !! user_id with
  | None => false
  | Some user_consents => first_for purpose (rev user_consents)
  end.

Definition log_data_access (user_id accessed_by access_type data_category
                            purpose legal_basis : str) : M t DataAccessLog :=
  now_ ← now;
  let entry := mkLog user_id accessed_by access_type data_category now_ purpose legal_basis in
  modify (fun self => mk (consents self) (access_logs self ++ [entry]));;
  log (AccessLogged user_id accessed_by);;
  ret entry.

Record ConsentExport : Type := mkConsentExport {
  ce_purpose : str;
  ce_consent_given : bool;
  ce_timestamp : str
}.

Record AccessExport : Type := mkAccessExport {
  ae_accessed_by : str;
  ae_access_type : str;
  ae_data_category : str;
  ae_timestamp : str
}.

Record Export : Type := mkExport {
  ex_user_id : str;
  export_date : str;
  ex_consents : list ConsentExport;
  ex_access_logs : list AccessExport;
  gdpr_notice : str
}.

Definition export_consent (c : GDPRConsent) : ConsentExport :=
  mkConsentExport (purpose c) (consent_given c) (Lib.isoformat (timestamp c)).

Definition export_access (l : DataAccessLog) : AccessExport :=
  mkAccessExport (accessed_by l) (access_type l) (data_category l)
                 (Lib.isoformat (log_timestamp l)).

(** "Ez az Ön személyes adatainak exportja a GDPR Article 20 alapján" *)
Definition notice : str :=
  lit "Ez az " ++ [0xD6] ++ lit "n szem" ++ [0xE9] ++ lit "lyes adatainak exportja a GDPR Article 20 alapj"
  ++ [0xE1] ++ lit "n".

Definition get_user_data_export (user_id : str) : M t Export :=
  self ← get;
  let consents_ :=
    List.map export_consent (default [] (consents self !! user_id)) in
  let access_logs_ :=
    List.map export_access
      (List.filter (fun l => str_eqb (log_user_id l) user_id) (access_logs self)) in
  now_ ← now;
  ret (mkExport user_id (Lib.isoformat now_) consents_ access_logs_ notice).

Record Erasure : Type := mkErasure {
  er_user_id : str;
  erased_at : str;
  reason : str;
  status : str
}.

Definition DELETED_USER : str := lit "DELETED_USER".

Definition anonymize (user_id : str) (l : DataAccessLog) : DataAccessLog :=
  if str_eqb (log_user_id l) user_id
  then mkLog DELETED_USER (accessed_by l) (access_type l) (data_category l)
             (log_timestamp l) (log_purpose l) (legal_basis l)
  else l.

Definition erase_user_data (user_id reason_ : str) : M t Erasure :=
  modify (fun self => mk (delete user_id (consents self)) (access_logs self));;
  modify (fun self => mk (consents self) (List.map (anonymize user_id) (access_logs self)));;
  now_ ← now;
  ret (mkErasure user_id (Lib.isoformat now_) reason_ (lit "completed")).

End GDPRCompliance.

(** ** carl_security_zkp.py: class CarlSecurityManager *)

Module CarlSecurityManager.
Import Py Eff.

Record t : Type := mk {
  zkp : ZeroKnowledgeProof.t;
  encryption : AES256Encryption.t;
  biometric : BiometricProtection.t;
  gdpr : GDPRCompliance.t
}.

Definition init {St} : M St t :=
  e ← AES256Encryption.init None;
  b ← BiometricProtection.init;
  ret (mk ZeroKnowledgeProof.init e b GDPRCompliance.init).

Definition set_biometric (b : BiometricProtection.t) (self : t) : t :=
  mk (zkp self) (encryption self) b (gdpr self).

Definition set_gdpr (g : GDPRCompliance.t) (self : t) : t :=
  mk (zkp self) (encryption self) (biometric self) g.




Definition secure_biometric_login (user_id : str) (input_biometric : bytes)
  (stored_encrypted_template : AES256Encryption.EncryptedBlob) : DynM.M t bool :=
  DynM.up (zoom gdpr set_gdpr
             (GDPRCompliance.log_data_access user_id (lit "CARL_AUTH_SYSTEM") (lit "READ")
                (lit "biometric_template") (lit "authentication")
                (lit "Contract (GDPR Art. 6(1)(b))")));;
  stored_template ←
    DynM.zoom biometric set_biometric
      (BiometricProtection.decrypt_biometric_template stored_encrypted_template);
  is_valid ← BiometricProtection.verify_biometric_value input_biometric stored_template;
  DynM.ret is_valid.

End CarlSecurityManager.

(** ** carl_ai_core.py: class CARLCognitiveEngine *)

Module CARLCognitiveEngine.
Import Py Eff.

Record UserProfile : Type := mkProfile {
  user_id : str;
  voice_signature : option str;
  face_template : option str;
  content_rights : gmap str bool;
  consent_given : bool
}.

Record t : Type := mk {
  version : str;
  models_loaded : bool;
  user_registry : gmap str UserProfile
}.

Definition init : t := mk (lit "0.1.0-beta") true ∅.

Definition _generate_voice_fingerprint (audio_data : bytes) : str :=
  SHA256.hexdigest audio_data.

Definition _generate_face_template (image_data : bytes) : str :=
  SHA256.hexdigest image_data.

Definition with_voice (h : str) (p : UserProfile) : UserProfile :=
  mkProfile (user_id p) (Some h) (face_template p)
            (<[lit "voice" := true]> (content_rights p)) (consent_given p).

Definition with_face (h : str) (p : UserProfile) : UserProfile :=
  mkProfile (user_id p) (voice_signature p) (Some h)
            (<[lit "face" := true]> (content_rights p)) (consent_given p).

Definition register_user_biometrics (user_id : str)
  (voice_sample face_image : option bytes) (consent : bool) : M t UserProfile :=
  if negb consent then raise ValueError
  else
    let profile :=
      mkProfile user_id None None
                (<[lit "face" := false]> (<[lit "voice" := false]> ∅)) consent in
    let profile :=
      if truthy voice_sample
      then with_voice (_generate_voice_fingerprint (value_of voice_sample)) profile
      else profile in
    let profile :=
      if truthy face_image
      then with_face (_generate_face_template (value_of face_image)) profile
      else profile in
    modify (fun self =>
      mk (version self) (models_loaded self) (<[user_id := profile]> (user_registry self)));;
    ret profile.


(** [ContentType] and [ThreatLevel] *)
Inductive ContentType : Type := TEXT | IMAGE | VIDEO | AUDIO | MIXED.

Inductive ThreatLevel : Type := SAFE | SUSPICIOUS | HARMFUL | ILLEGAL.

Definition threat_value (l : ThreatLevel) : str :=
  match l with
  | SAFE => lit "safe"
  | SUSPICIOUS => lit "suspicious"
  | HARMFUL => lit "harmful"
  | ILLEGAL => lit "illegal"
  end.

Record Details : Type := mkDetails {
  analyzed_by : str;
  gdpr_compliant : bool
}.

Record AnalysisResult : Type := mkResult {
  content_id : str;
  content_type : ContentType;
  is_synthetic : bool;
  confidence : PrimFloat.float;
  threat_level : ThreatLevel;
  flags : list str;
  timestamp : Z;
  details : Details
}.

(** The float literals of the module. *)
Module Literal.
Import PrimFloat.
#[warnings="-inexact-float"]
Definition f0_95 : float := 0.95%float.
#[warnings="-inexact-float"]
Definition f0_88 : float := 0.88%float.
#[warnings="-inexact-float"]
Definition f0_92 : float := 0.92%float.
#[warnings="-inexact-float"]
Definition f0_15 : float := 0.15%float.
Definition f0_0 : float := 0%float.
End Literal.
Import Literal.

Definition detect_deepfake_audio (audio_data : bytes) (claimed_user_id : option str)
  : M t (bool * PrimFloat.float) :=
  self ← get;
  let is_synthetic := false in
  let confidence := f0_95 in
  if truthy claimed_user_id then
    match user_registry self !! value_of claimed_user_id with
    | Some profile =>
        let stored_print := voice_signature profile in
        let current_print := _generate_voice_fingerprint audio_data in
        if negb (bool_decide (stored_print = Some current_print))
        then ret (true, f0_88)
        else ret (is_synthetic, confidence)
    | None => ret (is_synthetic, confidence)
    end
  else ret (is_synthetic, confidence).

Definition detect_deepfake_video (video_data : bytes) (claimed_user_id : option str)
  : M t (bool * PrimFloat.float) :=
  ret (false, f0_92).

(** "linkbio", "swipe up", "kód:", "kedvezmény", "együttműködés",
    "szponzor nélkül" *)
Definition suspicious_patterns : list str :=
  [lit "linkbio"; lit "swipe up"; lit "k" ++ [0xF3] ++ lit "d:";
   lit "kedvezm" ++ [0xE9] ++ lit "ny";
   lit "egy" ++ [0xFC] ++ lit "ttm" ++ [0x171] ++ lit "k" ++ [0xF6] ++ lit "d" ++ [0xE9] ++ lit "s";
   lit "szponzor n" ++ [0xE9] ++ lit "lk" ++ [0xFC] ++ lit "l"].

Definition _detect_hidden_advertisement (text : str) : bool :=
  let text_lower := Unicode.lower text in
  existsb (fun pattern => Unicode.contains text_lower pattern) suspicious_patterns.

Definition _detect_misinformation (text : str) : bool := false.

Definition _check_copyright_violation (text : str) (media : option bytes) : bool := false.

Definition analyze_social_content (content : str) (content_type : ContentType)
  (media_data : option bytes) : M t AnalysisResult :=
  encoded ← lift (encode content);
  let content_id := MD5.hexdigest encoded in
  let flags : list str := [] in
  let threat_level := SAFE in
  let is_synthetic := false in
  let confidence := f0_0 in
  let '(flags, threat_level) :=
    if _detect_hidden_advertisement content
    then (flags ++ [lit "REJTETT_REKLAM"], SUSPICIOUS)
    else (flags, threat_level) in
  let '(flags, threat_level) :=
    if _detect_misinformation content
    then (flags ++ [lit "DEZINFORMACIO"], HARMFUL)
    else (flags, threat_level) in
  '(is_synthetic, confidence, flags) ←
    (if truthy media_data then
       '(is_synthetic, confidence) ←
         match content_type with
         | AUDIO => detect_deepfake_audio (value_of media_data) None
         | VIDEO => detect_deepfake_video (value_of media_data) None
         | _ => ret (is_synthetic, confidence)
         end;
       ret (is_synthetic, confidence,
            if is_synthetic : bool then flags ++ [lit "AI_GENERALT"] else flags)
     else ret (is_synthetic, confidence, flags));
  let copyright_violation := _check_copyright_violation content media_data in
  let '(flags, threat_level) :=
    if copyright_violation
    then (flags ++ [lit "SZERZOI_JOG_SERTES"], ILLEGAL)
    else (flags, threat_level) in
  now_ ← now;
  self ← get;
  ret (mkResult content_id content_type is_synthetic confidence threat_level flags now_
                (mkDetails (lit "CARL v" ++ version self) true)).

(** The second component of the result of [check_usage_permission]. *)
Inductive Terms : Type :=
  | TermsError (error : str)
  | License (license_active : bool) (royalty_rate : PrimFloat.float) (terms : str).

Definition check_usage_permission (content_creator_id user_id usage_type : str)
  : M t (bool * option Terms) :=
  self ← get;
  match user_registry self !! user_id with
  | None => ret (false, Some (TermsError (lit "User not registered")))
  | Some user =>
      if negb (default false (content_rights user !! usage_type))
      then ret (false, Some (TermsError (lit "No " ++ usage_type ++ lit " rights granted")))
      else ret (true, Some (License true f0_15 (lit "zero_knowledge_proof")))
  end.

(** The dict returned by [generate_integrity_report]. *)
Inductive Report : Type :=
  | ReportError (error : str)
  | IntegrityReport (user_id : str) (voice_protected face_protected consent_status : bool)
      (content_rights : gmap str bool) (report_generated : str).

Definition generate_integrity_report (user_id : str) : M t Report :=
  self ← get;
  match user_registry self !! user_id with
  | None => ret (ReportError (lit "User not found"))
  | Some user =>
      now_ ← now;
      ret (IntegrityReport user_id
             (bool_decide (voice_signature user <> None))
             (bool_decide (face_template user <> None))
             (consent_given user) (content_rights user) (Lib.isoformat now_))
  end.

End CARLCognitiveEngine.

(** ** Concrete worlds and ledgers used in the examples *)

Module Scenario.
Import Py Eff.

(** 2024-01-01T00:00:00 *)
Definition t0 : Z := 63839664000000000.

(** The clock advances by one second per reading; the entropy source
    delivers the bytes 3, 10, 17, ... *)
Definition w0 : World :=
  mkWorld (fun i => byte_of_N (N.of_nat (7 * i + 3))) 0
          (fun i => (t0 + 1000000 * Z.of_nat i)%Z) 0 [].

Definition u1 : str := lit "HU-12345678".
Definition u2 : str := lit "HU-87654321".

(** A ledger with one consent and one logged access of [u1]. *)
Definition ledger1 : outcome GDPRCompliance.DataAccessLog * GDPRCompliance.t * World :=
  (GDPRCompliance.record_consent u1 (lit "biometric_authentication") true None;;
   GDPRCompliance.log_data_access u1 (lit "CARL_AUTH_SYSTEM") (lit "READ")
     (lit "biometric_template") (lit "authentication")
     (lit "Contract (GDPR Art. 6(1)(b))")) GDPRCompliance.init w0.

(** Consent given, then withdrawn. *)
Definition ledger2 : outcome GDPRCompliance.GDPRConsent * GDPRCompliance.t * World :=
  (GDPRCompliance.record_consent u1 (lit "marketing") true None;;
   GDPRCompliance.record_consent u1 (lit "marketing") false None) GDPRCompliance.init w0.

(** A ledger where a user is registered under the placeholder id. *)
Definition ledger3 : outcome GDPRCompliance.DataAccessLog * GDPRCompliance.t * World :=
  GDPRCompliance.log_data_access GDPRCompliance.DELETED_USER (lit "CARL_AUTH_SYSTEM")
    (lit "READ") (lit "biometric_template") (lit "authentication")
    (lit "Contract (GDPR Art. 6(1)(b))") GDPRCompliance.init w0.

(** The run of [demo_zkp_flow] in carl_zkp_prototype.py. *)
Definition demo_zkp_flow : M SimpleZKP.t bool :=
  let BIOMETRIC_SECRET := SHA256.hexdigest (blit "user_biometric_fingerprint_data") in
  let USER_ID := lit "HU-12345678" in
  '(commitment, randomness) ← SimpleZKP.create_commitment BIOMETRIC_SECRET;
  challenge_obj ← SimpleZKP.create_challenge USER_ID commitment 300;
  proof ← lift (SimpleZKP.generate_proof BIOMETRIC_SECRET
                  (SimpleZKP.ch_challenge challenge_obj) randomness);
  SimpleZKP.verify_proof (SimpleZKP.ch_session_id challenge_obj) proof BIOMETRIC_SECRET.

(** The possession handshake for a secret [K], run honestly, followed by a
    second submission of the same proof. *)
Definition possession_handshake (K : str) : M SimpleZKP.t (bool * bool) :=
  '(commitment, randomness) ← SimpleZKP.create_commitment K;
  session ← SimpleZKP.create_challenge (lit "U2") commitment 300;
  proof ← lift (SimpleZKP.generate_proof K (SimpleZKP.ch_challenge session) randomness);
  first ← SimpleZKP.verify_proof (SimpleZKP.ch_session_id session) proof K;
  second ← SimpleZKP.verify_proof (SimpleZKP.ch_session_id session) proof K;
  ret (first, second).

Definition secret0 : str := SHA256.hexdigest (blit "user_biometric_fingerprint_data").

(** A rejected proof followed by the right one, on one session of
    [ZeroKnowledgeProof]; the prover reads the salt from the cache, as the
    demo of carl_security_zkp.py does. *)
Definition retry_biometric : M ZeroKnowledgeProof.t (bool * bool) :=
  session ← ZeroKnowledgeProof.create_biometric_zkp_session u1 secret0;
  self ← get;
  let salt := default [] (ZeroKnowledgeProof.salt <$>
                ZeroKnowledgeProof.proofs_cache self !! ZeroKnowledgeProof.session_id session) in
  proof_data ← ZeroKnowledgeProof.generate_proof secret0
                 (ZeroKnowledgeProof.info_challenge session) salt;
  first ← ZeroKnowledgeProof.verify_biometric_zkp
            (ZeroKnowledgeProof.session_id session) (lit "00") secret0;
  second ← ZeroKnowledgeProof.verify_biometric_zkp
             (ZeroKnowledgeProof.session_id session)
             (ZeroKnowledgeProof.proof proof_data) secret0;
  ret (first, second).

(** The same on a session of [SimpleZKP]; the second proof is the digest
    the verifier compares against. *)
Definition retry_prototype : M SimpleZKP.t (bool * bool) :=
  '(commitment, randomness) ← SimpleZKP.create_commitment secret0;
  session ← SimpleZKP.create_challenge u1 commitment 300;
  s ← lift (encode secret0);
  c ← lift (encode (SimpleZKP.ch_challenge session));
  first ← SimpleZKP.verify_proof (SimpleZKP.ch_session_id session) (lit "00") secret0;
  second ← SimpleZKP.verify_proof (SimpleZKP.ch_session_id session)
             (SHA256.hexdigest (s ++ c)) secret0;
  ret (first, second).

(** A world long after [w0]: every reading of the clock is a year later. *)
Definition late : World :=
  mkWorld (entropy w0) 200 (fun _ => (t0 + 31536000000000)%Z) 0 [].

(** A session of each implementation, opened in [w0]. *)
Definition opened : outcome SimpleZKP.ZKPChallenge * SimpleZKP.t * World :=
  SimpleZKP.create_challenge u1 (SHA256.hexdigest (blit "commitment")) 300
    SimpleZKP.init w0.

Definition opened_id : str :=
  default [] (SimpleZKP.ch_session_id <$> returned (Eff.result opened)).

(** The digest [SimpleZKP.verify_proof] compares with for [secret0]. *)
Definition opened_digest : str :=
  SHA256.hexdigest
    (default [] (returned (encode secret0))
     ++ default [] (returned (encode
          (default [] (SimpleZKP.ch_challenge <$> returned (Eff.result opened)))))).

Definition opened_biometric
  : outcome ZeroKnowledgeProof.SessionInfo * ZeroKnowledgeProof.t * World :=
  ZeroKnowledgeProof.create_biometric_zkp_session u1 secret0 ZeroKnowledgeProof.init w0.

Definition biometric_id : str :=
  default [] (ZeroKnowledgeProof.session_id <$> returned (Eff.result opened_biometric)).

(** The proof an honest prover computes for [opened_biometric]. *)
Definition biometric_proof : str :=
  match ZeroKnowledgeProof.proofs_cache (Eff.self opened_biometric) !! biometric_id with
  | Some session =>
      default []
        (ZeroKnowledgeProof.proof <$>
           returned (Eff.result
             (ZeroKnowledgeProof.generate_proof secret0
                (ZeroKnowledgeProof.challenge session) (ZeroKnowledgeProof.salt session)
                tt w0)))
  | None => []
  end.

(** A vault with a key drawn from [w0], and a manager built in [w0]. *)
Definition vault : AES256Encryption.t := AES256Encryption.mk (fresh 32 w0).


(** The world once the manager is built. *)
Definition w1 : World := Eff.world (CarlSecurityManager.init tt w0).

(** A blob sealed by [vault], and the same blob with one bit of one
    character of a field changed. *)
Definition sealed : outcome AES256Encryption.EncryptedBlob * AES256Encryption.t * World :=
  AES256Encryption.encrypt (blit "voice template") (Some (blit "CARL_BIOMETRIC_TEMPLATE"))
    vault w1.

Definition sealed_blob : AES256Encryption.EncryptedBlob :=
  default (AES256Encryption.mkBlob [] [] [] None) (returned (Eff.result sealed)).

End Scenario.

(** ** Auxiliary definitions used in the statements *)

Module Model.
Import Py Eff.

(** [s] with bit [k] of the character at index [i] flipped. *)
Definition flip_bit (i : nat) (k : N) (s : str) : str :=
  match s !! i with
  | Some c => <[i := N.lxor c (N.shiftl 1 k)]> s
  | None => s
  end.

Definition with_tag (t : str) (b : AES256Encryption.EncryptedBlob)
  : AES256Encryption.EncryptedBlob :=
  AES256Encryption.mkBlob (AES256Encryption.ciphertext b) (AES256Encryption.iv b) t
    (AES256Encryption.associated_data b).

Definition with_ciphertext (c : str) (b : AES256Encryption.EncryptedBlob)
  : AES256Encryption.EncryptedBlob :=
  AES256Encryption.mkBlob c (AES256Encryption.iv b) (AES256Encryption.tag b)
    (AES256Encryption.associated_data b).

(** The associated data [decrypt] authenticates for a blob. *)
Definition decoded_aad (b : AES256Encryption.EncryptedBlob) : outcome bytes :=
  if truthy (AES256Encryption.associated_data b)
  then Base64.b64decode (value_of (AES256Encryption.associated_data b))
  else Return [].




(** The block a byte string starts with, padded with zeros. *)
Definition head_block (b : bytes) : bytes := firstn 16 (firstn 16 b ++ repeat x00 16).

(** The byte values, for checks by enumeration. *)
Definition all256 : list N := List.map N.of_nat (seq 0 256).

(** The sextets of a group of three bytes. *)
Definition s1 (a : N) : N := N.shiftr a 2.
Definition s2 (a b : N) : N := N.lor (N.shiftl (N.land a 3) 4) (N.shiftr b 4).
Definition s3 (b c : N) : N := N.lor (N.shiftl (N.land b 15) 2) (N.shiftr c 6).
Definition s4 (c : N) : N := N.land c 63.

Definition quad_ok (v : N) : bool :=
  negb (Base64.b64char v =? Base64.pad_char)
  && match Base64.b64val (Base64.b64char v) with Some v' => v' =? v | None => false end.

(** What the decoder rebuilds from the sextets of two neighbouring bytes. *)
Definition group_ok (a b : N) : bool :=
  (s1 a <? 64) && (s2 a b <? 64) && (s3 a b <? 64) && (s4 b <? 64)
  && (N.shiftl (N.land a 3) 4 <? 64)
  && (N.shiftl (N.land a 15) 2 <? 64)
  && (N.lor (N.shiftl (s1 a) 2) (N.shiftr (s2 a b) 4) =? a)
  && (N.lor (N.shiftl (s1 a) 2) (N.shiftr (N.shiftl (N.land a 3) 4) 4) =? a)
  && (N.land (s2 a b) 15 =? N.shiftr b 4)
  && (N.shiftr (s3 a b) 2 =? N.land a 15)
  && (N.shiftr (N.shiftl (N.land a 15) 2) 2 =? N.land a 15)
  && (N.lor (N.shiftl (N.shiftr a 4) 4) (N.land a 15) =? a)
  && (N.lor (N.shiftl (N.land (s3 a b) 3) 6) (s4 b) =? b).

(** The blob with its associated-data field replaced. *)
Definition with_associated_data (a : option str) (b : AES256Encryption.EncryptedBlob)
  : AES256Encryption.EncryptedBlob :=
  AES256Encryption.mkBlob (AES256Encryption.ciphertext b) (AES256Encryption.iv b)
    (AES256Encryption.tag b) a.

(** The engines that calls of [register_user_biometrics] build from the
    initial one. *)
Inductive registered : CARLCognitiveEngine.t -> Prop :=
  | registered_init : registered CARLCognitiveEngine.init
  | registered_step (self : CARLCognitiveEngine.t) (w : World) (user_id : str)
      (voice_sample face_image : option bytes) (consent : bool) :
      registered self ->
      registered (Eff.self (CARLCognitiveEngine.register_user_biometrics
                              user_id voice_sample face_image consent self w)).

(** The profile that a registration with consent files. *)
Definition filed (u : str) (voice face : option bytes) : CARLCognitiveEngine.UserProfile :=
  let p := CARLCognitiveEngine.mkProfile u None None (<[lit "face" := false]> (<[lit "voice" := false]> ∅)) true in
  let p := if truthy voice then CARLCognitiveEngine.with_voice (SHA256.hexdigest (value_of voice)) p else p in
  if truthy face then CARLCognitiveEngine.with_face (SHA256.hexdigest (value_of face)) p else p.

(** A profile as [register_user_biometrics] leaves it: filed under its own
    id, with consent, and with the right to a voice or a face exactly when
    the signature is there. *)
Definition well_formed (k : str) (p : CARLCognitiveEngine.UserProfile) : Prop :=
  CARLCognitiveEngine.user_id p = k
  /\ CARLCognitiveEngine.consent_given p = true
  /\ CARLCognitiveEngine.content_rights p !! lit "voice"
     = Some (bool_decide (CARLCognitiveEngine.voice_signature p <> None))
  /\ CARLCognitiveEngine.content_rights p !! lit "face"
     = Some (bool_decide (CARLCognitiveEngine.face_template p <> None))
  /\ (forall usage, usage <> lit "voice" -> usage <> lit "face" ->
        CARLCognitiveEngine.content_rights p !! usage = None).

(** Lower case within ASCII. *)
Definition ascii_lower (c : N) : N := if (65 <=? c) && (c <=? 90) then c + 32 else c.

(** Characters that [json.dumps] writes as they are and [json.loads] reads
    as they are: printable ASCII other than the quote and the backslash. *)
Definition printable (c : N) : bool :=
  (32 <=? c) && (c <=? 126) && negb (c =? 34) && negb (c =? 92).

(** A dict of strings as the value [json.loads] builds for it. *)
Definition dict_value (d : list (str * str)) : Dyn.value :=
  Dyn.VDict (fold_left (fun acc kv => Dyn.dict_set acc (fst kv) (Dyn.VStr (snd kv))) d []).

(** A template as the value [json.loads] builds for its JSON text. *)
Definition template_value (tpl : BiometricProtection.Template) : Dyn.value :=
  dict_value (BiometricProtection.items tpl).

End Model.

(** * Properties *)

#[local] Arguments SHA256.hexdigest : simpl never.
#[local] Arguments Lib.isoformat : simpl never.
#[local] Arguments Py.encode : simpl never.
#[local] Arguments Base64.b64encode : simpl never.
#[local] Arguments Base64.b64decode : simpl never.
#[local] Arguments Py.lit : simpl never.
#[local] Arguments Py.blit : simpl never.
#[local] Arguments GDPRCompliance.consent_prefix : simpl never.
#[local] Arguments GDPRCompliance.notice : simpl never.
#[local] Arguments GDPRCompliance.DELETED_USER : simpl never.

(** Unfold the plumbing of the method monad. *)
Ltac eff :=
  unfold mbind, mret, M_bind, M_ret, Eff.bind, Eff.ret, Eff.raise, Eff.lift,
    Eff.get, Eff.put, Eff.modify, Eff.zoom, Eff.now, Eff.log, Eff.token_hex,
    Eff.token_bytes, Eff.result, Eff.self, Eff.world in *;
  cbn [fst snd] in *.

(** ** The consent and access ledger *)

Section Ledger.
Import Py Eff GDPRCompliance.

Lemma str_eqb_eq (a b : str) : str_eqb a b = true <-> a = b.
Proof. unfold str_eqb. apply bool_decide_eq_true. Qed.

Lemma str_eqb_refl (a : str) : str_eqb a a = true.
Proof. by apply str_eqb_eq. Qed.

Lemma str_eqb_neq (a b : str) : a <> b -> str_eqb a b = false.
Proof. intros H. unfold str_eqb. by apply bool_decide_eq_false. Qed.

Lemma record_consent_self self w u p g ip :
  Eff.self (record_consent u p g ip self w) =
  mk (<[u := default [] (consents self !! u)
             ++ [mkConsent u g p (current w) ip (Some (consent_prefix ++ p))]]>
        (consents self))
     (access_logs self).
Proof.
  unfold record_consent. eff.
  destruct (consents self !! u) as [l|] eqn:E; cbn; f_equal;
    apply map_eq; intros k; destruct (decide (u = k)) as [->|].
  - by rewrite lookup_alter_eq, lookup_insert_eq, E.
  - by rewrite lookup_alter_ne, lookup_insert_ne.
  - by rewrite lookup_alter_eq, !lookup_insert_eq.
  - by rewrite lookup_alter_ne, !lookup_insert_ne.
Qed.

Lemma first_for_rev_app p older c newer :
  purpose c = p ->
  (forall c', In c' newer -> purpose c' <> p) ->
  first_for p (rev (older ++ c :: newer)) = consent_given c.
Proof.
  intros Hc Hn. rewrite rev_app_distr. cbn [rev]. rewrite <- app_assoc. cbn [app].
  induction newer as [|d newer IH] using rev_ind.
  - cbn. by rewrite Hc, str_eqb_refl.
  - rewrite rev_app_distr. cbn.
    rewrite str_eqb_neq by (apply Hn, in_or_app; right; by left).
    apply IH. intros c' Hin. apply Hn, in_or_app. by left.
Qed.

Lemma first_for_none p l :
  (forall c, In c l -> purpose c <> p) -> first_for p l = false.
Proof.
  induction l as [|c l IH]; [done|]. intros H. cbn.
  rewrite str_eqb_neq by (apply H; by left).
  apply IH. intros c' Hin. apply H. by right.
Qed.

(** A consent just recorded is what [check_consent] answers. *)
Lemma check_consent_after_record self w u p g ip :
  check_consent (Eff.self (record_consent u p g ip self w)) u p = g.
Proof.
  rewrite record_consent_self. unfold check_consent. cbn.
  rewrite lookup_insert_eq.
  rewrite (first_for_rev_app p (default [] (consents self !! u)) _ []); done.
Qed.

(** C7. [check_consent] answers with the [consent_given] of the last record
    appended for the user and purpose, whatever the older records say, and
    with [false] when the user has no record for the purpose. *)
Theorem check_consent_most_recent (self : t) (u p : str) :
  (forall w g ip, check_consent (Eff.self (record_consent u p g ip self w)) u p = g)
  /\ (forall older c newer,
        consents self !! u = Some (older ++ c :: newer) ->
        purpose c = p ->
        (forall c', In c' newer -> purpose c' <> p) ->
        check_consent self u p = consent_given c)
  /\ ((forall l c, consents self !! u = Some l -> In c l -> purpose c <> p) ->
      check_consent self u p = false).
Proof.
  split; [|split].
  - intros w g ip. apply check_consent_after_record.
  - intros older c newer E Hc Hn. unfold check_consent. rewrite E.
    by apply first_for_rev_app.
  - intros H. unfold check_consent.
    destruct (consents self !! u) as [l|] eqn:E; [|done].
    apply first_for_none. intros c Hin. rewrite <- in_rev in Hin. by eapply H.
Qed.

End Ledger.

Section LedgerErasure.
Import Py Eff GDPRCompliance.

Lemma lookup_map {A B} (f : A -> B) (l : list A) (i : nat) :
  List.map f l !! i = f <$> l !! i.
Proof. revert i. induction l as [|x l IH]; intros [|i]; cbn; auto. Qed.

Lemma erase_user_data_self self w u r :
  Eff.self (erase_user_data u r self w) =
  mk (delete u (consents self)) (List.map (anonymize u) (access_logs self)).
Proof. reflexivity. Qed.

Lemma get_user_data_export_result self w u :
  Eff.result (get_user_data_export u self w) =
  Return (mkExport u (Lib.isoformat (current w))
            (List.map export_consent (default [] (consents self !! u)))
            (List.map export_access
               (List.filter (fun l => str_eqb (log_user_id l) u) (access_logs self)))
            notice).
Proof. reflexivity. Qed.

Lemma export_access_anonymize u l : export_access (anonymize u l) = export_access l.
Proof. unfold anonymize. by destruct (str_eqb (log_user_id l) u). Qed.

Lemma anonymize_id u l :
  log_user_id (anonymize u l) = if str_eqb (log_user_id l) u then DELETED_USER else log_user_id l.
Proof. unfold anonymize. by destruct (str_eqb (log_user_id l) u). Qed.

(** Selecting by a test on the id that accepts the placeholder, after an
    erasure, selects what the test or the erased id selected before. *)
Lemma filter_anonymize (q : str -> bool) u (L : list DataAccessLog) :
  q DELETED_USER = true ->
  List.map export_access (List.filter (fun l => q (log_user_id l)) (List.map (anonymize u) L)) =
  List.map export_access
    (List.filter (fun l => str_eqb (log_user_id l) u || q (log_user_id l)) L).
Proof.
  intros Hq. induction L as [|l L IH]; [done|].
  cbn [List.map List.filter]. rewrite anonymize_id.
  destruct (str_eqb (log_user_id l) u) eqn:E; cbn [orb].
  - rewrite Hq. cbn [List.map]. by rewrite IH, export_access_anonymize.
  - destruct (q (log_user_id l)); cbn [List.map]; by rewrite IH, ?export_access_anonymize.
Qed.

Lemma filter_anonymize_none u (L : list DataAccessLog) :
  u <> DELETED_USER ->
  List.filter (fun l => str_eqb (log_user_id l) u) (List.map (anonymize u) L) = [].
Proof.
  intros Hu. induction L as [|l L IH]; [done|].
  cbn [List.map List.filter]. rewrite anonymize_id.
  destruct (str_eqb (log_user_id l) u) eqn:E.
  - by rewrite str_eqb_neq.
  - by rewrite E.
Qed.

(** C6 (as the code has it). After [erase_user_data], the export of the user
    has no consents and, unless the user id is the placeholder itself, no
    access-log entries; the ledger keeps every entry, those of the user
    under the placeholder id, and holds as many entries as before. *)
Theorem erase_then_export (self : t) (u reason : str) (w w' : World) :
  let st' := Eff.self (erase_user_data u reason self w) in
  length (access_logs st') = length (access_logs self)
  /\ access_logs st' = List.map (anonymize u) (access_logs self)
  /\ exists e, Eff.result (get_user_data_export u st' w') = Return e
       /\ ex_consents e = []
       /\ (u <> DELETED_USER -> ex_access_logs e = []).
Proof.
  cbn zeta. rewrite erase_user_data_self. cbn [access_logs consents].
  split; [by rewrite length_map | split; [done|]].
  eexists. split; [apply get_user_data_export_result|].
  cbn [ex_consents ex_access_logs consents access_logs]. split.
  - by rewrite lookup_delete_eq.
  - intros Hu. by rewrite filter_anonymize_none.
Qed.

(** C6, counterexample: the export after erasure does not return the
    user's former entries. *)
Lemma erase_then_export_counterexample :
  let st := Eff.self Scenario.ledger1 in
  let w := Eff.world Scenario.ledger1 in
  let r := erase_user_data Scenario.u1 (lit "User requested data deletion") st w in
  ex_access_logs <$>
    returned (Eff.result (get_user_data_export Scenario.u1 (Eff.self r) (Eff.world r)))
  <> Some (List.map export_access
             (List.filter (fun l => str_eqb (log_user_id l) Scenario.u1) (access_logs st))).
Proof. vm_compute. discriminate. Qed.

Lemma erase_then_export_witness :
  let st := Eff.self Scenario.ledger1 in
  let w := Eff.world Scenario.ledger1 in
  let st' := Eff.self (erase_user_data Scenario.u1 (lit "request") st w) in
  length (access_logs st') = 1%nat
  /\ exists e, Eff.result (get_user_data_export Scenario.u1 st' w) = Return e
       /\ ex_consents e = [] /\ ex_access_logs e = [].
Proof.
  cbn zeta.
  destruct (erase_then_export (Eff.self Scenario.ledger1) Scenario.u1 (lit "request")
              (Eff.world Scenario.ledger1) (Eff.world Scenario.ledger1))
    as (Hlen & _ & e & He & Hc & Ha).
  split; [exact Hlen|].
  exists e. split; [exact He|]. split; [exact Hc|].
  apply Ha. vm_compute. discriminate.
Defined.

(** C9 (as the code has it). After [erase_user_data u], every entry that
    belonged to [u] carries the id "DELETED_USER"; unless [u] is that id,
    the export of [u] selects no entry; entries of two erased users carry
    the same id; and the export of "DELETED_USER" returns the entries of
    both erased users together with those already under that id. *)
Theorem erase_placeholder (self : t) (u reason : str) (w : World) :
  let st' := Eff.self (erase_user_data u reason self w) in
  (forall i l, access_logs self !! i = Some l -> log_user_id l = u ->
     access_logs st' !! i =
     Some (mkLog DELETED_USER (accessed_by l) (access_type l) (data_category l)
                 (log_timestamp l) (log_purpose l) (legal_basis l)))
  /\ (u <> DELETED_USER ->
      forall w', ex_access_logs <$> returned (Eff.result (get_user_data_export u st' w'))
                 = Some [])
  /\ (forall v reason' w2 i j l1 l2,
        access_logs self !! i = Some l1 -> access_logs self !! j = Some l2 ->
        log_user_id l1 = u -> log_user_id l2 = v ->
        let st'' := Eff.self (erase_user_data v reason' st' w2) in
        exists l1' l2', access_logs st'' !! i = Some l1' /\ access_logs st'' !! j = Some l2'
                        /\ log_user_id l1' = DELETED_USER /\ log_user_id l2' = DELETED_USER)
  /\ (forall v reason' w2 w3,
        let st'' := Eff.self (erase_user_data v reason' st' w2) in
        ex_access_logs <$> returned (Eff.result (get_user_data_export DELETED_USER st'' w3))
        = Some (List.map export_access
                  (List.filter (fun l => str_eqb (log_user_id l) u
                                         || (str_eqb (log_user_id l) v
                                             || str_eqb (log_user_id l) DELETED_USER))
                               (access_logs self)))).
Proof.
  cbn zeta. rewrite erase_user_data_self. cbn [access_logs].
  split; [|split; [|split]].
  - intros i l Hi Hl. rewrite lookup_map, Hi. cbn. unfold anonymize.
    by rewrite Hl, str_eqb_refl.
  - intros Hu w'. rewrite get_user_data_export_result. cbn.
    by rewrite filter_anonymize_none.
  - intros v reason' w2 i j l1 l2 Hi Hj H1 H2. rewrite erase_user_data_self.
    cbn [access_logs]. rewrite !lookup_map, Hi, Hj. cbn.
    eexists _, _. split; [done|]. split; [done|].
    rewrite !anonymize_id, H1, H2, str_eqb_refl.
    split.
    + by destruct (str_eqb DELETED_USER v).
    + destruct (str_eqb v u); [by destruct (str_eqb DELETED_USER v)|].
      by rewrite str_eqb_refl.
  - intros v reason' w2 w3. rewrite erase_user_data_self, get_user_data_export_result.
    cbn [returned fmap option_fmap option_map ex_access_logs access_logs]. f_equal.
    rewrite (filter_anonymize (fun i => str_eqb i DELETED_USER) v) by apply str_eqb_refl.
    rewrite (filter_anonymize (fun i => str_eqb i v || str_eqb i DELETED_USER) u); [done|].
    by rewrite str_eqb_refl, orb_true_r.
Qed.

(** C9, counterexample: for the user whose id is the placeholder, the
    export after erasure still selects the entries. *)
Lemma erase_placeholder_counterexample :
  let st := Eff.self Scenario.ledger3 in
  let w := Eff.world Scenario.ledger3 in
  let r := erase_user_data DELETED_USER (lit "User requested data deletion") st w in
  ex_access_logs <$>
    returned (Eff.result (get_user_data_export DELETED_USER (Eff.self r) (Eff.world r)))
  <> Some [].
Proof. vm_compute. discriminate. Qed.

Lemma erase_placeholder_witness :
  let st := Eff.self Scenario.ledger1 in
  let w := Eff.world Scenario.ledger1 in
  let st' := Eff.self (erase_user_data Scenario.u1 (lit "request") st w) in
  (log_user_id <$> access_logs st' !! 0%nat) = Some DELETED_USER
  /\ ex_access_logs <$> returned (Eff.result (get_user_data_export Scenario.u1 st' w)) = Some [].
Proof.
  cbn zeta.
  destruct (erase_placeholder (Eff.self Scenario.ledger1) Scenario.u1 (lit "request")
              (Eff.world Scenario.ledger1)) as (Ha & Hb & _ & _).
  split.
  - erewrite Ha; [reflexivity | vm_compute; reflexivity | vm_compute; reflexivity].
  - apply Hb. vm_compute. discriminate.
Defined.

Lemma check_consent_most_recent_witness :
  check_consent (Eff.self Scenario.ledger2) Scenario.u1 (lit "marketing") = false
  /\ check_consent (Eff.self Scenario.ledger2) Scenario.u1 (lit "licensing") = false.
Proof.
  destruct (check_consent_most_recent (Eff.self Scenario.ledger2) Scenario.u1 (lit "marketing"))
    as (_ & Hlast & _).
  destruct (check_consent_most_recent (Eff.self Scenario.ledger2) Scenario.u1 (lit "licensing"))
    as (_ & _ & Hnone).
  split.
  - apply (Hlast [mkConsent Scenario.u1 true (lit "marketing") Scenario.t0 None
                     (Some (consent_prefix ++ lit "marketing"))]
                  (mkConsent Scenario.u1 false (lit "marketing")
                     (Scenario.t0 + 1000000)%Z None
                     (Some (consent_prefix ++ lit "marketing"))) []).
    + vm_compute. reflexivity.
    + reflexivity.
    + intros c' [].
  - apply Hnone. intros l c Hl Hin. vm_compute in Hl. injection Hl as <-.
    destruct Hin as [<-|[<-|[]]]; vm_compute; discriminate.
Defined.

End LedgerErasure.

(** ** The proof-of-possession sessions *)

Section Sessions.
Import Py Eff.

Lemma proto_verify_absent self w sid p s :
  SimpleZKP.active_sessions self !! sid = None ->
  SimpleZKP.verify_proof sid p s self w = (Return false, self, w).
Proof. intros E. unfold SimpleZKP.verify_proof. eff. by rewrite E. Qed.

Lemma proto_verify_expired self w sid p s sess :
  SimpleZKP.active_sessions self !! sid = Some sess ->
  (SimpleZKP.expires_at sess < current w)%Z ->
  SimpleZKP.verify_proof sid p s self w
  = (Return false, SimpleZKP.del_session sid self, tick w).
Proof.
  intros E Hexp. unfold SimpleZKP.verify_proof. eff. rewrite E.
  apply Z.ltb_lt in Hexp. by rewrite Hexp.
Qed.

Lemma proto_verify_live self w sid p s sess :
  SimpleZKP.active_sessions self !! sid = Some sess ->
  (current w <= SimpleZKP.expires_at sess)%Z ->
  SimpleZKP.verify_proof sid p s self w
  = match encode s with
    | Raise e => (Raise e, self, tick w)
    | Return sb =>
        match encode (SimpleZKP.challenge sess) with
        | Raise e => (Raise e, self, tick w)
        | Return cb =>
            let ok := startswith p (firstn 16 (SHA256.hexdigest (sb ++ cb))) in
            (Return ok, if ok then SimpleZKP.del_session sid self else self, tick w)
        end
    end.
Proof.
  intros E Hlive. unfold SimpleZKP.verify_proof. eff. rewrite E.
  apply Z.ltb_ge in Hlive. rewrite Hlive.
  destruct (encode s) as [sb|e]; [|done].
  destruct (encode (SimpleZKP.challenge sess)) as [cb|e]; [|done].
  by destruct (startswith p _).
Qed.

Lemma zkp_verify_absent self w sid p s :
  ZeroKnowledgeProof.proofs_cache self !! sid = None ->
  ZeroKnowledgeProof.verify_biometric_zkp sid p s self w = (Return false, self, w).
Proof. intros E. unfold ZeroKnowledgeProof.verify_biometric_zkp. eff. by rewrite E. Qed.

Lemma zkp_verify_expired self w sid p s sess :
  ZeroKnowledgeProof.proofs_cache self !! sid = Some sess ->
  (ZeroKnowledgeProof.expires_at sess < current w)%Z ->
  ZeroKnowledgeProof.verify_biometric_zkp sid p s self w
  = (Return false, ZeroKnowledgeProof.del_session sid self, tick w).
Proof.
  intros E Hexp. unfold ZeroKnowledgeProof.verify_biometric_zkp. eff. rewrite E.
  apply Z.ltb_lt in Hexp. by rewrite Hexp.
Qed.


Lemma proto_del_lookup sid self :
  SimpleZKP.active_sessions (SimpleZKP.del_session sid self) !! sid = None.
Proof. apply lookup_delete_eq. Qed.

Lemma zkp_del_lookup sid self :
  ZeroKnowledgeProof.proofs_cache (ZeroKnowledgeProof.del_session sid self) !! sid = None.
Proof. apply lookup_delete_eq. Qed.

(** C5. A verify call on a stored session whose expiry time has passed
    returns false whatever the proof, and removes the session; in both
    implementations. *)
Theorem expired_session_rejected :
  (forall (self : SimpleZKP.t) (w : World) (sid proof secret : str) sess,
     SimpleZKP.active_sessions self !! sid = Some sess ->
     (SimpleZKP.expires_at sess < current w)%Z ->
     let r := SimpleZKP.verify_proof sid proof secret self w in
     Eff.result r = Return false
     /\ SimpleZKP.active_sessions (Eff.self r) !! sid = None)
  /\ (forall (self : ZeroKnowledgeProof.t) (w : World) (sid proof secret : str) sess,
        ZeroKnowledgeProof.proofs_cache self !! sid = Some sess ->
        (ZeroKnowledgeProof.expires_at sess < current w)%Z ->
        let r := ZeroKnowledgeProof.verify_biometric_zkp sid proof secret self w in
        Eff.result r = Return false
        /\ ZeroKnowledgeProof.proofs_cache (Eff.self r) !! sid = None).
Proof.
  split; intros self w sid proof secret sess E Hexp; cbn zeta.
  - rewrite (proto_verify_expired _ _ _ _ _ _ E Hexp). split; [done|apply proto_del_lookup].
  - rewrite (zkp_verify_expired _ _ _ _ _ _ E Hexp). split; [done|apply zkp_del_lookup].
Qed.


Lemma expired_session_rejected_witness :
  (let r := SimpleZKP.verify_proof Scenario.opened_id Scenario.opened_digest
              Scenario.secret0 (Eff.self Scenario.opened) Scenario.late in
   Eff.result r = Return false
   /\ SimpleZKP.active_sessions (Eff.self r) !! Scenario.opened_id = None)
  /\ (let r := ZeroKnowledgeProof.verify_biometric_zkp Scenario.biometric_id
                 Scenario.biometric_proof Scenario.secret0
                 (Eff.self Scenario.opened_biometric) Scenario.late in
      Eff.result r = Return false
      /\ ZeroKnowledgeProof.proofs_cache (Eff.self r) !! Scenario.biometric_id = None).
Proof.
  destruct expired_session_rejected as [Hp Hz]. split.
  - eapply (Hp (Eff.self Scenario.opened) Scenario.late);
      [vm_compute; reflexivity | vm_compute; reflexivity].
  - eapply (Hz (Eff.self Scenario.opened_biometric) Scenario.late);
      [vm_compute; reflexivity | vm_compute; reflexivity].
Defined.



(** C1, at the input of the repository's own demo: the proof an honest
    prover computes is rejected, so the handshake answers (false, false)
    where (true, false) is required. *)
Theorem honest_handshake_rejected :
  Eff.result (Scenario.possession_handshake Scenario.secret0 SimpleZKP.init Scenario.w0)
  = Return (false, false)
  /\ Eff.result (Scenario.demo_zkp_flow SimpleZKP.init Scenario.w0) = Return false.
Proof. split; vm_compute; reflexivity. Qed.

End Sessions.

(** ** Commitments *)

Section Commitments.
Import Py Eff ZeroKnowledgeProof.

Lemma hexdigit_ascii n : n < 16 -> (hexdigit n <? 0x80) = true.
Proof.
  intros H. unfold hexdigit. apply N.ltb_lt.
  destruct (n <? 10); lia.
Qed.

Lemma is_ascii_hex (b : bytes) : is_ascii (hex b) = true.
Proof.
  unfold is_ascii, hex. induction b as [|x b IH]; [done|].
  cbn [flat_map app forallb].
  rewrite !hexdigit_ascii, IH; [done| |].
  - apply N.mod_lt. lia.
  - pose proof (Byte.to_N_bounded x). apply N.Div0.div_lt_upper_bound. lia.
Qed.

Lemma is_ascii_hexdigest (m : bytes) : is_ascii (SHA256.hexdigest m) = true.
Proof. apply is_ascii_hex. Qed.

Lemma generate_commitment_result {St} (st : St) w secret salt :
  Eff.result (generate_commitment secret salt st w) =
  match encode secret with
  | Return s =>
      let salt' := match salt with
                   | Some x => x
                   | None => fresh 32 w
                   end in
      Return (SHA256.hexdigest (s ++ salt'), salt')
  | Raise e => Raise e
  end.
Proof.
  unfold generate_commitment. eff.
  destruct salt; cbn; by destruct (encode secret).
Qed.

Lemma verify_commitment_result {St} (st : St) w secret salt c :
  Eff.result (verify_commitment secret salt c st w) =
  match encode secret with
  | Return s => compare_digest (SHA256.hexdigest (s ++ salt)) c
  | Raise e => Raise e
  end.
Proof.
  unfold verify_commitment, generate_commitment. eff. cbn.
  by destruct (encode secret).
Qed.

(** A commitment is produced for every secret that UTF-8 can encode. *)
Lemma generate_commitment_returns {St} (st : St) w secret salt s :
  encode secret = Return s ->
  exists c salt', Eff.result (generate_commitment secret salt st w) = Return (c, salt').
Proof. intros E. rewrite generate_commitment_result, E. by eexists _, _. Qed.

(** C10 (as the code has it). If [generate_commitment] returns [(c, salt)]
    for a secret, then [verify_commitment] returns true for [c], returns
    false for every other ASCII commitment, and raises TypeError for a
    commitment that is not ASCII. *)
Theorem commitment_verifies_only_itself {St} (st : St) (w : World)
    (secret : str) (salt0 : option bytes) (c : str) (salt : bytes) :
  Eff.result (generate_commitment secret salt0 st w) = Return (c, salt) ->
  (forall (st' : St) w', Eff.result (verify_commitment secret salt c st' w') = Return true)
  /\ (forall (st' : St) w' c', c' <> c ->
        Eff.result (verify_commitment secret salt c' st' w')
        = if is_ascii c' then Return false else Raise TypeError).
Proof.
  rewrite generate_commitment_result.
  destruct (encode secret) as [s|e] eqn:E; [|done]. cbn zeta.
  intros [= <- <-]. split.
  - intros st' w'. rewrite verify_commitment_result, E.
    unfold compare_digest. by rewrite is_ascii_hexdigest, str_eqb_refl.
  - intros st' w' c' Hne. rewrite verify_commitment_result, E.
    unfold compare_digest. rewrite is_ascii_hexdigest. cbn [andb].
    destruct (is_ascii c'); [|done].
    by rewrite str_eqb_neq.
Qed.

(** C10, counterexample: for a commitment that is not ASCII the call does
    not return false. *)
Lemma commitment_verifies_only_itself_counterexample :
  let secret := Scenario.secret0 in
  let salt := blit "salt" in
  let c := lit "1cae6428c24d01e64a0aafd784ef8bf6e8d888c56fa9002095c1fc3953394f04" in
  Eff.result (generate_commitment secret (Some salt) tt Scenario.w0) = Return (c, salt)
  /\ [0xE9] <> c
  /\ Eff.result (verify_commitment secret salt [0xE9] tt Scenario.w0) = Raise TypeError.
Proof.
  split; [vm_compute; reflexivity|].
  split; [vm_compute; discriminate | vm_compute; reflexivity].
Qed.

Lemma commitment_verifies_only_itself_witness :
  let c := SHA256.hexdigest (default [] (returned (encode Scenario.secret0)) ++ blit "salt") in
  Eff.result (verify_commitment Scenario.secret0 (blit "salt") c tt Scenario.w0) = Return true
  /\ Eff.result (verify_commitment Scenario.secret0 (blit "salt") (lit "00") tt Scenario.w0)
     = Return false.
Proof.
  cbn zeta.
  destruct (commitment_verifies_only_itself tt Scenario.w0 Scenario.secret0
              (Some (blit "salt"))
              (SHA256.hexdigest (default [] (returned (encode Scenario.secret0)) ++ blit "salt"))
              (blit "salt")) as [Hself Hother]; [vm_compute; reflexivity|].
  split; [apply Hself|].
  rewrite Hother; [reflexivity | vm_compute; discriminate].
Defined.

End Commitments.

(** ** base64 and byte arithmetic *)

Section Bytes.
Import Py Model.

Lemma all256_spec n : n < 256 -> In n all256.
Proof.
  intros H. unfold all256. apply in_map_iff. exists (N.to_nat n).
  split; [apply N2Nat.id|]. apply in_seq. lia.
Qed.

Lemma brute1 (P : N -> bool) :
  forallb P all256 = true -> forall b : byte, P (Byte.to_N b) = true.
Proof.
  intros H b. rewrite forallb_forall in H. apply H, all256_spec.
  pose proof (Byte.to_N_bounded b). lia.
Qed.

Lemma brute2 (P : N -> N -> bool) :
  forallb (fun a => forallb (P a) all256) all256 = true ->
  forall a b : byte, P (Byte.to_N a) (Byte.to_N b) = true.
Proof.
  intros H a b. rewrite forallb_forall in H.
  assert (Ha : In (Byte.to_N a) all256).
  { apply all256_spec. pose proof (Byte.to_N_bounded a). lia. }
  specialize (H _ Ha). by apply brute1.
Qed.

Lemma byte_of_to_N (b : byte) : byte_of_N (Byte.to_N b) = b.
Proof.
  unfold byte_of_N. pose proof (Byte.to_N_bounded b).
  rewrite N.mod_small by lia. by rewrite Byte.of_to_N.
Qed.

Lemma to_N_byte_of_N n : n < 256 -> Byte.to_N (byte_of_N n) = n.
Proof.
  intros H. unfold byte_of_N. rewrite N.mod_small by done.
  destruct (Byte.of_N n) as [b|] eqn:E.
  - by apply Byte.to_of_N.
  - apply Byte.of_N_None_iff in E. lia.
Qed.

(** Exclusive or of two bytes, twice with the same byte. *)
Lemma xor_xor_byte (a k : byte) :
  byte_of_N (N.lxor (Byte.to_N (byte_of_N (N.lxor (Byte.to_N a) (Byte.to_N k))))
                    (Byte.to_N k)) = a.
Proof.
  rewrite <- (byte_of_to_N a) at 2. f_equal.
  apply N.eqb_eq.
  apply (brute2 (fun a k => N.lxor (Byte.to_N (byte_of_N (N.lxor a k))) k =? a)).
  vm_compute. reflexivity.
Qed.

End Bytes.

Section Base64Facts.
Import Py Base64 Model.

Lemma b64char_ascii v : (b64char v <? 0x80) = true.
Proof.
  unfold b64char. apply N.ltb_lt.
  destruct (v <? 26) eqn:E1; [apply N.ltb_lt in E1; lia|].
  destruct (v <? 52) eqn:E2; [apply N.ltb_lt in E2; lia|].
  destruct (v <? 62) eqn:E3; [apply N.ltb_lt in E3; lia|].
  destruct (v =? 62); lia.
Qed.

Lemma b64encode_1 x :
  b64encode [x]
  = [b64char (N.shiftr (Byte.to_N x) 2); b64char (N.shiftl (N.land (Byte.to_N x) 3) 4);
     pad_char; pad_char].
Proof. reflexivity. Qed.

Lemma b64encode_2 x y :
  b64encode [x; y]
  = [b64char (N.shiftr (Byte.to_N x) 2);
     b64char (N.lor (N.shiftl (N.land (Byte.to_N x) 3) 4) (N.shiftr (Byte.to_N y) 4));
     b64char (N.shiftl (N.land (Byte.to_N y) 15) 2); pad_char].
Proof. reflexivity. Qed.

Lemma b64encode_3 x y z r :
  b64encode (x :: y :: z :: r)
  = b64char (N.shiftr (Byte.to_N x) 2)
    :: b64char (N.lor (N.shiftl (N.land (Byte.to_N x) 3) 4) (N.shiftr (Byte.to_N y) 4))
    :: b64char (N.lor (N.shiftl (N.land (Byte.to_N y) 15) 2) (N.shiftr (Byte.to_N z) 6))
    :: b64char (N.land (Byte.to_N z) 63) :: b64encode r.
Proof. reflexivity. Qed.

(** Induction over a byte string three bytes at a time. *)
Lemma bytes_ind3 (P : bytes -> Prop) :
  P [] -> (forall x, P [x]) -> (forall x y, P [x; y]) ->
  (forall x y z r, P r -> P (x :: y :: z :: r)) ->
  forall b, P b.
Proof.
  intros H0 H1 H2 H3 b.
  assert (H : P b /\ (forall x, P (x :: b)) /\ (forall x y, P (x :: y :: b))).
  { induction b as [|z b (IH0 & IH1 & IH2)]; [by auto|].
    split; [apply IH1|]. split; [intros x; apply IH2|]. intros x y. by apply H3. }
  apply H.
Qed.

Lemma is_ascii_b64encode (b : bytes) : is_ascii (b64encode b) = true.
Proof.
  induction b as [|x|x y|x y z r IH] using bytes_ind3.
  - reflexivity.
  - rewrite b64encode_1. unfold is_ascii. cbn [forallb]. by rewrite !b64char_ascii.
  - rewrite b64encode_2. unfold is_ascii. cbn [forallb]. by rewrite !b64char_ascii.
  - rewrite b64encode_3. unfold is_ascii in *. cbn [forallb]. by rewrite !b64char_ascii, IH.
Qed.

Lemma quad_ok_all : forallb (fun v => quad_ok (v mod 64)) all256 = true.
Proof. vm_compute. reflexivity. Qed.

Lemma b64char_val v :
  v < 64 -> (b64char v =? pad_char) = false /\ b64val (b64char v) = Some v.
Proof.
  intros H.
  assert (Hq : quad_ok v = true).
  { pose proof quad_ok_all as Ha. rewrite forallb_forall in Ha.
    specialize (Ha v (all256_spec v ltac:(lia))). by rewrite N.mod_small in Ha. }
  unfold quad_ok in Hq. apply andb_true_iff in Hq as [H1 H2].
  split; [by apply negb_true_iff|].
  destruct (b64val (b64char v)) as [v'|]; [|done].
  by apply N.eqb_eq in H2 as ->.
Qed.

Lemma group_ok_all :
  forallb (fun a => forallb (group_ok a) all256) all256 = true.
Proof. vm_compute. reflexivity. Qed.

Lemma group_facts (x y : byte) :
  group_ok (Byte.to_N x) (Byte.to_N y) = true.
Proof. apply (brute2 group_ok), group_ok_all. Qed.

End Base64Facts.

Section Base64RoundTrip.
Import Py Base64 Model.

Lemma group_props (x y : byte) :
  let a := Byte.to_N x in
  let b := Byte.to_N y in
  (s1 a < 64 /\ s2 a b < 64 /\ s3 a b < 64 /\ s4 b < 64
   /\ N.shiftl (N.land a 3) 4 < 64 /\ N.shiftl (N.land a 15) 2 < 64)
  /\ N.lor (N.shiftl (s1 a) 2) (N.shiftr (s2 a b) 4) = a
  /\ N.lor (N.shiftl (s1 a) 2) (N.shiftr (N.shiftl (N.land a 3) 4) 4) = a
  /\ N.land (s2 a b) 15 = N.shiftr b 4
  /\ N.shiftr (s3 a b) 2 = N.land a 15
  /\ N.shiftr (N.shiftl (N.land a 15) 2) 2 = N.land a 15
  /\ N.lor (N.shiftl (N.shiftr a 4) 4) (N.land a 15) = a
  /\ N.lor (N.shiftl (N.land (s3 a b) 3) 6) (s4 b) = b.
Proof.
  cbn zeta. pose proof (group_facts x y) as H. unfold group_ok in H.
  repeat (apply andb_true_iff in H as [H ?]).
  repeat match goal with
         | H : (_ <? _) = true |- _ => apply N.ltb_lt in H
         | H : (_ =? _) = true |- _ => apply N.eqb_eq in H
         end.
  repeat split; assumption.
Qed.

Lemma a2b_step0 c r lc p v :
  (c =? pad_char) = false -> b64val c = Some v ->
  a2b_base64 (c :: r) 0 lc p = a2b_base64 r 1 v 0.
Proof. intros H1 H2. cbn [a2b_base64]. by rewrite H1, H2. Qed.

Lemma a2b_step1 c r lc p v :
  (c =? pad_char) = false -> b64val c = Some v ->
  a2b_base64 (c :: r) 1 lc p
  = emit (byte_of_N (N.lor (N.shiftl lc 2) (N.shiftr v 4))) (a2b_base64 r 2 (N.land v 15) 0).
Proof. intros H1 H2. cbn [a2b_base64]. by rewrite H1, H2. Qed.

Lemma a2b_step2 c r lc p v :
  (c =? pad_char) = false -> b64val c = Some v ->
  a2b_base64 (c :: r) 2 lc p
  = emit (byte_of_N (N.lor (N.shiftl lc 4) (N.shiftr v 2))) (a2b_base64 r 3 (N.land v 3) 0).
Proof. intros H1 H2. cbn [a2b_base64]. by rewrite H1, H2. Qed.

Lemma a2b_step3 c r lc p v :
  (c =? pad_char) = false -> b64val c = Some v ->
  a2b_base64 (c :: r) 3 lc p
  = emit (byte_of_N (N.lor (N.shiftl lc 6) v)) (a2b_base64 r 0 0 0).
Proof. intros H1 H2. cbn [a2b_base64]. by rewrite H1, H2. Qed.

Lemma a2b_b64encode (b : bytes) : a2b_base64 (b64encode b) 0 0 0 = Return b.
Proof.
  induction b as [|x|x y|x y z r IH] using bytes_ind3.
  - reflexivity.
  - rewrite b64encode_1.
    destruct (group_props x x) as ((L1 & _ & _ & _ & L5 & _) & _ & P1t & _).
    rewrite (a2b_step0 _ _ _ _ (s1 (Byte.to_N x))) by (by apply b64char_val).
    rewrite (a2b_step1 _ _ _ _ (N.shiftl (N.land (Byte.to_N x) 3) 4))
      by (by apply b64char_val).
    cbn [a2b_base64]. change (pad_char =? pad_char) with true. cbn.
    unfold s1 in *. by rewrite P1t, byte_of_to_N.
  - rewrite b64encode_2.
    destruct (group_props x y) as ((L1 & L2 & _) & P1 & _ & Q2 & _).
    destruct (group_props y y) as ((_ & _ & _ & _ & _ & L6) & _ & _ & _ & _ & Q3t & R & _).
    rewrite (a2b_step0 _ _ _ _ (s1 (Byte.to_N x))) by (by apply b64char_val).
    rewrite (a2b_step1 _ _ _ _ (s2 (Byte.to_N x) (Byte.to_N y))) by (by apply b64char_val).
    rewrite (a2b_step2 _ _ _ _ (N.shiftl (N.land (Byte.to_N y) 15) 2))
      by (by apply b64char_val).
    cbn [a2b_base64]. change (pad_char =? pad_char) with true. cbn.
    by rewrite P1, Q2, Q3t, R, !byte_of_to_N.
  - rewrite b64encode_3.
    destruct (group_props x y) as ((L1 & L2 & _) & P1 & _ & Q2 & _).
    destruct (group_props y z) as ((_ & _ & L3 & L4 & _) & _ & _ & _ & Q3 & _ & R & P3).
    rewrite (a2b_step0 _ _ _ _ (s1 (Byte.to_N x))) by (by apply b64char_val).
    rewrite (a2b_step1 _ _ _ _ (s2 (Byte.to_N x) (Byte.to_N y))) by (by apply b64char_val).
    rewrite (a2b_step2 _ _ _ _ (s3 (Byte.to_N y) (Byte.to_N z))) by (by apply b64char_val).
    rewrite (a2b_step3 _ _ _ _ (s4 (Byte.to_N z))) by (by apply b64char_val).
    rewrite IH. cbn [emit].
    by rewrite P1, Q2, Q3, R, P3, !byte_of_to_N.
Qed.

(** Decoding what was encoded gives the bytes back. *)
Lemma b64decode_b64encode (b : bytes) : b64decode (b64encode b) = Return b.
Proof. unfold b64decode. by rewrite is_ascii_b64encode, a2b_b64encode. Qed.

Lemma b64encode_nonempty (b : bytes) : b <> [] -> truthy (Some (b64encode b)) = true.
Proof.
  destruct b as [|x [|y [|z r]]]; [done| | |]; intros _.
  - by rewrite b64encode_1.
  - by rewrite b64encode_2.
  - by rewrite b64encode_3.
Qed.

End Base64RoundTrip.

(** ** Registration *)

Section Registration.
Import Py Eff Model.


Lemma encode_ascii (s : str) :
  is_ascii s = true -> encode s = Return (List.map byte_of_N s).
Proof.
  unfold encode. induction s as [|c s IH]; [done|].
  cbn [is_ascii forallb]. intros [Hc Hs]%andb_true_iff.
  cbn [encode_opt]. unfold encode_char. rewrite Hc.
  unfold is_ascii in IH. specialize (IH Hs).
  by destruct (encode_opt s) as [b|]; [injection IH as ->|].
Qed.






Lemma bind_run {St A B} (m : M St A) (k : A -> M St B) s w a s' w' :
  m s w = (Return a, s', w') -> Eff.bind m k s w = k a s' w'.
Proof. intros E. unfold Eff.bind. by rewrite E. Qed.




Lemma create_template_run {St} (st : St) w data :
  BiometricProtection.create_template data st w
  = (Return (BiometricProtection.mkTemplate
               (SHA256.hexdigest (fresh 32 w ++ data)) (Base64.b64encode (fresh 32 w))
               (lit "SHA256") (Lib.isoformat (current w)) (lit "1.0")),
     st, tick (logged (Hashed (fresh 32 w ++ data)) (draw 32 w))).
Proof. reflexivity. Qed.

(** The outcome of [encrypt], spelled out. *)
Lemma encrypt_run self w plaintext aad :
  AES256Encryption.encrypt plaintext aad self w
  = if AES.valid_key (AES256Encryption.master_key self) then
      let a := if truthy aad then value_of aad else [] in
      let ct := GCM.seal (AES.encrypt_block (AES256Encryption.master_key self))
                  (fresh 12 w) a plaintext in
      (Return (AES256Encryption.mkBlob
                 (Base64.b64encode (fst ct)) (Base64.b64encode (fresh 12 w))
                 (Base64.b64encode (snd ct))
                 (if truthy aad then Some (Base64.b64encode (value_of aad)) else None)),
       self, logged (Encrypted plaintext) (draw 12 w))
    else (Raise ValueError, self, draw 12 w).
Proof.
  unfold AES256Encryption.encrypt. eff.
  destruct (AES.valid_key _); cbn [negb]; [|done].
  by destruct (GCM.seal _ _ _ _).
Qed.






End Registration.

(** ** The verdict of the prototype on an honest proof *)

Section HonestProof.
Import Py Eff.

Lemma encode_hex (b : bytes) : encode (hex b) = Return (List.map byte_of_N (hex b)).
Proof. apply encode_ascii, is_ascii_hex. Qed.

Lemma create_commitment_run {St} (st : St) w K kb :
  encode K = Return kb ->
  SimpleZKP.create_commitment K st w
  = (Return (SHA256.hexdigest (kb ++ fresh 32 w), fresh 32 w), st, draw 32 w).
Proof. intros E. unfold SimpleZKP.create_commitment. eff. by rewrite E. Qed.

Lemma create_challenge_run self w u c ttl :
  SimpleZKP.create_challenge u c ttl self w
  = (Return (SimpleZKP.mkChallenge (hex (fresh 16 w)) c (hex (fresh 32 (draw 16 w)))
               (current w) (current w + Lib.timedelta_seconds ttl)%Z),
     SimpleZKP.mk (<[hex (fresh 16 w) :=
                      SimpleZKP.mkSession u c (hex (fresh 32 (draw 16 w))) (current w)
                        (current w + Lib.timedelta_seconds ttl)%Z]>
                     (SimpleZKP.active_sessions self)),
     tick (draw 32 (draw 16 w))).
Proof. reflexivity. Qed.

(** Whatever the secret, the honest proof is accepted exactly when the
    first 16 hex digits of sha256(secret || challenge || randomness) and of
    sha256(secret || challenge) coincide; the second submission is always
    refused. *)
Lemma honest_handshake_verdict (K : str) (kb : bytes) (self : SimpleZKP.t) (w : World) :
  encode K = Return kb ->
  let randomness := fresh 32 w in
  let w1 := draw 32 w in
  let challenge := List.map byte_of_N (hex (fresh 32 (draw 16 w1))) in
  (current (tick w1) <= current w1 + Lib.timedelta_seconds 300)%Z ->
  Eff.result (Scenario.possession_handshake K self w)
  = Return (startswith (SHA256.hexdigest (kb ++ challenge ++ randomness))
              (firstn 16 (SHA256.hexdigest (kb ++ challenge))),
            false).
Proof.
  intros E. cbn zeta. intros Hlive.
  unfold Scenario.possession_handshake, mbind, M_bind.
  erewrite bind_run by (by apply create_commitment_run). lazy beta iota.
  erewrite bind_run by apply create_challenge_run.
  cbn [SimpleZKP.ch_challenge SimpleZKP.ch_session_id].
  assert (Hp : SimpleZKP.generate_proof K (hex (fresh 32 (draw 16 (draw 32 w)))) (fresh 32 w)
               = Return (SHA256.hexdigest
                           (kb ++ List.map byte_of_N (hex (fresh 32 (draw 16 (draw 32 w))))
                               ++ fresh 32 w))).
  { unfold SimpleZKP.generate_proof. by rewrite E, encode_hex. }
  erewrite bind_run by (unfold lift; by rewrite Hp).
  set (sid := hex (fresh 16 (draw 32 w))).
  set (st1 := SimpleZKP.mk _).
  set (proof := SHA256.hexdigest _).
  set (w3 := tick (draw 32 (draw 16 (draw 32 w)))).
  assert (Hlook : SimpleZKP.active_sessions st1 !! sid
                  = Some (SimpleZKP.mkSession (lit "U2")
                            (SHA256.hexdigest (kb ++ fresh 32 w))
                            (hex (fresh 32 (draw 16 (draw 32 w))))
                            (current (draw 32 w))
                            (current (draw 32 w) + Lib.timedelta_seconds 300)%Z)).
  { apply lookup_insert_eq. }
  pose proof (proto_verify_live st1 w3 sid proof K _ Hlook Hlive) as Hv.
  cbn [SimpleZKP.challenge] in Hv. rewrite E, encode_hex in Hv. cbn zeta in Hv.
  erewrite bind_run by exact Hv. clear Hv.
  destruct (startswith proof _) eqn:Hok.
  - erewrite bind_run by (apply proto_verify_absent, proto_del_lookup). reflexivity.
  - destruct (Z.lt_ge_cases (SimpleZKP.expires_at
                 (SimpleZKP.mkSession (lit "U2") (SHA256.hexdigest (kb ++ fresh 32 w))
                    (hex (fresh 32 (draw 16 (draw 32 w)))) (current (draw 32 w))
                    (current (draw 32 w) + Lib.timedelta_seconds 300)%Z))
               (current (tick w3))) as [Hexp|Hlive2].
    + erewrite bind_run by (by apply (proto_verify_expired st1 (tick w3) sid proof K _ Hlook)).
      reflexivity.
    + pose proof (proto_verify_live st1 (tick w3) sid proof K _ Hlook Hlive2) as Hv.
      cbn [SimpleZKP.challenge] in Hv. rewrite E, encode_hex in Hv. cbn zeta in Hv.
      rewrite Hok in Hv.
      erewrite bind_run by exact Hv. reflexivity.
Qed.

End HonestProof.

(** ** The vault *)

Section Vault.
Import Py Eff.

Lemma length_be_bytes n x : length (SHA256.be_bytes n x) = n.
Proof. induction n as [|n IH]; [done|]. cbn [SHA256.be_bytes length]. by rewrite IH. Qed.

Lemma length_keystream E n cb : length (GCM.keystream E n cb) = (16 * n)%nat.
Proof.
  revert cb. induction n as [|n IH]; intros cb; [done|].
  cbn [GCM.keystream]. rewrite length_app, length_be_bytes, IH. lia.
Qed.

Lemma length_xor_bytes (a k : bytes) :
  (length a <= length k)%nat -> length (GCM.xor_bytes a k) = length a.
Proof.
  revert k. induction a as [|x a IH]; intros [|y k] H; cbn in *; try done; try lia.
  rewrite IH; [done|lia].
Qed.

Lemma xor_bytes_involutive (a k : bytes) :
  (length a <= length k)%nat -> GCM.xor_bytes (GCM.xor_bytes a k) k = a.
Proof.
  revert k. induction a as [|x a IH]; intros [|y k] H; cbn in *; try done; try lia.
  rewrite xor_xor_byte, IH; [done|lia].
Qed.

Lemma keystream_covers E (x : bytes) cb :
  (length x <= length (GCM.keystream E (length x / 16 + 1) cb))%nat.
Proof.
  rewrite length_keystream.
  pose proof (Nat.div_mod_eq (length x) 16).
  pose proof (Nat.mod_upper_bound (length x) 16). lia.
Qed.

Lemma length_gctr E icb x : length (GCM.gctr E icb x) = length x.
Proof. unfold GCM.gctr. apply length_xor_bytes, keystream_covers. Qed.

Lemma gctr_involutive E icb x : GCM.gctr E icb (GCM.gctr E icb x) = x.
Proof.
  unfold GCM.gctr at 1. rewrite length_gctr. unfold GCM.gctr.
  apply xor_bytes_involutive, keystream_covers.
Qed.

(** Opening what was sealed gives the plaintext back. *)
Lemma open_seal E iv aad pt :
  GCM.open E iv aad (fst (GCM.seal E iv aad pt)) (snd (GCM.seal E iv aad pt)) = Some pt.
Proof.
  unfold GCM.open, GCM.seal. cbn [fst snd].
  rewrite bool_decide_eq_true_2 by done. by rewrite gctr_involutive.
Qed.

Lemma length_tag E iv aad ct : length (GCM.tag E iv aad ct) = 16%nat.
Proof. apply length_be_bytes. Qed.

Lemma length_fresh n w : length (fresh n w) = n.
Proof. unfold fresh. by rewrite length_map, length_seq. Qed.

(** The outcome of [decrypt], spelled out. *)
Lemma decrypt_run self w blob :
  AES256Encryption.decrypt blob self w
  = (match Base64.b64decode (AES256Encryption.ciphertext blob) with
     | Raise e => Raise e
     | Return ct =>
     match Base64.b64decode (AES256Encryption.iv blob) with
     | Raise e => Raise e
     | Return iv =>
     match Base64.b64decode (AES256Encryption.tag blob) with
     | Raise e => Raise e
     | Return tag =>
     match (if truthy (AES256Encryption.associated_data blob)
            then match Base64.b64decode (value_of (AES256Encryption.associated_data blob)) with
                 | Return a => Return (Some a)
                 | Raise e => Raise e
                 end
            else Return None) with
     | Raise e => Raise e
     | Return aad =>
         if AES.valid_key (AES256Encryption.master_key self) then
           match AES256Encryption.check_gcm iv tag with
           | Raise e => Raise e
           | Return _ =>
               match GCM.open (AES.encrypt_block (AES256Encryption.master_key self)) iv
                       (if truthy aad then value_of aad else []) ct tag with
               | Some plaintext => Return plaintext
               | None => Raise InvalidTag
               end
           end
         else Raise ValueError
     end end end end, self, w).
Proof.
  unfold AES256Encryption.decrypt. eff.
  destruct (Base64.b64decode (AES256Encryption.ciphertext blob)); [|done].
  destruct (Base64.b64decode (AES256Encryption.iv blob)); [|done].
  destruct (Base64.b64decode (AES256Encryption.tag blob)); [|done].
  destruct (truthy (AES256Encryption.associated_data blob)).
  - destruct (Base64.b64decode _); [|done]. cbn.
    destruct (AES.valid_key _); [|done]. cbn.
    destruct (AES256Encryption.check_gcm _ _); [|done].
    by destruct (GCM.open _ _ _ _ _).
  - cbn. destruct (AES.valid_key _); [|done]. cbn.
    destruct (AES256Encryption.check_gcm _ _); [|done].
    by destruct (GCM.open _ _ _ _ _).
Qed.

(** C4. For every byte string and every optional associated data, the
    blob that [encrypt] produces decrypts, under the same instance, to
    exactly that byte string; [encrypt] produces a blob whenever the key
    of the instance is an AES key. *)
Theorem decrypt_encrypt (self : AES256Encryption.t) (w : World)
    (x : bytes) (associated_data : option bytes) :
  (AES.valid_key (AES256Encryption.master_key self) = true ->
   exists blob, Eff.result (AES256Encryption.encrypt x associated_data self w) = Return blob)
  /\ (forall blob,
        Eff.result (AES256Encryption.encrypt x associated_data self w) = Return blob ->
        Eff.self (AES256Encryption.encrypt x associated_data self w) = self
        /\ forall w', AES256Encryption.decrypt blob self w' = (Return x, self, w')).
Proof.
  rewrite encrypt_run.
  destruct (AES.valid_key (AES256Encryption.master_key self)) eqn:Hv; cbn zeta.
  2:{ split; [done|]. intros blob. cbn. done. }
  split; [intros _; by eexists|].
  intros blob. cbn [Eff.result Eff.self fst snd]. intros [= <-]. split; [done|].
  intros w'. rewrite decrypt_run. cbn [AES256Encryption.ciphertext AES256Encryption.iv
    AES256Encryption.tag AES256Encryption.associated_data].
  rewrite !b64decode_b64encode, Hv.
  assert (Hchk : forall i a c,
            AES256Encryption.check_gcm (fresh 12 w)
              (GCM.tag (AES.encrypt_block (AES256Encryption.master_key self)) i a c)
            = Return tt).
  { intros i a c. unfold AES256Encryption.check_gcm.
    by rewrite length_fresh, length_tag. }
  pose proof (open_seal (AES.encrypt_block (AES256Encryption.master_key self))) as Hopen.
  unfold GCM.seal in Hopen. cbn [fst snd] in Hopen.
  destruct associated_data as [[|a0 ad]|]; cbn [truthy value_of].
  - rewrite Hchk. cbn [truthy]. by rewrite Hopen.
  - pose proof (b64encode_nonempty (a0 :: ad) ltac:(done)) as Hne.
    pose proof (b64decode_b64encode (a0 :: ad)) as Hdec.
    destruct (Base64.b64encode (a0 :: ad)) as [|c0 cs]; [done|].
    cbn [truthy value_of]. rewrite Hdec, Hchk. cbn [truthy value_of]. by rewrite Hopen.
  - rewrite Hchk. cbn [truthy]. by rewrite Hopen.
Qed.

Lemma decrypt_encrypt_witness :
  exists blob,
    Eff.result (AES256Encryption.encrypt (blit "voice template")
                  (Some (blit "CARL_BIOMETRIC_TEMPLATE")) Scenario.vault Scenario.w1)
    = Return blob
    /\ AES256Encryption.decrypt blob Scenario.vault Scenario.w1
       = (Return (blit "voice template"), Scenario.vault, Scenario.w1).
Proof.
  destruct (decrypt_encrypt Scenario.vault Scenario.w1 (blit "voice template")
              (Some (blit "CARL_BIOMETRIC_TEMPLATE"))) as [Hret Hdec].
  destruct Hret as [blob Hblob]; [vm_compute; reflexivity|].
  exists blob. split; [exact Hblob|].
  by apply (Hdec blob Hblob).
Defined.

End Vault.

(** ** The field of GHASH *)

Section Field.
Import Py GCM.

Lemma lxor_swap a b c d : N.lxor (N.lxor a b) (N.lxor c d) = N.lxor (N.lxor a c) (N.lxor b d).
Proof.
  rewrite !N.lxor_assoc. f_equal. rewrite <- !N.lxor_assoc. f_equal. apply N.lxor_comm.
Qed.

Lemma lxor_lt_pow2 a b k : a < 2 ^ k -> b < 2 ^ k -> N.lxor a b < 2 ^ k.
Proof.
  intros Ha Hb.
  destruct (N.eq_dec (N.lxor a b) 0) as [->|Hne]; [lia|].
  destruct (N.eq_dec a 0) as [->|Ha0]; [by rewrite N.lxor_0_l|].
  destruct (N.eq_dec b 0) as [->|Hb0]; [by rewrite N.lxor_0_r|].
  apply N.log2_lt_pow2; [lia|].
  apply N.log2_lt_pow2 in Ha; [|lia]. apply N.log2_lt_pow2 in Hb; [|lia].
  pose proof (N.log2_lxor a b). lia.
Qed.

Lemma lxor_eq_0 a b : N.lxor a b = 0 -> a = b.
Proof. apply N.lxor_eq. Qed.

Lemma mul_loop_0 n v : mul_loop n 0 v = 0.
Proof.
  revert v. induction n as [|n IH]; intros v; [done|].
  cbn [mul_loop]. by rewrite N.bits_0, IH.
Qed.

Lemma mul_loop_lxor n a b v :
  mul_loop n (N.lxor a b) v = N.lxor (mul_loop n a v) (mul_loop n b v).
Proof.
  revert v. induction n as [|n IH]; intros v; [done|].
  cbn [mul_loop]. rewrite IH, N.lxor_spec, lxor_swap. f_equal.
  destruct (N.testbit a _), (N.testbit b _); cbn [xorb];
    by rewrite ?N.lxor_nilpotent, ?N.lxor_0_l, ?N.lxor_0_r.
Qed.

Lemma gf_mul_0 h : gf_mul 0 h = 0.
Proof. apply mul_loop_0. Qed.

(** Multiplication distributes over the addition of the field. *)
Lemma gf_mul_lxor a b h : gf_mul (N.lxor a b) h = N.lxor (gf_mul a h) (gf_mul b h).
Proof. apply mul_loop_lxor. Qed.

Lemma R_bound : R < 2 ^ 128.
Proof. by vm_compute. Qed.

Lemma mul_loop_bound n x v : v < 2 ^ 128 -> mul_loop n x v < 2 ^ 128.
Proof.
  revert v. induction n as [|n IH]; intros v Hv; [by vm_compute|].
  cbn [mul_loop].
  assert (Hs : N.shiftr v 1 < 2 ^ 128).
  { rewrite N.shiftr_div_pow2. eapply N.le_lt_trans; [|exact Hv].
    apply N.Div0.div_le_upper_bound. change (2 ^ 1) with 2. lia. }
  apply lxor_lt_pow2.
  - destruct (N.testbit x _); [done | by vm_compute].
  - apply IH. destruct (N.odd v); [|done].
    apply lxor_lt_pow2; [done | apply R_bound].
Qed.

Lemma gf_mul_bound x h : h < 2 ^ 128 -> gf_mul x h < 2 ^ 128.
Proof. apply mul_loop_bound. Qed.

(** A block is the sum of its low [n] bits and its bit [n]. *)
Lemma split_top d n :
  d < 2 ^ N.succ n ->
  d = N.lxor (d mod 2 ^ n) (if N.testbit d n then 2 ^ n else 0).
Proof.
  intros Hd. apply N.bits_inj. intros i. rewrite N.lxor_spec.
  destruct (N.lt_trichotomy i n) as [Hi|[->|Hi]].
  - rewrite N.mod_pow2_bits_low by done.
    destruct (N.testbit d n).
    + rewrite N.pow2_bits_false by lia. by rewrite xorb_false_r.
    + by rewrite N.bits_0, xorb_false_r.
  - rewrite N.mod_pow2_bits_high by lia.
    destruct (N.testbit d n); [by rewrite N.pow2_bits_true | by rewrite N.bits_0].
  - rewrite N.mod_pow2_bits_high by lia.
    assert (Hz : N.testbit d i = false).
    { rewrite <- (N.mod_small d (2 ^ N.succ n)) by done.
      apply N.mod_pow2_bits_high. lia. }
    rewrite Hz.
    destruct (N.testbit d n); [|by rewrite N.bits_0].
    rewrite N.pow2_bits_false by lia. done.
Qed.

(** An additive map that fixes the one-bit blocks fixes every block. *)
Lemma additive_identity (g : N -> N) :
  g 0 = 0 ->
  (forall a b, g (N.lxor a b) = N.lxor (g a) (g b)) ->
  (forall i, (i < 128)%nat -> g (2 ^ N.of_nat i) = 2 ^ N.of_nat i) ->
  forall n, (n <= 128)%nat -> forall d, d < 2 ^ N.of_nat n -> g d = d.
Proof.
  intros g0 gadd gbit. induction n as [|n IH]; intros Hn d Hd.
  - change (2 ^ N.of_nat 0) with 1 in Hd. by replace d with 0 by lia.
  - rewrite Nat2N.inj_succ in Hd.
    rewrite (split_top d (N.of_nat n) Hd) at 1. rewrite gadd.
    rewrite IH; [|lia|apply N.mod_lt; by apply N.pow_nonzero].
    rewrite (split_top d (N.of_nat n) Hd) at 3. f_equal.
    destruct (N.testbit d _); [apply gbit; lia | done].
Qed.

(** An invertible block divides no block but zero. *)
Lemma invertible_cancel h d :
  invertible h = true -> d < 2 ^ 128 -> gf_mul d h = 0 -> d = 0.
Proof.
  unfold invertible. cbn zeta. intros [Hh Hall]%andb_true_iff Hd Hz.
  rewrite forallb_forall in Hall.
  rewrite <- (additive_identity (fun x => gf_mul (gf_mul x h) (gf_inv h))) with (n := 128%nat) (d := d).
  - cbn beta. by rewrite Hz, gf_mul_0.
  - by rewrite !gf_mul_0.
  - intros a b. by rewrite !gf_mul_lxor.
  - intros i Hi. specialize (Hall i). rewrite !N.shiftl_1_l in Hall.
    apply N.eqb_eq, Hall, in_seq. lia.
  - done.
  - done.
Qed.

Lemma invertible_bound h : invertible h = true -> h < 2 ^ 128.
Proof.
  unfold invertible. cbn zeta. intros [Hh _]%andb_true_iff.
  apply N.ltb_lt in Hh. by rewrite N.shiftl_1_l in Hh.
Qed.

End Field.

(** ** GHASH and the tag *)

Section Ghash.
Import Py GCM.

Lemma fold_left_cons {A B} (f : A -> B -> A) x l a :
  fold_left f (x :: l) a = fold_left f l (f a x).
Proof. reflexivity. Qed.

Lemma ghash_step_eq h y x : ghash_step h y x = gf_mul (N.lxor y x) h.
Proof. reflexivity. Qed.

Lemma ghash_step_bound h y x : h < 2 ^ 128 -> ghash_step h y x < 2 ^ 128.
Proof. intros Hh. rewrite ghash_step_eq. by apply gf_mul_bound. Qed.

Lemma fold_ghash_bound h xs y :
  h < 2 ^ 128 -> y < 2 ^ 128 -> fold_left (ghash_step h) xs y < 2 ^ 128.
Proof.
  intros Hh. revert y. induction xs as [|x xs IH]; intros y Hy; [done|].
  rewrite fold_left_cons. by apply IH, ghash_step_bound.
Qed.

(** One step of GHASH keeps two different states apart. *)
Lemma ghash_step_inj_state h y y' x :
  invertible h = true -> y < 2 ^ 128 -> y' < 2 ^ 128 ->
  ghash_step h y x = ghash_step h y' x -> y = y'.
Proof.
  intros Hinv Hy Hy' Heq. rewrite !ghash_step_eq in Heq.
  apply lxor_eq_0, (invertible_cancel h); [done|by apply lxor_lt_pow2|].
  apply N.lxor_eq_0_iff in Heq. rewrite <- gf_mul_lxor in Heq.
  rewrite lxor_swap, N.lxor_nilpotent, N.lxor_0_r in Heq. exact Heq.
Qed.

(** One step of GHASH keeps two different blocks apart. *)
Lemma ghash_step_inj_block h y x x' :
  invertible h = true -> x < 2 ^ 128 -> x' < 2 ^ 128 ->
  ghash_step h y x = ghash_step h y x' -> x = x'.
Proof.
  intros Hinv Hx Hx' Heq. rewrite !ghash_step_eq in Heq.
  apply lxor_eq_0, (invertible_cancel h); [done|by apply lxor_lt_pow2|].
  apply N.lxor_eq_0_iff in Heq. rewrite <- gf_mul_lxor in Heq.
  rewrite lxor_swap, N.lxor_nilpotent, N.lxor_0_l in Heq. exact Heq.
Qed.

Lemma fold_ghash_inj h xs y y' :
  invertible h = true -> y < 2 ^ 128 -> y' < 2 ^ 128 ->
  fold_left (ghash_step h) xs y = fold_left (ghash_step h) xs y' -> y = y'.
Proof.
  intros Hinv. pose proof (invertible_bound h Hinv) as Hh.
  revert y y'. induction xs as [|x xs IH]; intros y y' Hy Hy' Heq; [done|].
  rewrite !fold_left_cons in Heq.
  apply IH in Heq; [|by apply ghash_step_bound..].
  by eapply ghash_step_inj_state.
Qed.

(** GHASH tells apart two inputs that differ in one block. *)
Lemma ghash_one_block h pre a a' post :
  invertible h = true -> a < 2 ^ 128 -> a' < 2 ^ 128 ->
  ghash h (pre ++ a :: post) = ghash h (pre ++ a' :: post) -> a = a'.
Proof.
  intros Hinv Ha Ha' Heq. pose proof (invertible_bound h Hinv) as Hh.
  unfold ghash in Heq. rewrite !fold_left_app, !fold_left_cons in Heq.
  apply fold_ghash_inj in Heq; [|done|by apply ghash_step_bound..].
  eapply ghash_step_inj_block; [done..|exact Heq].
Qed.

End Ghash.

Section Blocks.
Import Py GCM Model.

Lemma to_N_lt (x : byte) : Byte.to_N x < 256.
Proof. pose proof (Byte.to_N_bounded x). lia. Qed.

(** Reading bytes as a number is one-to-one on strings of one length. *)
Lemma fold_be_inj (l l' : bytes) acc acc' :
  length l = length l' ->
  fold_left (fun a x => a * 256 + Byte.to_N x) l acc
  = fold_left (fun a x => a * 256 + Byte.to_N x) l' acc' ->
  acc = acc' /\ l = l'.
Proof.
  revert l' acc acc'. induction l as [|x l IH]; intros [|x' l'] acc acc' Hlen Heq;
    try discriminate.
  - done.
  - rewrite !fold_left_cons in Heq. injection Hlen as Hlen.
    destruct (IH _ _ _ Hlen Heq) as [Ha ->].
    pose proof (to_N_lt x). pose proof (to_N_lt x').
    assert (acc = acc' /\ Byte.to_N x = Byte.to_N x') as [-> Hx] by lia.
    split; [done|]. f_equal. by rewrite <- (byte_of_to_N x), Hx, byte_of_to_N.
Qed.

Lemma be_block_inj (l l' : bytes) :
  length l = length l' -> be_block l = be_block l' -> l = l'.
Proof. intros Hlen Heq. by destruct (fold_be_inj l l' 0 0 Hlen Heq). Qed.

Lemma fold_be_bound (l : bytes) acc n :
  acc < 256 ^ n ->
  fold_left (fun a x => a * 256 + Byte.to_N x) l acc < 256 ^ (n + N.of_nat (length l)).
Proof.
  revert acc n. induction l as [|x l IH]; intros acc n Hacc.
  - cbn [length fold_left]. by rewrite N.add_0_r.
  - rewrite fold_left_cons. cbn [length]. rewrite Nat2N.inj_succ.
    replace (n + N.succ (N.of_nat (length l))) with (N.succ n + N.of_nat (length l)) by lia.
    apply IH. rewrite N.pow_succ_r'. pose proof (to_N_lt x). lia.
Qed.

Lemma be_block_bound (l : bytes) : length l = 16%nat -> be_block l < 2 ^ 128.
Proof.
  intros Hlen. unfold be_block.
  pose proof (fold_be_bound l 0 0 ltac:(by vm_compute)) as H.
  rewrite Hlen in H. exact H.
Qed.

Lemma length_head_block b : length (head_block b) = 16%nat.
Proof.
  unfold head_block. rewrite length_take_le; [done|].
  rewrite length_app, repeat_length. lia.
Qed.

Lemma lookup_head_block (b : list byte) i :
  (i < 16)%nat -> (i < length b)%nat -> head_block b !! i = b !! i.
Proof.
  intros Hi Hb. unfold head_block, bytes.
  rewrite lookup_take_lt by done.
  rewrite lookup_app_l by (rewrite length_take; lia).
  by rewrite lookup_take_lt.
Qed.

Lemma to_blocks_cons n x (b : list byte) :
  to_blocks (S n) (x :: b)
  = be_block (head_block (x :: b)) :: to_blocks n (skipn 16 (x :: b)).
Proof. reflexivity. Qed.

(** Replacing one byte changes exactly one block. *)
Lemma to_blocks_insert n (b : list byte) i v old :
  (i < 16 * n)%nat -> b !! i = Some old -> v <> old ->
  exists pre a a' post,
    to_blocks n b = pre ++ a :: post
    /\ to_blocks n (<[i := v]> b) = pre ++ a' :: post
    /\ a <> a' /\ a < 2 ^ 128 /\ a' < 2 ^ 128.
Proof.
  revert b i. induction n as [|n IH]; intros b i Hi Hb Hv; [lia|].
  pose proof (lookup_lt_Some _ _ _ Hb) as Hlen.
  destruct (<[i := v]> b) as [|x' b'] eqn:Eb'.
  { apply (f_equal length) in Eb'. rewrite length_insert in Eb'. cbn in Eb'. lia. }
  destruct b as [|x b0]; [done|].
  rewrite !to_blocks_cons. rewrite <- Eb'. clear x' b' Eb'.
  destruct (Nat.lt_ge_cases i 16) as [Hlt|Hge].
  - exists [], (be_block (head_block (x :: b0))),
           (be_block (head_block (<[i := v]> (x :: b0)))),
           (to_blocks n (skipn 16 (x :: b0))).
    split; [done|]. split.
    { cbn [app]. by rewrite drop_insert_lt. }
    split.
    { intros Heq. apply be_block_inj in Heq; [|by rewrite !length_head_block].
      apply (f_equal (fun l => l !! i)) in Heq.
      rewrite !lookup_head_block in Heq by (rewrite ?length_insert; done).
      rewrite Hb, list_lookup_insert_eq in Heq by done. by injection Heq as <-. }
    split; apply be_block_bound, length_head_block.
  - destruct (IH (skipn 16 (x :: b0)) (i - 16)%nat) as (pre & a & a' & post & E1 & E2 & Hne & Ha & Ha').
    { lia. }
    { rewrite lookup_drop. by replace (16 + (i - 16))%nat with i by lia. }
    { done. }
    exists (be_block (head_block (x :: b0)) :: pre), a, a', post.
    split; [by rewrite E1|]. split; [|done].
    rewrite drop_insert_ge by done. rewrite E2.
    unfold head_block. by rewrite take_insert_ge.
Qed.

End Blocks.

Section Tag.
Import Py GCM Model.

Lemma to_N_byte_of_N_mod n : Byte.to_N (byte_of_N n) = n mod 256.
Proof.
  assert (H : byte_of_N n = byte_of_N (n mod 256)).
  { unfold byte_of_N. by rewrite N.Div0.mod_mod. }
  rewrite H. apply to_N_byte_of_N. by apply N.mod_lt.
Qed.

(** The bytes of a number determine it up to the width written. *)
Lemma be_bytes_inj n X Y :
  SHA256.be_bytes n X = SHA256.be_bytes n Y ->
  X mod 2 ^ (8 * N.of_nat n) = Y mod 2 ^ (8 * N.of_nat n).
Proof.
  induction n as [|n IH]; intros Heq.
  - change (2 ^ (8 * N.of_nat 0)) with 1. by rewrite !N.mod_1_r.
  - cbn [SHA256.be_bytes] in Heq. injection Heq as Hb Hrest.
    specialize (IH Hrest).
    apply (f_equal Byte.to_N) in Hb. rewrite !to_N_byte_of_N_mod in Hb.
    rewrite !N.shiftr_div_pow2 in Hb.
    replace (8 * N.of_nat (S n)) with (8 * N.of_nat n + 8) by lia.
    rewrite N.pow_add_r, !N.Div0.mod_mul_r.
    change (2 ^ 8) with 256. by rewrite IH, Hb.
Qed.

Lemma lxor_mod_pow2 a b k : N.lxor a b mod 2 ^ k = N.lxor (a mod 2 ^ k) (b mod 2 ^ k).
Proof.
  rewrite <- !N.land_ones. apply N.bits_inj. intros i.
  rewrite !N.land_spec, !N.lxor_spec, !N.land_spec.
  by destruct (N.testbit a i), (N.testbit b i), (N.testbit (N.ones k) i).
Qed.

Lemma lxor_cancel_l a b c : N.lxor a b = N.lxor a c -> b = c.
Proof.
  intros H. apply (f_equal (N.lxor a)) in H.
  by rewrite <- !N.lxor_assoc, N.lxor_nilpotent, !N.lxor_0_l in H.
Qed.

Lemma tag_eq E iv aad ct :
  tag E iv aad ct
  = SHA256.be_bytes 16
      (N.lxor (E (j0 E iv))
         (ghash (E 0) (blocks_of aad ++ blocks_of ct
                       ++ [bitlen aad * 0x10000000000000000 + bitlen ct]))).
Proof. reflexivity. Qed.

Lemma blocks_of_eq (b : bytes) : blocks_of b = to_blocks (length b) b.
Proof. reflexivity. Qed.

Lemma ghash_bound h xs : h < 2 ^ 128 -> ghash h xs < 2 ^ 128.
Proof. intros Hh. unfold ghash. apply fold_ghash_bound; [done | by vm_compute]. Qed.

(** Under an invertible hash key, replacing one byte of the ciphertext
    changes the tag. *)
Lemma tag_detects_byte E iv aad (ct : list byte) i v old :
  invertible (E 0) = true -> ct !! i = Some old -> v <> old ->
  tag E iv aad (<[i := v]> ct) <> tag E iv aad ct.
Proof.
  intros Hinv Hi Hv Heq. pose proof (invertible_bound _ Hinv) as Hh.
  rewrite !tag_eq in Heq. apply be_bytes_inj in Heq.
  change (8 * N.of_nat 16) with 128 in Heq.
  rewrite !lxor_mod_pow2 in Heq. apply lxor_cancel_l in Heq.
  rewrite !N.mod_small in Heq by (by apply ghash_bound).
  assert (Hlen : bitlen (<[i := v]> ct) = bitlen ct).
  { unfold bitlen. by rewrite length_insert. }
  rewrite Hlen, !blocks_of_eq, length_insert in Heq.
  destruct (to_blocks_insert (length ct) ct i v old) as (pre & a & a' & post & E1 & E2 & Hne & Ha & Ha').
  { pose proof (lookup_lt_Some _ _ _ Hi). lia. }
  { done. }
  { done. }
  rewrite E1, E2 in Heq.
  rewrite <- !(app_assoc pre), !(app_assoc (to_blocks (length aad) aad)) in Heq.
  cbn [app] in Heq.
  apply ghash_one_block in Heq; [|done..].
  by apply Hne.
Qed.

End Tag.

Section Tampering.
Import Py Eff GCM Model.

Lemma check_gcm_ok (ivb t : bytes) :
  length ivb = 12%nat -> length t = 16%nat -> AES256Encryption.check_gcm ivb t = Return tt.
Proof. intros Hi Ht. unfold AES256Encryption.check_gcm. by rewrite Hi, Ht. Qed.

Lemma open_eq E ivb aad c t :
  GCM.open E ivb aad c t
  = if bool_decide (tag E ivb aad c = t) then Some (gctr E (inc32 (j0 E ivb)) c) else None.
Proof. reflexivity. Qed.

(** [decrypt] on a blob whose nonce and associated data are those that
    [encrypt] wrote. *)
Lemma decrypt_variant self w' (ivb : bytes) (ad : option bytes) cs ts c t :
  AES.valid_key (AES256Encryption.master_key self) = true ->
  Base64.b64decode cs = Return c -> Base64.b64decode ts = Return t ->
  AES256Encryption.decrypt
    (AES256Encryption.mkBlob cs (Base64.b64encode ivb) ts
       (if truthy ad then Some (Base64.b64encode (value_of ad)) else None)) self w'
  = (match AES256Encryption.check_gcm ivb t with
     | Raise e => Raise e
     | Return _ =>
         match GCM.open (AES.encrypt_block (AES256Encryption.master_key self)) ivb
                 (if truthy ad then value_of ad else []) c t with
         | Some p => Return p
         | None => Raise InvalidTag
         end
     end, self, w').
Proof.
  intros Hv Hc Ht. rewrite decrypt_run.
  cbn [AES256Encryption.ciphertext AES256Encryption.iv AES256Encryption.tag
       AES256Encryption.associated_data].
  rewrite Hc, Ht, b64decode_b64encode, Hv.
  destruct ad as [[|a0 ad]|]; cbn [truthy value_of]; [done| |done].
  pose proof (b64encode_nonempty (a0 :: ad) ltac:(done)) as Hne.
  pose proof (b64decode_b64encode (a0 :: ad)) as Hdec.
  destruct (Base64.b64encode (a0 :: ad)) as [|c0 cs0]; [done|].
  cbn [truthy value_of]. by rewrite Hdec.
Qed.

Lemma decrypt_tag_undecodable self w' blob e :
  (exists c, Base64.b64decode (AES256Encryption.ciphertext blob) = Return c) ->
  (exists i, Base64.b64decode (AES256Encryption.iv blob) = Return i) ->
  Base64.b64decode (AES256Encryption.tag blob) = Raise e ->
  AES256Encryption.decrypt blob self w' = (Raise e, self, w').
Proof. intros [c Hc] [i Hi] Ht. by rewrite decrypt_run, Hc, Hi, Ht. Qed.

(** C3 (as the code has it). For a blob produced by [encrypt]:
    a tag field that does not decode to the tag makes [decrypt] raise, and
    raise InvalidTag when it decodes to 16 other bytes; replacing any one
    byte of the ciphertext makes [decrypt] raise InvalidTag when the hash
    key of the vault key is invertible; and whenever [decrypt] returns, on
    any blob, the tag recomputed over the submitted ciphertext is the
    submitted tag and the result is the whole decryption of that
    ciphertext. *)
Theorem tampering_detected (self : AES256Encryption.t) (w : World) (x : bytes)
    (associated_data : option bytes) (blob : AES256Encryption.EncryptedBlob) :
  Eff.result (AES256Encryption.encrypt x associated_data self w) = Return blob ->
  let E := AES.encrypt_block (AES256Encryption.master_key self) in
  let aad := if truthy associated_data then value_of associated_data else [] in
  let ct := fst (GCM.seal E (fresh 12 w) aad x) in
  let tg := snd (GCM.seal E (fresh 12 w) aad x) in
  (forall tag' w', Base64.b64decode tag' <> Return tg ->
     exists e, AES256Encryption.decrypt (with_tag tag' blob) self w' = (Raise e, self, w'))
  /\ (forall t' w', length t' = 16%nat -> t' <> tg ->
        AES256Encryption.decrypt (with_tag (Base64.b64encode t') blob) self w'
        = (Raise InvalidTag, self, w'))
  /\ (GCM.invertible (E 0) = true ->
      forall i v old w', ct !! i = Some old -> v <> old ->
        AES256Encryption.decrypt
          (with_ciphertext (Base64.b64encode (<[i := v]> ct)) blob) self w'
        = (Raise InvalidTag, self, w'))
  /\ (forall blob' w' p,
        Eff.result (AES256Encryption.decrypt blob' self w') = Return p ->
        exists c i t a,
          Base64.b64decode (AES256Encryption.ciphertext blob') = Return c
          /\ Base64.b64decode (AES256Encryption.iv blob') = Return i
          /\ Base64.b64decode (AES256Encryption.tag blob') = Return t
          /\ decoded_aad blob' = Return a
          /\ GCM.tag E i a c = t
          /\ p = GCM.gctr E (GCM.inc32 (GCM.j0 E i)) c).
Proof.
  rewrite encrypt_run.
  destruct (AES.valid_key (AES256Encryption.master_key self)) eqn:Hv; [|done].
  cbn zeta. cbn [Eff.result fst]. intros [= <-].
  set (E := AES.encrypt_block (AES256Encryption.master_key self)).
  set (aad := if truthy associated_data then value_of associated_data else []).
  pose proof (length_fresh 12 w) as Hiv.
  assert (Hseal : GCM.seal E (fresh 12 w) aad x
                  = (gctr E (inc32 (j0 E (fresh 12 w))) x,
                     tag E (fresh 12 w) aad (gctr E (inc32 (j0 E (fresh 12 w))) x)))
    by reflexivity.
  rewrite Hseal. cbn [fst snd]. clear Hseal.
  set (ct := gctr E (inc32 (j0 E (fresh 12 w))) x).
  split; [|split; [|split]].
  - intros tag' w' Hne. unfold with_tag.
    cbn [AES256Encryption.ciphertext AES256Encryption.iv AES256Encryption.tag
         AES256Encryption.associated_data].
    destruct (Base64.b64decode tag') as [t'|e] eqn:Ht.
    + rewrite (decrypt_variant self w' (fresh 12 w) associated_data _ tag' ct t' Hv
                 (b64decode_b64encode _) Ht).
      destruct (AES256Encryption.check_gcm _ _); [|by eexists].
      rewrite open_eq. fold E aad.
      rewrite bool_decide_eq_false_2; [by eexists|].
      intros Heq. apply Hne. by f_equal.
    + exists e. apply decrypt_tag_undecodable; cbn; [| |done].
      * eexists. apply b64decode_b64encode.
      * eexists. apply b64decode_b64encode.
  - intros t' w' Hlen Hne. unfold with_tag.
    cbn [AES256Encryption.ciphertext AES256Encryption.iv AES256Encryption.tag
         AES256Encryption.associated_data].
    rewrite (decrypt_variant self w' (fresh 12 w) associated_data _ _ ct t' Hv
               (b64decode_b64encode _) (b64decode_b64encode _)).
    rewrite check_gcm_ok by done. rewrite open_eq. fold E aad.
    rewrite bool_decide_eq_false_2; [done|].
    intros Heq. by apply Hne.
  - intros Hinv i v old w' Hi Hne. unfold with_ciphertext.
    cbn [AES256Encryption.ciphertext AES256Encryption.iv AES256Encryption.tag
         AES256Encryption.associated_data].
    rewrite (decrypt_variant self w' (fresh 12 w) associated_data _ _ _ _ Hv
               (b64decode_b64encode _) (b64decode_b64encode _)).
    rewrite check_gcm_ok by (done || apply length_tag). rewrite open_eq. fold E aad.
    rewrite bool_decide_eq_false_2; [done|].
    by apply tag_detects_byte with (old := old).
  - intros blob' w' p. rewrite decrypt_run. cbn [Eff.result fst]. unfold decoded_aad.
    destruct (Base64.b64decode (AES256Encryption.ciphertext blob')) as [c|]; [|done].
    destruct (Base64.b64decode (AES256Encryption.iv blob')) as [i|]; [|done].
    destruct (Base64.b64decode (AES256Encryption.tag blob')) as [t|]; [|done].
    rewrite Hv.
    destruct (truthy (AES256Encryption.associated_data blob')).
    + destruct (Base64.b64decode _) as [a|]; [|done].
      destruct (AES256Encryption.check_gcm i t); [|done].
      rewrite open_eq. fold E.
      case_bool_decide as Ht; [|done]. intros [= <-].
      exists c, i, t, a. repeat split; try done.
      rewrite <- Ht. by destruct a.
    + destruct (AES256Encryption.check_gcm i t); [|done].
      rewrite open_eq. fold E. cbn [truthy].
      case_bool_decide as Ht; [|done]. intros [= <-].
      by exists c, i, t, [].
Qed.

(** C3, counterexample: one bit of the tag field of a sealed blob is
    changed (the character 'A' becomes 'C', in the bits base64 leaves
    unused), and [decrypt] returns the plaintext. *)
Lemma tampering_detected_counterexample :
  let blob := Scenario.sealed_blob in
  let tampered := with_tag (flip_bit 21 1 (AES256Encryption.tag blob)) blob in
  Eff.result Scenario.sealed = Return blob
  /\ AES256Encryption.tag blob = lit "DudjHztQp3wwlIOc4QCRfA=="
  /\ AES256Encryption.tag tampered = lit "DudjHztQp3wwlIOc4QCRfC=="
  /\ Eff.result (AES256Encryption.decrypt tampered Scenario.vault Scenario.w1)
     = Return (blit "voice template").
Proof. repeat split; vm_compute; reflexivity. Qed.

Lemma tampering_detected_witness :
  let E := AES.encrypt_block (AES256Encryption.master_key Scenario.vault) in
  let ct := fst (GCM.seal E (fresh 12 Scenario.w1) (blit "CARL_BIOMETRIC_TEMPLATE")
                   (blit "voice template")) in
  AES256Encryption.decrypt
    (with_tag (Base64.b64encode (repeat x00 16)) Scenario.sealed_blob)
    Scenario.vault Scenario.w1
  = (Raise InvalidTag, Scenario.vault, Scenario.w1)
  /\ AES256Encryption.decrypt
       (with_ciphertext (Base64.b64encode (<[0%nat := x00]> ct)) Scenario.sealed_blob)
       Scenario.vault Scenario.w1
     = (Raise InvalidTag, Scenario.vault, Scenario.w1).
Proof.
  cbn zeta.
  destruct (tampering_detected Scenario.vault Scenario.w1 (blit "voice template")
              (Some (blit "CARL_BIOMETRIC_TEMPLATE")) Scenario.sealed_blob)
    as (_ & Htag & Hct & _); [vm_compute; reflexivity|].
  split.
  - apply Htag; [reflexivity | vm_compute; discriminate].
  - eapply Hct; [vm_compute; reflexivity | vm_compute; reflexivity | discriminate].
Defined.

End Tampering.

(** ** The session store of the prototype *)

Section PrototypeStore.
Import Py Eff SimpleZKP.

Lemma length_hex (b : bytes) : length (hex b) = (2 * length b)%nat.
Proof. induction b as [|x b IH]; [done|]. cbn [hex flat_map length app] in *. unfold hex in IH. lia. Qed.

Lemma cleanup_expired_sessions_run self w :
  cleanup_expired_sessions self w
  = (Return tt,
     mk (filter (fun kv => ¬ (expires_at (snd kv) < current w)%Z) (active_sessions self)),
     tick w).
Proof. reflexivity. Qed.

(** XA. [create_challenge] files the session under the identifier it
    returns: 32 hex digits drawn first, then a challenge of 64 hex digits;
    the stored session carries the caller's user and commitment and expires
    [ttl_seconds] after the clock reading. Every other session is left as it
    was, and the number of sessions grows by one unless the identifier was
    already in use, in which case the older session is overwritten. *)
Theorem create_challenge_stores (self : SimpleZKP.t) (w : World) (u c : str) (ttl : Z) :
  let r := create_challenge u c ttl self w in
  exists ch,
    Eff.result r = Return ch
    /\ ch_session_id ch = hex (fresh 16 w) /\ length (ch_session_id ch) = 32%nat
    /\ ch_challenge ch = hex (fresh 32 (draw 16 w)) /\ length (ch_challenge ch) = 64%nat
    /\ ch_commitment ch = c
    /\ ch_expires_at ch = (current w + 1000000 * ttl)%Z
    /\ active_sessions (Eff.self r) !! ch_session_id ch
       = Some (mkSession u c (ch_challenge ch) (current w) (ch_expires_at ch))
    /\ (forall sid, sid <> ch_session_id ch ->
          active_sessions (Eff.self r) !! sid = active_sessions self !! sid)
    /\ get_active_sessions_count (Eff.self r)
       = match active_sessions self !! ch_session_id ch with
         | Some _ => get_active_sessions_count self
         | None => S (get_active_sessions_count self)
         end.
Proof.
  intros r. subst r. rewrite create_challenge_run. eexists. split; [reflexivity|].
  cbn [ch_session_id ch_challenge ch_commitment ch_expires_at Eff.self fst snd active_sessions].
  unfold Eff.self. cbn [fst snd active_sessions].
  repeat split.
  all: try (rewrite length_hex, length_fresh; reflexivity).
  - unfold Lib.timedelta_seconds. lia.
  - by rewrite lookup_insert_eq.
  - intros sid Hne. by rewrite lookup_insert_ne.
  - unfold get_active_sessions_count. cbn [active_sessions].
    destruct (active_sessions self !! hex (fresh 16 w)) as [old|] eqn:E.
    + rewrite <- (insert_delete_id (active_sessions self) _ _ E) at 2.
      rewrite <- (insert_delete_eq (active_sessions self)).
      rewrite !map_size_insert_None by apply lookup_delete_eq. done.
    + by rewrite map_size_insert_None.
Qed.

(** XB. The verdict of [verify_proof] depends on the stored session only
    through its challenge and its expiry time, and on the proof only
    through its first 16 characters: the commitment filed with the session
    and the user it was opened for are never consulted. *)
Theorem verify_proof_ignores_commitment (self self' : SimpleZKP.t) (w : World)
    (sid proof proof' secret : str) (sess sess' : Session) :
  active_sessions self !! sid = Some sess ->
  active_sessions self' !! sid = Some sess' ->
  challenge sess = challenge sess' ->
  expires_at sess = expires_at sess' ->
  firstn 16 proof = firstn 16 proof' ->
  Eff.result (verify_proof sid proof secret self w)
  = Eff.result (verify_proof sid proof' secret self' w).
Proof.
  intros E E' Hc Hx Hp.
  assert (Hsw : forall d : str, (length d <= 16)%nat ->
                startswith proof d = startswith proof' d).
  { intros d. revert proof proof' Hp.
    assert (G : forall (n : nat) (a b : str), firstn n a = firstn n b ->
                (length d <= n)%nat -> startswith a d = startswith b d).
    { induction d as [|x d IH]; intros n a b Hab Hl; [by destruct a, b|].
      destruct n as [|n]; [cbn in Hl; lia|].
      destruct a as [|y a], b as [|z b]; cbn in Hab |- *; try done.
      injection Hab as -> Hab. f_equal. eapply IH; [exact Hab|]. cbn in Hl. lia. }
    intros a b Hab Hl. by eapply G. }
  destruct (Z.lt_ge_cases (expires_at sess) (current w)) as [Hexp|Hlive].
  - rewrite (proto_verify_expired _ _ _ _ _ _ E Hexp).
    rewrite Hx in Hexp. by rewrite (proto_verify_expired _ _ _ _ _ _ E' Hexp).
  - rewrite (proto_verify_live _ _ _ _ _ _ E Hlive).
    rewrite Hx in Hlive. rewrite (proto_verify_live _ _ _ _ _ _ E' Hlive).
    rewrite <- Hc.
    destruct (encode secret) as [sb|e]; [|done].
    destruct (encode (challenge sess)) as [cb|e]; [|done].
    cbn. unfold Eff.result. cbn. f_equal. apply Hsw.
    rewrite length_take. lia.
Qed.

Lemma verify_proof_ignores_commitment_witness :
  Eff.result (verify_proof Scenario.opened_id Scenario.opened_digest Scenario.secret0
                (Eff.self Scenario.opened) (Eff.world Scenario.opened))
  = Eff.result (verify_proof Scenario.opened_id (firstn 16 Scenario.opened_digest)
                  Scenario.secret0
                  (Eff.self (create_challenge Scenario.u2 (lit "no commitment") 300
                               SimpleZKP.init Scenario.w0))
                  (Eff.world Scenario.opened)).
Proof.
  eapply (verify_proof_ignores_commitment (Eff.self Scenario.opened)
            (Eff.self (create_challenge Scenario.u2 (lit "no commitment") 300
                         SimpleZKP.init Scenario.w0)));
    vm_compute; reflexivity.
Defined.

(** XC. [cleanup_expired_sessions] keeps exactly the sessions whose expiry
    time is not before the clock reading, unchanged; it never adds one, and
    a session it removed is refused by every later [verify_proof]. *)
Theorem cleanup_keeps_live_sessions (self : SimpleZKP.t) (w : World) :
  let r := cleanup_expired_sessions self w in
  Eff.result r = Return tt
  /\ (forall sid sess,
        active_sessions (Eff.self r) !! sid = Some sess
        <-> active_sessions self !! sid = Some sess /\ (current w <= expires_at sess)%Z)
  /\ (get_active_sessions_count (Eff.self r) <= get_active_sessions_count self)%nat
  /\ (forall sid sess, active_sessions self !! sid = Some sess ->
        (expires_at sess < current w)%Z ->
        forall w' proof secret,
          verify_proof sid proof secret (Eff.self r) w' = (Return false, Eff.self r, w')).
Proof.
  intros r. subst r. rewrite cleanup_expired_sessions_run.
  unfold Eff.result, Eff.self. cbn [fst snd].
  assert (L : forall sid sess,
            filter (fun kv : str * Session => ¬ (expires_at (snd kv) < current w)%Z)
              (active_sessions self) !! sid = Some sess
            <-> active_sessions self !! sid = Some sess /\ (current w <= expires_at sess)%Z).
  { intros sid sess. rewrite map_lookup_filter_Some. cbn. split; intros [? ?]; split; auto; lia. }
  split; [done|]. split; [exact L|]. split.
  - unfold get_active_sessions_count. cbn. apply map_subseteq_size, map_filter_subseteq.
  - intros sid sess E Hexp w' proof secret. apply proto_verify_absent. cbn.
    destruct (filter _ _ !! sid) as [s|] eqn:F; [|done].
    apply L in F as [F Hl]. rewrite E in F. injection F as <-. lia.
Qed.

End PrototypeStore.

(** ** The biometric proof sessions of [ZeroKnowledgeProof] *)

Section BiometricSessions.
Import Py Eff ZeroKnowledgeProof.

Lemma compare_digest_true (a b : str) : compare_digest a b = Return true -> a = b.
Proof.
  unfold compare_digest. destruct (is_ascii a && is_ascii b); [|done].
  intros [= H]. by apply str_eqb_eq.
Qed.

Lemma compare_digest_refl (a : str) : is_ascii a = true -> compare_digest a a = Return true.
Proof. intros H. unfold compare_digest. by rewrite H, str_eqb_refl. Qed.

Lemma create_biometric_zkp_session_run self w u h hb :
  encode h = Return hb ->
  let salt_ := fresh 32 w in
  let c := SHA256.hexdigest (hb ++ salt_) in
  let ch := hex (fresh 32 (draw 32 w)) in
  let sid := hex (fresh 16 (draw 32 (draw 32 w))) in
  create_biometric_zkp_session u h self w
  = (Return (mkInfo sid c ch 300),
     mk (<[sid := mkSession u c salt_ ch (clock w (reads w))
                    (clock w (S (reads w)) + 300000000)%Z]> (proofs_cache self)),
     tick (tick (draw 16 (draw 32 (draw 32 w))))).
Proof.
  intros E. unfold create_biometric_zkp_session, generate_commitment, create_challenge. eff.
  rewrite E. reflexivity.
Qed.

Lemma create_biometric_zkp_session_raise self w u h :
  encode h = Raise UnicodeEncodeError ->
  create_biometric_zkp_session u h self w = (Raise UnicodeEncodeError, self, draw 32 w).
Proof.
  intros E. unfold create_biometric_zkp_session, generate_commitment. eff.
  rewrite E. reflexivity.
Qed.

Lemma encode_outcome (s : str) :
  (exists b, encode s = Return b) \/ encode s = Raise UnicodeEncodeError.
Proof. unfold encode. destruct (encode_opt s); eauto. Qed.

(** The run of [verify_biometric_zkp] on a session that has not expired. *)
Lemma verify_biometric_zkp_live self w sid p h sess hb cb :
  proofs_cache self !! sid = Some sess ->
  (current w <= expires_at sess)%Z ->
  encode h = Return hb ->
  encode (challenge sess) = Return cb ->
  verify_biometric_zkp sid p h self w
  = match compare_digest (SHA256.hexdigest (hb ++ salt sess)) (commitment sess) with
    | Raise e => (Raise e, self, tick w)
    | Return false => (Return false, self, tick w)
    | Return true =>
        match compare_digest (SHA256.hexdigest (hb ++ cb ++ salt sess)) p with
        | Raise e => (Raise e, self, tick (tick w))
        | Return ok => (Return ok, if ok then del_session sid self else self, tick (tick w))
        end
    end.
Proof.
  intros E Hlive Eh Ec. unfold verify_biometric_zkp. eff. rewrite E.
  apply Z.ltb_ge in Hlive. rewrite Hlive.
  unfold verify_proof, verify_commitment, generate_commitment, generate_proof. eff.
  rewrite Eh. cbn.
  destruct (compare_digest _ (commitment sess)) as [[|]|e]; cbn; [|done|done].
  rewrite Ec. cbn.
  by destruct (compare_digest _ p) as [[|]|e].
Qed.

(** XD. The biometric handshake is complete. A session opened for a hash
    that can be encoded is filed under the returned identifier and lives
    for 300 seconds from the second clock reading of the call; the proof
    that [generate_proof] derives from the session's challenge and salt is
    accepted by [verify_biometric_zkp] at any time up to the expiry, and
    the session is gone afterwards. *)
Theorem biometric_handshake_accepted (self : ZeroKnowledgeProof.t) (w : World)
    (u h : str) (hb : bytes) :
  encode h = Return hb ->
  let r := create_biometric_zkp_session u h self w in
  exists info sess,
    Eff.result r = Return info
    /\ expires_in info = 300%Z
    /\ proofs_cache (Eff.self r) !! session_id info = Some sess
    /\ commitment sess = info_commitment info
    /\ challenge sess = info_challenge info
    /\ expires_at sess = (clock w (S (reads w)) + 300 * 1000000)%Z
    /\ forall (wp : World), exists pr,
         Eff.result (generate_proof h (info_challenge info) (salt sess) tt wp) = Return pr
         /\ forall w2, (current w2 <= expires_at sess)%Z ->
              let r2 := verify_biometric_zkp (session_id info) (proof pr) h (Eff.self r) w2 in
              Eff.result r2 = Return true
              /\ proofs_cache (Eff.self r2) !! session_id info = None.
Proof.
  intros Eh r. subst r. rewrite (create_biometric_zkp_session_run _ _ _ _ _ Eh).
  eexists _, _. unfold Eff.result, Eff.self. cbn [fst snd proofs_cache session_id
    expires_in info_commitment info_challenge].
  split; [reflexivity|]. split; [reflexivity|].
  split; [apply lookup_insert_eq|].
  cbn [commitment challenge expires_at salt].
  split; [reflexivity|]. split; [reflexivity|]. split; [reflexivity|].
  intros wp. cbn [info_challenge session_id salt].
  set (ch := hex (fresh 32 (draw 32 w))).
  assert (Ec : encode ch = Return (List.map byte_of_N ch)) by apply encode_hex.
  unfold generate_proof at 1. eff. rewrite Eh, Ec. cbn.
  eexists. split; [reflexivity|]. cbn [proof].
  intros w2 Hlive.
  erewrite verify_biometric_zkp_live;
    [ | apply lookup_insert_eq | exact Hlive | exact Eh | exact Ec ].
  cbn [commitment challenge salt].
  rewrite !compare_digest_refl by apply is_ascii_hexdigest.
  cbn [fst snd]. split; [reflexivity|]. apply zkp_del_lookup.
Qed.

Lemma biometric_handshake_accepted_witness :
  let r := create_biometric_zkp_session Scenario.u1 Scenario.secret0
             ZeroKnowledgeProof.init Scenario.w0 in
  exists info sess,
    Eff.result r = Return info
    /\ expires_in info = 300%Z
    /\ proofs_cache (Eff.self r) !! session_id info = Some sess
    /\ commitment sess = info_commitment info
    /\ challenge sess = info_challenge info
    /\ expires_at sess = (clock Scenario.w0 1 + 300 * 1000000)%Z
    /\ forall (wp : World), exists pr,
         Eff.result (generate_proof Scenario.secret0 (info_challenge info) (salt sess) tt wp)
         = Return pr
         /\ forall w2, (current w2 <= expires_at sess)%Z ->
              let r2 := verify_biometric_zkp (session_id info) (proof pr) Scenario.secret0
                          (Eff.self r) w2 in
              Eff.result r2 = Return true
              /\ proofs_cache (Eff.self r2) !! session_id info = None.
Proof.
  apply (biometric_handshake_accepted ZeroKnowledgeProof.init Scenario.w0 Scenario.u1
           Scenario.secret0 (default [] (returned (encode Scenario.secret0)))).
  vm_compute; reflexivity.
Defined.

(** XE. [verify_biometric_zkp] accepts nothing but the exact digests: when
    it returns true, the session exists and has not expired, the stored
    commitment is the SHA-256 hex digest of the submitted hash followed by
    the session's salt, and the proof is, character for character, the
    digest of hash, challenge and salt. *)
Theorem biometric_proof_accepted_only_if_exact (self : ZeroKnowledgeProof.t) (w : World)
    (sid p h : str) :
  Eff.result (verify_biometric_zkp sid p h self w) = Return true ->
  exists sess hb cb,
    proofs_cache self !! sid = Some sess
    /\ (current w <= expires_at sess)%Z
    /\ encode h = Return hb
    /\ encode (challenge sess) = Return cb
    /\ commitment sess = SHA256.hexdigest (hb ++ salt sess)
    /\ p = SHA256.hexdigest (hb ++ cb ++ salt sess).
Proof.
  intros H.
  destruct (proofs_cache self !! sid) as [sess|] eqn:E;
    [|by rewrite (zkp_verify_absent _ _ _ _ _ E) in H].
  destruct (Z.lt_ge_cases (expires_at sess) (current w)) as [Hexp|Hlive];
    [by rewrite (zkp_verify_expired _ _ _ _ _ _ E Hexp) in H|].
  assert (exists hb, encode h = Return hb) as [hb Eh].
  { destruct (encode_outcome h) as [?|Er]; [done|]. exfalso.
    revert H. unfold verify_biometric_zkp. eff. rewrite E.
    apply Z.ltb_ge in Hlive. rewrite Hlive.
    unfold verify_proof, verify_commitment, generate_commitment. eff. by rewrite Er. }
  assert (exists cb, encode (challenge sess) = Return cb) as [cb Ec].
  { destruct (encode_outcome (challenge sess)) as [?|Er]; [done|]. exfalso.
    revert H. unfold verify_biometric_zkp. eff. rewrite E.
    apply Z.ltb_ge in Hlive. rewrite Hlive.
    unfold verify_proof, verify_commitment, generate_commitment, generate_proof. eff.
    rewrite Eh. cbn.
    destruct (compare_digest _ (commitment sess)) as [[|]|e]; cbn; [|done|done].
    by rewrite Er. }
  rewrite (verify_biometric_zkp_live _ _ _ _ _ _ _ _ E Hlive Eh Ec) in H.
  exists sess, hb, cb. repeat split; try done.
  - destruct (compare_digest _ (commitment sess)) as [[|]|e] eqn:C; try done.
    symmetry. by apply compare_digest_true.
  - destruct (compare_digest _ (commitment sess)) as [[|]|e] eqn:C; try done.
    destruct (compare_digest _ p) as [[|]|e] eqn:C2; try done.
    symmetry. by apply compare_digest_true.
Qed.

Lemma biometric_proof_accepted_only_if_exact_witness :
  exists sess hb cb,
    proofs_cache (Eff.self Scenario.opened_biometric) !! Scenario.biometric_id = Some sess
    /\ (current (Eff.world Scenario.opened_biometric) <= expires_at sess)%Z
    /\ encode Scenario.secret0 = Return hb
    /\ encode (challenge sess) = Return cb
    /\ commitment sess = SHA256.hexdigest (hb ++ salt sess)
    /\ Scenario.biometric_proof = SHA256.hexdigest (hb ++ cb ++ salt sess).
Proof.
  apply (biometric_proof_accepted_only_if_exact (Eff.self Scenario.opened_biometric)
           (Eff.world Scenario.opened_biometric)).
  vm_compute; reflexivity.
Defined.

End BiometricSessions.

(** ** The vault: shape of a blob, key lengths, associated data *)

Section VaultShape.
Import Py Eff GCM Model AES256Encryption.

Lemma length_seal_fst E ivb a x : length (fst (GCM.seal E ivb a x)) = length x.
Proof. apply length_gctr. Qed.

Lemma length_seal_snd E ivb a x : length (snd (GCM.seal E ivb a x)) = 16%nat.
Proof. apply length_tag. Qed.

(** XF. Under a key of 16, 24 or 32 bytes [encrypt] returns a blob of
    ASCII fields: the nonce is the next 12 bytes of entropy, the tag has 16
    bytes, the ciphertext has exactly as many bytes as the plaintext, and
    the associated-data field is absent exactly when no associated data or
    empty associated data was passed. Nothing but those 12 bytes is drawn
    and the clock is not read. *)
Theorem encrypt_blob_shape (self : AES256Encryption.t) (w : World) (x : bytes)
    (aad : option bytes) :
  AES.valid_key (master_key self) = true ->
  let r := encrypt x aad self w in
  exists blob c t,
    Eff.result r = Return blob
    /\ Base64.b64decode (iv blob) = Return (fresh 12 w)
    /\ Base64.b64decode (ciphertext blob) = Return c /\ length c = length x
    /\ Base64.b64decode (tag blob) = Return t /\ length t = 16%nat
    /\ (associated_data blob = None <-> aad = None \/ aad = Some [])
    /\ (forall a, associated_data blob = Some a -> Base64.b64decode a = Return (value_of aad))
    /\ is_ascii (ciphertext blob) = true /\ is_ascii (iv blob) = true
    /\ is_ascii (tag blob) = true
    /\ drawn (Eff.world r) = (drawn w + 12)%nat /\ reads (Eff.world r) = reads w.
Proof.
  intros Hk r. subst r. rewrite encrypt_run, Hk. cbv zeta.
  eexists _, _, _. unfold Eff.result, Eff.world.
  cbn [fst snd ciphertext iv tag associated_data].
  split; [reflexivity|].
  split; [apply b64decode_b64encode|].
  split; [apply b64decode_b64encode|].
  split; [apply length_seal_fst|].
  split; [apply b64decode_b64encode|].
  split; [apply length_seal_snd|].
  split.
  { destruct aad as [[|a0 a]|]; cbn [truthy]; split; try done; auto.
    intros [?|?]; done. }
  split.
  { intros a. destruct aad as [[|a0 l]|]; cbn [truthy value_of]; try done.
    intros [= <-]. apply b64decode_b64encode. }
  repeat split; apply is_ascii_b64encode.
Qed.

Lemma encrypt_blob_shape_witness :
  let r := encrypt (blit "voice template") (Some (blit "CARL_BIOMETRIC_TEMPLATE"))
             Scenario.vault Scenario.w1 in
  exists blob c t,
    Eff.result r = Return blob
    /\ Base64.b64decode (iv blob) = Return (fresh 12 Scenario.w1)
    /\ Base64.b64decode (ciphertext blob) = Return c
    /\ length c = length (blit "voice template")
    /\ Base64.b64decode (tag blob) = Return t /\ length t = 16%nat
    /\ (associated_data blob = None
        <-> Some (blit "CARL_BIOMETRIC_TEMPLATE") = None
            \/ Some (blit "CARL_BIOMETRIC_TEMPLATE") = Some [])
    /\ (forall a, associated_data blob = Some a ->
          Base64.b64decode a = Return (value_of (Some (blit "CARL_BIOMETRIC_TEMPLATE"))))
    /\ is_ascii (ciphertext blob) = true /\ is_ascii (iv blob) = true
    /\ is_ascii (tag blob) = true
    /\ drawn (Eff.world r) = (drawn Scenario.w1 + 12)%nat
    /\ reads (Eff.world r) = reads Scenario.w1.
Proof.
  apply (encrypt_blob_shape Scenario.vault Scenario.w1). vm_compute; reflexivity.
Defined.

(** XG. The constructor takes a key of any length; the length is checked
    at the first use. With a key that does not have 16, 24 or 32 bytes
    [encrypt] raises ValueError after the 12 bytes of the nonce were drawn,
    and [decrypt] raises ValueError on every blob whose fields decode. *)
Theorem vault_rejects_key_length (k : bytes) (w : World) :
  AES.valid_key k = false ->
  exists self,
    AES256Encryption.init (Some k) tt w = (Return self, tt, w)
    /\ master_key self = k
    /\ (forall x aad w', encrypt x aad self w' = (Raise ValueError, self, draw 12 w'))
    /\ (forall blob w' c i t a,
          Base64.b64decode (ciphertext blob) = Return c ->
          Base64.b64decode (iv blob) = Return i ->
          Base64.b64decode (tag blob) = Return t ->
          decoded_aad blob = Return a ->
          decrypt blob self w' = (Raise ValueError, self, w')).
Proof.
  intros Hk. exists (mk k). split; [reflexivity|]. split; [reflexivity|]. split.
  - intros x aad w'. rewrite encrypt_run. cbn [master_key]. by rewrite Hk.
  - intros blob w' c i t a Hc Hi Ht Ha. rewrite decrypt_run, Hc, Hi, Ht.
    cbn [master_key]. rewrite Hk. unfold decoded_aad in Ha.
    destruct (truthy (associated_data blob)); [|done]. by rewrite Ha.
Qed.

Lemma vault_rejects_key_length_witness :
  exists self,
    AES256Encryption.init (Some (blit "too short")) tt Scenario.w0
    = (Return self, tt, Scenario.w0)
    /\ encrypt (blit "voice template") None self Scenario.w0
       = (Raise ValueError, self, draw 12 Scenario.w0)
    /\ decrypt Scenario.sealed_blob self Scenario.w0 = (Raise ValueError, self, Scenario.w0).
Proof.
  destruct (vault_rejects_key_length (blit "too short") Scenario.w0)
    as (self & Hi & _ & He & Hd); [vm_compute; reflexivity|].
  exists self. split; [exact Hi|]. split; [apply He|].
  eapply Hd; vm_compute; reflexivity.
Defined.

End VaultShape.

Section AssociatedData.
Import Py Eff GCM Model.

(** Under an invertible hash key, replacing one byte of the associated
    data changes the tag. *)
Lemma tag_detects_aad_byte E ivb (aad : list byte) ct i v old :
  invertible (E 0) = true -> aad !! i = Some old -> v <> old ->
  tag E ivb (<[i := v]> aad) ct <> tag E ivb aad ct.
Proof.
  intros Hinv Hi Hv Heq. pose proof (invertible_bound _ Hinv) as Hh.
  rewrite !tag_eq in Heq. apply be_bytes_inj in Heq.
  change (8 * N.of_nat 16) with 128 in Heq.
  rewrite !lxor_mod_pow2 in Heq. apply lxor_cancel_l in Heq.
  rewrite !N.mod_small in Heq by (by apply ghash_bound).
  assert (Hlen : bitlen (<[i := v]> aad) = bitlen aad).
  { unfold bitlen. by rewrite length_insert. }
  rewrite Hlen, !blocks_of_eq, length_insert in Heq.
  destruct (to_blocks_insert (length aad) aad i v old)
    as (pre & a & a' & post & E1 & E2 & Hne & Ha & Ha').
  { pose proof (lookup_lt_Some _ _ _ Hi). lia. }
  { done. }
  { done. }
  rewrite E1, E2 in Heq.
  rewrite <- !(app_assoc pre) in Heq. cbn [app] in Heq.
  apply ghash_one_block in Heq; [|done..].
  by apply Hne.
Qed.

(** XH. The associated data is authenticated. For a blob sealed with
    associated data under a key whose hash key is invertible, a blob that
    presents the same ciphertext, nonce and tag with one byte of the
    associated data replaced is refused by [decrypt] with InvalidTag, and
    the vault is left as it was. *)
Theorem associated_data_authenticated (self : AES256Encryption.t) (w : World)
    (x aad : bytes) (blob : AES256Encryption.EncryptedBlob) :
  Eff.result (AES256Encryption.encrypt x (Some aad) self w) = Return blob ->
  GCM.invertible (AES.encrypt_block (AES256Encryption.master_key self) 0) = true ->
  forall (i : nat) (v old : byte) (w' : World),
    aad !! i = Some old -> v <> old ->
    AES256Encryption.decrypt
      (with_associated_data (Some (Base64.b64encode (<[i := v]> aad))) blob) self w'
    = (Raise InvalidTag, self, w').
Proof.
  intros Henc Hinv i v old w' Hi Hv.
  rewrite encrypt_run in Henc.
  destruct (AES.valid_key (AES256Encryption.master_key self)) eqn:Hk; [|done].
  assert (Hne : truthy (Some aad) = true).
  { destruct aad; [done|done]. }
  rewrite Hne in Henc. cbn [value_of] in Henc. cbv zeta in Henc.
  unfold Eff.result in Henc. cbn [fst] in Henc. injection Henc as <-.
  unfold with_associated_data.
  cbn [AES256Encryption.ciphertext AES256Encryption.iv AES256Encryption.tag].
  set (E := AES.encrypt_block (AES256Encryption.master_key self)) in *.
  set (ad' := <[i := v]> aad).
  assert (Hne' : truthy (Some ad') = true).
  { subst ad'. destruct aad; [done|]. by destruct i. }
  pose proof (decrypt_variant self w' (fresh 12 w) (Some ad')
                (Base64.b64encode (fst (seal E (fresh 12 w) aad x)))
                (Base64.b64encode (snd (seal E (fresh 12 w) aad x)))
                _ _ Hk (b64decode_b64encode _) (b64decode_b64encode _)) as D.
  rewrite Hne' in D. cbn [value_of] in D. refine (eq_trans D _). clear D.
  rewrite check_gcm_ok by (by rewrite ?length_fresh, ?length_seal_snd).
  rewrite open_eq.
  rewrite bool_decide_eq_false_2; [done|].
  change (snd (seal E (fresh 12 w) aad x))
    with (tag E (fresh 12 w) aad (fst (seal E (fresh 12 w) aad x))).
  by apply tag_detects_aad_byte with (old := old).
Qed.

Lemma associated_data_authenticated_witness :
  AES256Encryption.decrypt
    (with_associated_data
       (Some (Base64.b64encode (<[0%nat := x00]> (blit "CARL_BIOMETRIC_TEMPLATE"))))
       Scenario.sealed_blob)
    Scenario.vault Scenario.w1
  = (Raise InvalidTag, Scenario.vault, Scenario.w1).
Proof.
  eapply (associated_data_authenticated Scenario.vault Scenario.w1 (blit "voice template")
            (blit "CARL_BIOMETRIC_TEMPLATE") Scenario.sealed_blob);
    [vm_compute; reflexivity | vm_compute; reflexivity | vm_compute; reflexivity
    | discriminate].
Defined.

End AssociatedData.

(** ** Biometric templates *)

Section Templates.
Import Py Eff BiometricProtection.

Lemma verify_biometric_run {St} (st : St) w data (tpl : Template) s :
  Base64.b64decode (salt tpl) = Return s ->
  verify_biometric data tpl st w
  = (compare_digest (SHA256.hexdigest (s ++ data)) (hash tpl), st,
     logged (Hashed (s ++ data)) w).
Proof. intros E. unfold verify_biometric, hash_biometric. eff. by rewrite E. Qed.

(** XI. A template verifies the data it was made from. [create_template]
    salts the data with the next 32 bytes of entropy and stores the SHA-256
    hex digest and the base64 of the salt; [verify_biometric] returns true
    on the same data, and on other data it returns true only when the
    salted digests coincide. It draws no entropy and does not read the
    clock. *)
Theorem template_verifies_its_data {St} (st : St) (w : World) (data : bytes) :
  exists tpl,
    Eff.result (create_template data st w) = Return tpl
    /\ hash tpl = SHA256.hexdigest (fresh 32 w ++ data)
    /\ Base64.b64decode (salt tpl) = Return (fresh 32 w)
    /\ (forall St' (st' : St') w',
          Eff.result (verify_biometric data tpl st' w') = Return true)
    /\ (forall St' (st' : St') w' data',
          verify_biometric data' tpl st' w'
          = (Return (bool_decide (SHA256.hexdigest (fresh 32 w ++ data')
                                  = SHA256.hexdigest (fresh 32 w ++ data))),
             st', logged (Hashed (fresh 32 w ++ data')) w')).
Proof.
  rewrite create_template_run. eexists. unfold Eff.result. cbn [fst hash salt].
  split; [reflexivity|]. split; [reflexivity|].
  split; [apply b64decode_b64encode|]. split.
  - intros St' st' w'.
    erewrite verify_biometric_run by apply b64decode_b64encode.
    cbn [fst hash]. apply compare_digest_refl, is_ascii_hexdigest.
  - intros St' st' w' data'.
    erewrite verify_biometric_run by apply b64decode_b64encode.
    cbn [hash]. unfold compare_digest. by rewrite !is_ascii_hexdigest.
Qed.

End Templates.

(** ** The ledger: what an operation leaves alone *)

Section LedgerFrame.
Import Py Eff GDPRCompliance.

Lemma first_for_snoc_other p' l c :
  purpose c <> p' -> first_for p' (rev (l ++ [c])) = first_for p' (rev l).
Proof.
  intros Hne. rewrite rev_app_distr. cbn [rev app first_for].
  by rewrite str_eqb_neq.
Qed.

Lemma anonymize_idemp u l : anonymize u (anonymize u l) = anonymize u l.
Proof.
  unfold anonymize at 2. destruct (str_eqb (log_user_id l) u) eqn:E; [|by unfold anonymize; rewrite E].
  unfold anonymize. cbn [log_user_id accessed_by access_type data_category log_timestamp
    log_purpose legal_basis].
  rewrite E. by destruct (str_eqb DELETED_USER u).
Qed.

(** XJ. The consent history is append-only. [record_consent] adds the new
    record at the end of the user's history and changes nothing else: the
    histories of other users, the access log, and the answer of
    [check_consent] for every other user or purpose stay as they were. *)
Theorem record_consent_appends (self : t) (w : World) (u p : str) (g : bool)
    (ip : option str) :
  let st' := Eff.self (record_consent u p g ip self w) in
  consents st' !! u
  = Some (default [] (consents self !! u)
          ++ [mkConsent u g p (current w) ip (Some (consent_prefix ++ p))])
  /\ (forall u', u' <> u -> consents st' !! u' = consents self !! u')
  /\ access_logs st' = access_logs self
  /\ (forall u' p', u' <> u \/ p' <> p ->
        check_consent st' u' p' = check_consent self u' p').
Proof.
  intros st'. subst st'. rewrite record_consent_self. cbn [consents access_logs].
  split; [by rewrite lookup_insert_eq|].
  split; [by intros u' Hne; rewrite lookup_insert_ne|].
  split; [done|].
  intros u' p' Hne. unfold check_consent. cbn [consents].
  destruct (decide (u' = u)) as [->|Hu]; [|by rewrite lookup_insert_ne].
  destruct Hne as [?|Hp]; [done|].
  rewrite lookup_insert_eq, first_for_snoc_other by (cbn; congruence).
  by destruct (consents self !! u).
Qed.

(** XK. Erasure removes every consent of the user, so that
    [check_consent] answers false for each purpose afterwards; the consents
    of the other users and the log entries of the other users are left
    untouched. Erasing the same user a second time changes nothing. *)
Theorem erase_clears_consents (self : t) (w : World) (u reason : str) :
  let st' := Eff.self (erase_user_data u reason self w) in
  consents st' !! u = None
  /\ (forall p, check_consent st' u p = false)
  /\ (forall u' p, u' <> u ->
        consents st' !! u' = consents self !! u'
        /\ check_consent st' u' p = check_consent self u' p)
  /\ (forall i l, access_logs self !! i = Some l -> log_user_id l <> u ->
        access_logs st' !! i = Some l)
  /\ (forall reason' w', Eff.self (erase_user_data u reason' st' w') = st').
Proof.
  intros st'. subst st'. rewrite erase_user_data_self. cbn [consents access_logs].
  split; [apply lookup_delete_eq|].
  split; [by intros p; unfold check_consent; cbn; rewrite lookup_delete_eq|].
  split.
  { intros u' p Hne. unfold check_consent. cbn. by rewrite lookup_delete_ne. }
  split.
  { intros i l Hi Hne. rewrite lookup_map, Hi. cbn. unfold anonymize.
    by rewrite str_eqb_neq. }
  intros reason' w'. rewrite erase_user_data_self. cbn [consents access_logs]. f_equal.
  - apply delete_id, lookup_delete_eq.
  - rewrite List.map_map. apply List.map_ext. intros l. apply anonymize_idemp.
Qed.

(** XL. The export is a read-only view in ledger order. It leaves the
    ledger as it was, lists the whole consent history of the user, the
    withdrawn consents included, and the accesses logged for the user; an
    access logged for the user appears as the last entry of the next
    export, and an access logged for somebody else does not appear. *)
Theorem export_follows_ledger (self : t) (w w1 w2 : World)
    (u v accessed_by_ access_type_ data_category_ purpose_ legal_basis_ : str) :
  let before := get_user_data_export u self w1 in
  let st' := Eff.self (log_data_access v accessed_by_ access_type_ data_category_
                         purpose_ legal_basis_ self w) in
  let after := get_user_data_export u st' w2 in
  Eff.self before = self
  /\ exists e e',
       Eff.result before = Return e /\ Eff.result after = Return e'
       /\ ex_user_id e = u
       /\ ex_consents e = List.map export_consent (default [] (consents self !! u))
       /\ ex_consents e' = ex_consents e
       /\ ex_access_logs e'
          = ex_access_logs e
            ++ (if bool_decide (v = u)
                then [mkAccessExport accessed_by_ access_type_ data_category_
                        (Lib.isoformat (current w))]
                else []).
Proof.
  cbv zeta. split; [reflexivity|].
  rewrite !get_user_data_export_result. eexists _, _.
  split; [reflexivity|]. split; [reflexivity|].
  cbn [ex_user_id ex_consents ex_access_logs].
  split; [reflexivity|]. split; [reflexivity|]. split; [reflexivity|].
  unfold log_data_access. eff. cbn [access_logs].
  rewrite List.filter_app, List.map_app. f_equal.
  cbn [List.filter log_user_id].
  destruct (decide (v = u)) as [->|Hne].
  - by rewrite str_eqb_refl, bool_decide_eq_true_2.
  - by rewrite str_eqb_neq, bool_decide_eq_false_2.
Qed.

End LedgerFrame.

(** ** The cognitive engine *)

Section Engine.
Import Py Eff Model CARLCognitiveEngine.

Lemma register_run self w u voice face :
  register_user_biometrics u voice face true self w
  = (Return (filed u voice face),
     mk (version self) (models_loaded self) (<[u := filed u voice face]> (user_registry self)),
     w).
Proof. reflexivity. Qed.

Lemma lit_voice_face : lit "voice" <> lit "face".
Proof. by vm_compute. Qed.

Lemma filed_voice u voice face :
  voice_signature (filed u voice face)
  = if truthy voice then Some (SHA256.hexdigest (value_of voice)) else None.
Proof. unfold filed. by destruct (truthy voice), (truthy face). Qed.

Lemma filed_face u voice face :
  face_template (filed u voice face)
  = if truthy face then Some (SHA256.hexdigest (value_of face)) else None.
Proof. unfold filed. by destruct (truthy voice), (truthy face). Qed.

Lemma filed_rights u voice face usage :
  content_rights (filed u voice face) !! usage
  = if bool_decide (usage = lit "voice") then Some (truthy voice)
    else if bool_decide (usage = lit "face") then Some (truthy face)
    else None.
Proof.
  pose proof lit_voice_face as Hvf.
  unfold filed. destruct (truthy voice), (truthy face); cbn [with_voice with_face content_rights];
    repeat case_bool_decide; subst;
    rewrite ?lookup_insert_eq, ?lookup_insert_ne, ?lookup_insert_eq, ?lookup_empty by congruence;
    try done.
  all: rewrite ?lookup_insert_ne by congruence; rewrite ?lookup_insert_eq; try done.
  all: rewrite ?lookup_insert_ne by congruence; rewrite ?lookup_insert_eq, ?lookup_empty; done.
Qed.

Lemma filed_user_id u voice face : user_id (filed u voice face) = u.
Proof. unfold filed. by destruct (truthy voice), (truthy face). Qed.

Lemma filed_consent u voice face : consent_given (filed u voice face) = true.
Proof. unfold filed. by destruct (truthy voice), (truthy face). Qed.

Lemma filed_well_formed u voice face : well_formed u (filed u voice face).
Proof.
  pose proof lit_voice_face as Hvf.
  unfold well_formed. rewrite !filed_rights, filed_voice, filed_face, filed_user_id, filed_consent.
  split; [done|]. split; [done|].
  rewrite (bool_decide_eq_true_2 (lit "voice" = lit "voice")) by done.
  rewrite (bool_decide_eq_false_2 (lit "face" = lit "voice")) by congruence.
  rewrite (bool_decide_eq_true_2 (lit "face" = lit "face")) by done.
  split.
  { destruct (truthy voice); f_equal; symmetry;
      first [by apply bool_decide_eq_true_2
            | apply bool_decide_eq_false_2; intros H; by apply H]. }
  split.
  { destruct (truthy face); f_equal; symmetry;
      first [by apply bool_decide_eq_true_2
            | apply bool_decide_eq_false_2; intros H; by apply H]. }
  intros usage H1 H2. rewrite filed_rights. by rewrite !bool_decide_eq_false_2.
Qed.

Lemma register_self self w u voice face consent :
  Eff.self (register_user_biometrics u voice face consent self w)
  = if consent
    then mk (version self) (models_loaded self)
            (<[u := filed u voice face]> (user_registry self))
    else self.
Proof. by destruct consent. Qed.

Lemma registered_well_formed self :
  registered self -> forall k p, user_registry self !! k = Some p -> well_formed k p.
Proof.
  induction 1 as [|self w u voice face consent Hr IH]; intros k p Hk.
  - unfold init in Hk. cbn [user_registry] in Hk. by rewrite lookup_empty in Hk.
  - rewrite register_self in Hk. destruct consent; [|by apply IH].
    cbn [user_registry] in Hk. destruct (decide (u = k)) as [->|Hne].
    + rewrite lookup_insert_eq in Hk. injection Hk as <-. apply filed_well_formed.
    + rewrite lookup_insert_ne in Hk by done. by apply IH.
Qed.

(** XM. Every engine built by registrations keeps its registry well
    formed: each profile is filed under its own id, carries consent, and
    holds the right to a voice or a face exactly when the signature is
    stored. The integrity report therefore never shows a profile without
    consent, and its protection flags agree with the rights it lists; for
    an id that is not registered it is the error "User not found". *)
Theorem registry_stays_well_formed (self : t) :
  registered self ->
  (forall k p, user_registry self !! k = Some p -> well_formed k p)
  /\ forall u w,
       match Eff.result (generate_integrity_report u self w) with
       | Return (IntegrityReport u' voice_protected face_protected consent_status rights _) =>
           u' = u /\ consent_status = true
           /\ rights !! lit "voice" = Some voice_protected
           /\ rights !! lit "face" = Some face_protected
       | Return (ReportError e) =>
           user_registry self !! u = None /\ e = lit "User not found"
       | Raise _ => False
       end.
Proof.
  intros Hr. pose proof (registered_well_formed self Hr) as Hwf. split; [exact Hwf|].
  intros u w. unfold generate_integrity_report. eff.
  destruct (user_registry self !! u) as [p|] eqn:E; cbn; [|done].
  destruct (Hwf u p E) as (_ & Hc & Hv & Hf & _). by rewrite Hc, Hv, Hf.
Qed.

Lemma registry_stays_well_formed_witness :
  let self := Eff.self (register_user_biometrics Scenario.u1 (Some (blit "voice")) None true
                          init Scenario.w0) in
  (forall k p, user_registry self !! k = Some p -> well_formed k p)
  /\ forall u w,
       match Eff.result (generate_integrity_report u self w) with
       | Return (IntegrityReport u' voice_protected face_protected consent_status rights _) =>
           u' = u /\ consent_status = true
           /\ rights !! lit "voice" = Some voice_protected
           /\ rights !! lit "face" = Some face_protected
       | Return (ReportError e) =>
           user_registry self !! u = None /\ e = lit "User not found"
       | Raise _ => False
       end.
Proof.
  apply (registry_stays_well_formed
           (Eff.self (register_user_biometrics Scenario.u1 (Some (blit "voice")) None true
                        init Scenario.w0))).
  apply registered_step, registered_init.
Defined.

(** XN. Permission follows the latest registration and nothing else. After
    a registration with consent, [check_usage_permission] grants "voice"
    exactly when a non-empty voice sample was registered, "face" exactly
    when a non-empty face image was, and refuses every other usage type;
    the content creator who asks plays no part, and the engine is left as
    it was. A user who is not in the registry is refused as not
    registered. *)
Theorem usage_permission_follows_registration (self : t) (w w' : World)
    (u creator usage : str) (voice face : option bytes) :
  let st := Eff.self (register_user_biometrics u voice face true self w) in
  check_usage_permission creator u usage st w'
  = (Return
       (if (bool_decide (usage = lit "voice") && truthy voice)
           || (bool_decide (usage = lit "face") && truthy face)
        then (true, Some (License true Literal.f0_15 (lit "zero_knowledge_proof")))
        else (false, Some (TermsError (lit "No " ++ usage ++ lit " rights granted")))),
     st, w')
  /\ (forall v, v <> u -> user_registry self !! v = None ->
        check_usage_permission creator v usage st w'
        = (Return (false, Some (TermsError (lit "User not registered"))), st, w')).
Proof.
  pose proof lit_voice_face as Hvf.
  cbv zeta. rewrite register_self. split.
  - unfold check_usage_permission. eff. cbn [user_registry].
    rewrite lookup_insert_eq, filed_rights.
    repeat case_bool_decide; subst; try congruence;
      destruct (truthy voice), (truthy face); reflexivity.
  - intros v Hne Hv. unfold check_usage_permission. eff. cbn [user_registry].
    by rewrite lookup_insert_ne, Hv.
Qed.

(** XO. The audio check compares fingerprints with the registered one.
    After a registration with consent, audio claimed for that user is
    passed with confidence 0.95 when a voice sample was registered and the
    SHA-256 digests agree, and flagged as synthetic with confidence 0.88
    otherwise: always so when the user registered no voice. The sample
    that was registered passes. A claim for the empty user id, or no claim
    at all, is never flagged. The engine is left as it was. *)
Theorem audio_checked_against_registration (self : t) (w w' : World) (u : str)
    (voice face : option bytes) (audio : bytes) :
  let st := Eff.self (register_user_biometrics u voice face true self w) in
  detect_deepfake_audio audio (Some u) st w'
  = (Return
       (if negb (truthy (Some u))
           || (truthy voice
               && bool_decide (SHA256.hexdigest audio = SHA256.hexdigest (value_of voice)))
        then (false, Literal.f0_95) else (true, Literal.f0_88)),
     st, w')
  /\ detect_deepfake_audio (value_of voice) (Some u) st w'
     = (Return (if negb (truthy (Some u)) || truthy voice
                then (false, Literal.f0_95) else (true, Literal.f0_88)), st, w')
  /\ detect_deepfake_audio audio None st w' = (Return (false, Literal.f0_95), st, w').
Proof.
  cbv zeta. rewrite register_self.
  assert (G : forall a,
    detect_deepfake_audio a (Some u)
      (mk (version self) (models_loaded self)
          (<[u := filed u voice face]> (user_registry self))) w'
    = (Return
         (if negb (truthy (Some u))
             || (truthy voice
                 && bool_decide (SHA256.hexdigest a = SHA256.hexdigest (value_of voice)))
          then (false, Literal.f0_95) else (true, Literal.f0_88)),
       mk (version self) (models_loaded self)
          (<[u := filed u voice face]> (user_registry self)), w')).
  { intros a. unfold detect_deepfake_audio. eff.
    destruct u as [|c u]; [reflexivity|]. cbn [truthy value_of negb orb user_registry].
    rewrite lookup_insert_eq, filed_voice. unfold _generate_voice_fingerprint.
    destruct (truthy voice); cbn [andb].
    - repeat case_bool_decide; try reflexivity; congruence.
    - by rewrite bool_decide_eq_false_2. }
  split; [apply G|]. split; [|reflexivity].
  rewrite G. rewrite bool_decide_eq_true_2 by done. by rewrite andb_true_r.
Qed.

(** XP. [analyze_social_content] reports advertising and nothing else. It
    raises UnicodeEncodeError when the content cannot be encoded; otherwise
    the content id is the MD5 hex digest of the encoded content, the only
    flag it can raise is REJTETT_REKLAM with threat level "suspicious", the
    threat level is "safe" without it, and the result is never marked
    synthetic, whatever media is attached: the confidence is 0.95 for
    attached audio, 0.92 for attached video and 0.0 otherwise. The engine
    is left as it was. *)
Theorem analysis_flags_only_advertising (self : t) (w : World) (content : str)
    (ctype : ContentType) (media : option bytes) :
  let r := analyze_social_content content ctype media self w in
  Eff.self r = self
  /\ match Eff.result r with
     | Raise e =>
         e = UnicodeEncodeError /\ encode content = Raise UnicodeEncodeError
         /\ Eff.world r = w
     | Return a =>
         exists b, encode content = Return b
           /\ content_id a = MD5.hexdigest b
           /\ content_type a = ctype
           /\ is_synthetic a = false
           /\ flags a = (if _detect_hidden_advertisement content
                         then [lit "REJTETT_REKLAM"] else [])
           /\ threat_level a = (if _detect_hidden_advertisement content
                                then SUSPICIOUS else SAFE)
           /\ confidence a = (if truthy media
                              then match ctype with
                                   | AUDIO => Literal.f0_95
                                   | VIDEO => Literal.f0_92
                                   | _ => Literal.f0_0
                                   end
                              else Literal.f0_0)
           /\ timestamp a = current w
           /\ details a = mkDetails (lit "CARL v" ++ version self) true
     end.
Proof.
  cbv zeta. unfold analyze_social_content. eff.
  destruct (encode_outcome content) as [[b Eb]|Eb]; rewrite Eb; cbn [fst snd]; [|done].
  unfold _detect_misinformation, _check_copyright_violation, detect_deepfake_audio,
    detect_deepfake_video. eff.
  destruct (_detect_hidden_advertisement content), (truthy media), ctype; cbn;
    (split; [reflexivity|]); exists b; repeat split.
Qed.

End Engine.

(** ** Detection of hidden advertising *)

Section Advertising.
Import Py Eff Model Unicode CARLCognitiveEngine.

Lemma startswith_app (p b : str) : startswith (p ++ b) p = true.
Proof. induction p as [|c p IH]; [by destruct b|]. cbn [app startswith]. by rewrite N.eqb_refl. Qed.

Lemma contains_unfold (s p : str) :
  contains s p = startswith s p || match s with [] => false | _ :: r => contains r p end.
Proof. by destruct s. Qed.

Lemma contains_app (a p b : str) : contains (a ++ p ++ b) p = true.
Proof.
  induction a as [|c a IH].
  - cbn [app]. by rewrite contains_unfold, startswith_app.
  - cbn [app contains]. rewrite IH. apply orb_true_r.
Qed.

(** The text before a position only matters to a capital sigma. *)
Lemma lower_from_app (before x y : str) :
  exists l, lower_from before (x ++ y) = l ++ lower_from (rev x ++ before) y.
Proof.
  revert before. induction x as [|c x IH]; intros before; [by exists []|].
  destruct (IH (c :: before)) as [l Hl]. cbn [app lower_from rev].
  rewrite Hl, <- (app_assoc (rev x)). cbn [app]. eexists. by rewrite app_assoc.
Qed.

Lemma lower_from_plain (before q y : str) :
  Forall (fun c => c <> 0x3A3) q ->
  lower_from before (q ++ y) = flat_map to_lower_full q ++ lower_from (rev q ++ before) y.
Proof.
  intros Hq. revert before. induction Hq as [|c q Hc Hq IH]; intros before; [done|].
  cbn [app lower_from flat_map rev]. apply N.eqb_neq in Hc. rewrite Hc, IH.
  rewrite <- (app_assoc (rev q)). cbn [app]. by rewrite app_assoc.
Qed.

Lemma patterns_no_sigma (p : str) : In p suspicious_patterns -> ~ In 0x3C3 p.
Proof.
  intros Hp.
  assert (H : forallb (fun p => forallb (fun c => negb (c =? 0x3C3)) p) suspicious_patterns
              = true) by (by vm_compute).
  rewrite forallb_forall in H. specialize (H p Hp). rewrite forallb_forall in H.
  intros Hin. specialize (H _ Hin). by rewrite N.eqb_refl in H.
Qed.

Lemma patterns_lower (p : str) : In p suspicious_patterns -> flat_map to_lower_full p = p.
Proof.
  intros Hp.
  assert (H : forallb (fun p => bool_decide (flat_map to_lower_full p = p)) suspicious_patterns
              = true) by (by vm_compute).
  rewrite forallb_forall in H. specialize (H p Hp). by apply bool_decide_eq_true_1 in H.
Qed.

(** XQ. The advertising patterns are found in any letter case. A text
    that contains, anywhere, a run of characters whose lower-case forms
    spell one of the six patterns ("linkbio", "swipe up", "kód:",
    "kedvezmény", "együttműködés", "szponzor nélkül") is reported by
    [_detect_hidden_advertisement], whatever stands before and after it;
    in particular a text that contains a pattern as it is written. *)
Theorem advertising_found_in_any_case (x q y p : str) :
  In p suspicious_patterns ->
  flat_map to_lower_full q = p ->
  _detect_hidden_advertisement (x ++ q ++ y) = true
  /\ _detect_hidden_advertisement (x ++ p ++ y) = true.
Proof.
  intros Hp Hq.
  assert (G : forall q', flat_map to_lower_full q' = p ->
                         _detect_hidden_advertisement (x ++ q' ++ y) = true).
  { intros q' Hq'. unfold _detect_hidden_advertisement. cbv zeta.
    apply existsb_exists. exists p. split; [done|].
    assert (Hs : Forall (fun c => c <> 0x3A3) q').
    { apply Forall_forall. intros c Hc%list_elem_of_In ->. apply (patterns_no_sigma p Hp).
      rewrite <- Hq'. apply in_flat_map. exists 0x3A3. split; [done|]. by vm_compute; left. }
    unfold lower. destruct (lower_from_app [] x (q' ++ y)) as [l ->].
    rewrite (lower_from_plain _ _ _ Hs), Hq'. apply contains_app. }
  split; [by apply G|]. apply G. by apply patterns_lower.
Qed.

Lemma advertising_found_in_any_case_witness :
  _detect_hidden_advertisement
    ((lit "Akci" ++ [0xF3] ++ lit "! ") ++ (lit "KEDVEZM" ++ [0xC9] ++ lit "NY") ++ lit " ma")
  = true.
Proof.
  refine (proj1 (advertising_found_in_any_case (lit "Akci" ++ [0xF3] ++ lit "! ")
                   (lit "KEDVEZM" ++ [0xC9] ++ lit "NY") (lit " ma")
                   (lit "kedvezm" ++ [0xE9] ++ lit "ny") _ _)).
  - vm_compute. tauto.
  - vm_compute. reflexivity.
Defined.

Lemma to_lower_full_ascii (c : N) : c < 128 -> to_lower_full c = [ascii_lower c].
Proof.
  intros Hc.
  assert (H : forallb (fun c => bool_decide (to_lower_full c = [ascii_lower c]))
                (List.map N.of_nat (seq 0 128)) = true) by (by vm_compute).
  rewrite forallb_forall in H. eapply bool_decide_eq_true_1, H.
  apply in_map_iff. exists (N.to_nat c). split; [lia|]. apply in_seq. lia.
Qed.

Lemma lower_from_ascii (before t : str) :
  is_ascii t = true -> lower_from before t = List.map ascii_lower t.
Proof.
  revert before. induction t as [|c t IH]; intros before Ht; [done|].
  cbn [is_ascii forallb] in Ht. apply andb_true_iff in Ht as [Hc Ht].
  apply N.ltb_lt in Hc. cbn [lower_from List.map].
  assert (Hs : (c =? 0x3A3) = false) by (apply N.eqb_neq; lia).
  rewrite Hs, to_lower_full_ascii, IH by done. done.
Qed.

Lemma is_ascii_map_ascii_lower (t : str) :
  is_ascii t = true -> is_ascii (List.map ascii_lower t) = true.
Proof.
  induction t as [|c t IH]; [done|]. cbn [is_ascii forallb List.map].
  intros [Hc Ht]%andb_true_iff. apply andb_true_iff. split; [|by apply IH].
  apply N.ltb_lt in Hc. apply N.ltb_lt. unfold ascii_lower.
  destruct ((65 <=? c) && (c <=? 90)) eqn:E; [|done].
  apply andb_true_iff in E as [_ E]. apply N.leb_le in E. lia.
Qed.

Lemma startswith_ascii (s p : str) :
  is_ascii s = true -> startswith s p = true -> is_ascii p = true.
Proof.
  revert s. induction p as [|c p IH]; intros s Hs Hp; [done|].
  destruct s as [|d s]; [done|]. cbn in Hp, Hs.
  apply andb_true_iff in Hp as [Hc Hp]. apply andb_true_iff in Hs as [Hd Hs].
  apply N.eqb_eq in Hc as ->. cbn [is_ascii forallb]. rewrite Hd. cbn. by eapply IH.
Qed.

Lemma contains_ascii (s p : str) :
  is_ascii s = true -> is_ascii p = false -> contains s p = false.
Proof.
  intros Hs Hp. induction s as [|d s IH].
  - destruct p; [done|done].
  - cbn [contains]. cbn [is_ascii forallb] in Hs. apply andb_true_iff in Hs as [Hd Hs'].
    rewrite (IH Hs'), orb_false_r.
    destruct (startswith (d :: s) p) eqn:E; [|done].
    apply startswith_ascii in E; [congruence|].
    cbn [is_ascii forallb]. by rewrite Hd.
Qed.

(** XR. In a text of ASCII characters only two of the patterns can be
    found: the accented ones never occur in it, so the text is reported
    exactly when "linkbio" or "swipe up" occurs in it once its capital
    letters are lowered; the unaccented spelling of the other patterns
    passes. *)
Theorem ascii_text_matches_two_patterns (t : str) :
  is_ascii t = true ->
  _detect_hidden_advertisement t
  = contains (List.map ascii_lower t) (lit "linkbio")
    || contains (List.map ascii_lower t) (lit "swipe up").
Proof.
  intros Ht. unfold _detect_hidden_advertisement, lower. cbv zeta.
  rewrite lower_from_ascii by done.
  pose proof (is_ascii_map_ascii_lower t Ht) as Hl.
  unfold suspicious_patterns. cbn [existsb].
  rewrite (contains_ascii _ (lit "k" ++ [0xF3] ++ lit "d:")),
    (contains_ascii _ (lit "kedvezm" ++ [0xE9] ++ lit "ny")),
    (contains_ascii _ (lit "egy" ++ [0xFC] ++ lit "ttm" ++ [0x171] ++ lit "k" ++ [0xF6]
                       ++ lit "d" ++ [0xE9] ++ lit "s")),
    (contains_ascii _ (lit "szponzor n" ++ [0xE9] ++ lit "lk" ++ [0xFC] ++ lit "l"))
    by (done || by vm_compute).
  by rewrite !orb_false_r.
Qed.

Lemma ascii_text_matches_two_patterns_witness :
  _detect_hidden_advertisement (lit "20% kedvezmeny, kod: PROMO20") = false
  /\ _detect_hidden_advertisement (lit "Swipe UP for more") = true.
Proof.
  rewrite !ascii_text_matches_two_patterns by (by vm_compute).
  split; vm_compute; reflexivity.
Defined.

End Advertising.
